(** * PostProcessAll.py : the G-code fragment merge engine of PostProcessSetup

    A shallow embedding of [PostProcessSetup] of src/PostProcessAll.py in its
    split-setup mode: retrieval of one fragment per operation group, the
    header/tool/body/tail splitting, tool-change injection, line renumbering
    and the optional rapid-move rewriter, together with the files the function
    creates and removes.

    Modelling conventions.
    - Text is [string]; the regular expressions of the source are transcribed
      into a small backtracking matcher with Python's leftmost, greedy-first
      semantics ([mt] below).
    - Python floats are modelled as exact rationals [Q]; the text Python prints
      for a float inside a rewritten line is left abstract ([float_str]).
    - A Python exception is an explicit outcome; a [return] is another one.
    - The fragment file is opened in text mode with universal newlines:
      ["\r\n"] and a lone ["\r"] are read as ["\n"], and the lines are
      split after each ["\n"] ([lines_of], [readline]). *)

From Stdlib Require Import String Ascii List Bool Arith Lia ZArith QArith.
Import ListNotations.

Local Open Scope string_scope.
Local Open Scope nat_scope.
Local Open Scope list_scope.
Notation "a +++ b" := (String.append a b) (at level 60, right associativity).

(** ** Characters *)

Definition chr (n : nat) : ascii := ascii_of_nat n.
Definition str1 (c : ascii) : string := String c EmptyString.
Definition nl : string := str1 (chr 10).
Definition dq : string := str1 (chr 34).

Definition is_digit (c : ascii) : bool :=
  let n := nat_of_ascii c in (48 <=? n) && (n <=? 57).

(** [ci U c]: [c] is the upper-case letter [U] or its lower-case form
    (the [re.IGNORECASE] flag). *)
Definition ci (u c : ascii) : bool :=
  Ascii.eqb c u || Ascii.eqb c (chr (nat_of_ascii u + 32)).

Definition is_char (u c : ascii) : bool := Ascii.eqb c u.

(** Python's [\s] on a [str] pattern, restricted to ASCII. *)
Definition is_ws (c : ascii) : bool :=
  let n := nat_of_ascii c in ((9 <=? n) && (n <=? 13)) || ((28 <=? n) && (n <=? 32)).

Definition any_char (c : ascii) : bool := true.

(** ** A backtracking matcher for the source's regular expressions *)

Inductive re : Type :=
| RCls (p : ascii -> bool)
| RSeq (r1 r2 : re)
| ROpt (r : re)
| RStar (r : re)
| RGrp (g : string) (r : re).

Definition caps := list (string * list ascii).

Definition plus (r : re) : re := RSeq r (RStar r).

(** [mt r s c k]: match [r] at the front of [s] with captures [c], passing
    every way of doing so, in Python's order of preference, to the
    continuation [k]; the first success wins. *)
Fixpoint mt (r : re) (s : list ascii) (c : caps)
  (k : list ascii -> caps -> option (list ascii * caps)) {struct r}
  : option (list ascii * caps) :=
  match r with
  | RCls p => match s with a :: s' => if p a then k s' c else None | [] => None end
  | RSeq r1 r2 => mt r1 s c (fun s1 c1 => mt r2 s1 c1 k)
  | ROpt r1 => match mt r1 s c k with Some x => Some x | None => k s c end
  | RStar r1 =>
      (fix loop (n : nat) (s : list ascii) (c : caps) {struct n} :=
         match n with
         | O => k s c
         | S n' =>
             match mt r1 s c (fun s1 c1 =>
                     if length s1 <? length s then loop n' s1 c1 else None) with
             | Some x => Some x
             | None => k s c
             end
         end) (length s) s c
  | RGrp g r1 => mt r1 s c (fun s1 c1 => k s1 ((g, firstn (length s - length s1) s) :: c1))
  end.

(** [re.match]: anchored at the start; the rest of the input and the captures. *)
Definition rmatch (r : re) (s : string) : option (list ascii * caps) :=
  mt r (list_ascii_of_string s) [] (fun s' c => Some (s', c)).

Fixpoint cap (g : string) (c : caps) : option string :=
  match c with
  | [] => None
  | (g', v) :: c' => if String.eqb g g' then Some (string_of_list_ascii v) else cap g c'
  end.

(** [re.findall] of a pattern with one group [g]. *)
Fixpoint findall_aux (fuel : nat) (r : re) (g : string) (s : list ascii) : list string :=
  match fuel with
  | O => []
  | S fuel' =>
      match s with
      | [] => []
      | a :: s' =>
          match mt r s [] (fun s1 c => Some (s1, c)) with
          | Some (s1, c) =>
              if length s1 <? length s then
                match cap g c with Some v => v :: findall_aux fuel' r g s1
                              | None => "" :: findall_aux fuel' r g s1 end
              else findall_aux fuel' r g s'
          | None => findall_aux fuel' r g s'
          end
      end
  end.

Definition findall (r : re) (g : string) (s : string) : list string :=
  let l := list_ascii_of_string s in findall_aux (length l) r g l.

Definition digits : re := plus (RCls is_digit).
Definition spaces : re := RStar (RCls (is_char " "%char)).

(** regBody (IGNORECASE, DOTALL):
    [(?P<N>N[0-9]+ * )?(?P<line>(M(?P<M>[0-9]+) * )?(G(?P<G>[0-9]+) * )?(T(?P<T>[0-9]+))?.+)] *)
Definition regBody : re :=
  RSeq (ROpt (RGrp "N" (RSeq (RCls (ci "N")) (RSeq digits spaces))))
       (RGrp "line"
          (RSeq (ROpt (RSeq (RCls (ci "M")) (RSeq (RGrp "M" digits) spaces)))
          (RSeq (ROpt (RSeq (RCls (ci "G")) (RSeq (RGrp "G" digits) spaces)))
          (RSeq (ROpt (RSeq (RCls (ci "T")) (RGrp "T" digits)))
                (plus (RCls any_char)))))).

(** regToolComment: [\(T[0-9]+\s] *)
Definition regToolComment : re :=
  RSeq (RCls (is_char "("%char)) (RSeq (RCls (is_char "T"%char)) (RSeq digits (RCls is_ws))).

Definition not_xyzf (c : ascii) : bool :=
  negb (ci "X" c || ci "Y" c || ci "Z" c || ci "F" c).

(** A signed and an unsigned decimal number: [-?[0-9]+(\.[0-9] * )?] and
    [[0-9]+(\.[0-9] * )?] (spaces added inside the star to keep the comment open). *)
Definition fnum : re := RSeq digits (ROpt (RSeq (RCls (is_char "."%char)) (RStar (RCls is_digit)))).
Definition sfnum : re := RSeq (ROpt (RCls (is_char "-"%char))) fnum.
Definition skip_xyzf : re := RStar (RCls not_xyzf).

(** regParseLine (IGNORECASE) *)
Definition regParseLine : re :=
  RSeq (ROpt (RSeq (RCls (ci "G")) (RSeq (RGrp "G" fnum) skip_xyzf)))
  (RSeq (RGrp "XY"
           (RSeq (ROpt (RSeq (RCls (ci "X")) (RSeq sfnum skip_xyzf)))
                 (ROpt (RSeq (RCls (ci "Y")) (RSeq sfnum skip_xyzf)))))
  (RSeq (ROpt (RSeq (RCls (ci "Z")) (RSeq (RGrp "Z" sfnum) skip_xyzf)))
        (ROpt (RSeq (RCls (ci "F")) (RSeq (RGrp "F" sfnum) skip_xyzf))))).

(** regGcodes: [G([0-9]+(?:\.[0-9] * )?)] (case-sensitive) *)
Definition regGcodes : re := RSeq (RCls (is_char "G"%char)) (RGrp "1" fnum).

Definition regEndG : re := RSeq (RCls (is_char "G"%char)) (RGrp "1" digits).
Definition regEndM : re := RSeq (RCls (is_char "M"%char)) (RGrp "1" digits).

(** The groups of a regBody match, as [match.groupdict()] gives them. *)
Record BodyMatch := { bN : option string; bM : option string; bG : option string;
                      bT : option string; bline : string }.

Definition regBody_match (s : string) : option BodyMatch :=
  match rmatch regBody s with
  | Some (_, c) =>
      Some {| bN := cap "N" c; bM := cap "M" c; bG := cap "G" c; bT := cap "T" c;
              bline := match cap "line" c with Some l => l | None => "" end |}
  | None => None
  end.

(** ** Python helpers on strings and numbers *)

(** [int(s)] on a string of decimal digits. *)
Definition digit_val (c : ascii) : nat := nat_of_ascii c - 48.

Fixpoint digits_nat_aux (acc : nat) (l : list ascii) : nat :=
  match l with [] => acc | c :: l' => digits_nat_aux (acc * 10 + digit_val c) l' end.

Definition py_int (s : string) : nat := digits_nat_aux 0 (list_ascii_of_string s).

(** [float(s)] on a string matched by [-?[0-9]+(\.[0-9] * )?], as an exact rational. *)
Fixpoint frac_aux (l : list ascii) (num : Z) (den : positive) : Q :=
  match l with
  | [] => num # den
  | c :: l' => frac_aux l' (num * 10 + Z.of_nat (digit_val c))%Z (den * 10)%positive
  end.

Fixpoint split_dot (l : list ascii) : list ascii * list ascii :=
  match l with
  | [] => ([], [])
  | c :: l' => if Ascii.eqb c "."%char then ([], l')
               else let '(a, b) := split_dot l' in (c :: a, b)
  end.

Definition py_float (s : string) : Q :=
  let l := list_ascii_of_string s in
  let '(neg, l) := match l with
                   | c :: l' => if Ascii.eqb c "-"%char then (true, l') else (false, l)
                   | [] => (false, l) end in
  let '(ip, fp) := split_dot l in
  let q := frac_aux fp (Z.of_nat (digits_nat_aux 0 ip)) 1 in
  if neg then Qopp q else q.

(** [int(float(s))] for the non-negative G-code numbers found by regGcodes. *)
Definition py_int_float (s : string) : nat :=
  digits_nat_aux 0 (fst (split_dot (list_ascii_of_string s))).

(** [s[:-1]] *)
Definition drop_last (s : string) : string :=
  string_of_list_ascii (removelast (list_ascii_of_string s)).

(** [s.rstrip("\n ")] *)
Definition rstrip_nl_sp (s : string) : string :=
  string_of_list_ascii
    (rev (let fix drop (l : list ascii) :=
              match l with
              | c :: l' => if Ascii.eqb c (chr 10) || Ascii.eqb c " "%char then drop l' else l
              | [] => [] end
          in drop (rev (list_ascii_of_string s)))).

(** [str(n)] of a natural number. *)
Fixpoint nat_str_aux (fuel n : nat) (acc : string) : string :=
  match fuel with
  | O => acc
  | S f => let acc' := String (chr (48 + n mod 10)) acc in
           if n <? 10 then acc' else nat_str_aux f (n / 10) acc'
  end.
Definition nat_str (n : nat) : string := nat_str_aux (S n) n "".

(** The feed rate [feedCur] starts as the Python int [0] and becomes a float
    once an F word is parsed; the two print differently. *)
Inductive num := NInt0 | NFloat (q : Q).
Definition num_q (x : num) : Q := match x with NInt0 => 0%Q | NFloat q => q end.

(** Python comparisons on [float] values that may be [None]: a comparison
    involving [None] raises [TypeError], modelled as [None]. *)
Definition py_ge (a b : option Q) : option bool :=
  match a, b with Some x, Some y => Some (Qle_bool y x) | _, _ => None end.
Definition py_lt (a b : option Q) : option bool :=
  match a, b with Some x, Some y => Some (negb (Qle_bool y x)) | _, _ => None end.
Definition py_le (a b : option Q) : option bool :=
  match a, b with Some x, Some y => Some (Qle_bool x y) | _, _ => None end.

(** Python's short-circuit [or] and [and] over conditions that may raise. *)
Definition or_e (a : option bool) (b : unit -> option bool) : option bool :=
  match a with Some true => Some true | Some false => b tt | None => None end.
Definition and_e (a : option bool) (b : unit -> option bool) : option bool :=
  match a with Some false => Some false | Some true => b tt | None => None end.

Definition optnat_eqb (a : option nat) (n : nat) : bool :=
  match a with Some m => Nat.eqb m n | None => false end.

Definition constMotionGcodeSet : list nat :=
  [0;1;2;3;33;38;73;76;80;81;82;84;85;86;87;88;89].
Definition constHomeGcodeSet : list nat := [28; 30].
Definition constLineNumInc : nat := 5.

Definition memb (n : nat) (l : list nat) : bool := existsb (Nat.eqb n) l.

Section Engine.

(** How Python prints a float inside [str.format]; left abstract. *)
Variable float_str : Q -> string.

Definition py_fmt (z : option Q) : string :=
  match z with Some q => float_str q | None => "None" end.
Definition num_fmt (x : num) : string :=
  match x with NInt0 => "0" | NFloat q => float_str q end.

(** ** The rapid-move rewriter *)

(** The text of the source's format constants. *)
Definition changed_from (orig : string) : string :=
  " (Changed from: " +++ dq +++ orig +++ dq +++ ")" +++ nl.
Definition constRapidZgcode (z : option Q) (orig : string) : string :=
  "G00 Z" +++ py_fmt z +++ changed_from orig.
Definition constRapidXYgcode (xy : string) (orig : string) : string :=
  "G00 " +++ xy +++ changed_from orig.
Definition constFeedZgcode (z : option Q) (f : num) (orig : string) : string :=
  "G01 Z" +++ py_fmt z +++ " F" +++ num_fmt f +++ changed_from orig.
Definition constFeedXYgcode (xy : string) (f : num) (orig : string) : string :=
  "G01 " +++ xy +++ " F" +++ num_fmt f +++ changed_from orig.
Definition constFeedXYZgcode (xy : string) (z : option Q) (f : num) (orig : string) : string :=
  "G01 " +++ xy +++ " Z" +++ py_fmt z +++ " F" +++ num_fmt f +++ changed_from orig.
Definition constAddFeedGcode (f : num) : string :=
  " F" +++ num_fmt f +++ " (Feed rate added)" +++ nl.

(** The rapid-move state: the local variables [fFastZ], [Gcode], [Zcur],
    [Zlast], [Zfeed], [fZfeedNotSet], [feedCur], [fNeedFeed], [fLockSpeed]. *)
Record FZ := mkFZ {
  fFastZ : bool; Gcode : option nat; Zcur : option Q; Zlast : option Q;
  Zfeed : option Q; fZfeedNotSet : bool; feedCur : num; fNeedFeed : bool;
  fLockSpeed : bool }.

(** "Initialize rapid move optimizations" (run before each group's body);
    [Zlast] is not re-initialised by the source and keeps its value. *)
Definition fz_init (fFastZenabled : bool) (old : FZ) : FZ :=
  mkFZ fFastZenabled None None (Zlast old) None true NInt0 false false.

(** The loop over the G-codes of the line:
    result [(fNoMotionGcode, fHomeGcode, Gcode, fNeedFeed)]. *)
Fixpoint scan_gcodes (gs : list string) (g : option nat) (need : bool)
  : bool * bool * option nat * bool :=
  match gs with
  | [] => (true, false, g, need)
  | t :: gs' =>
      let n := py_int_float t in
      if memb n constHomeGcodeSet then (true, true, g, need)
      else if memb n constMotionGcodeSet then
        (false, false, Some n, if Nat.eqb n 0 then false else need)
      else scan_gcodes gs' g need
  end.

(** Result of the [try] block: normal completion, or an exception, with the
    variables as they stand at that point ([fFastZ] is then cleared by the
    handler). *)
Inductive FZRes := FZOk (st : FZ) (line : string) | FZExc (st : FZ) (line : string).

Definition set_fz (st : FZ) (g : option nat) (zc zl zf : option Q) (nset : bool)
  (fc : num) (need : bool) : FZ :=
  mkFZ (fFastZ st) g zc zl zf nset fc need (fLockSpeed st).

(** The body of the [try] in the rapid-move analysis of [line], given the
    groups [c] of [regParseLine.match(line)]. *)
Definition fz_try (st : FZ) (line : string) (c : caps) : FZRes :=
  let Gcodes := findall regGcodes "1" line in
  let '(fNoMotionGcode, fHomeGcode, g0, need0) := scan_gcodes Gcodes (Gcode st) (fNeedFeed st) in
  if fHomeGcode then FZOk (set_fz st g0 (Zcur st) (Zlast st) (Zfeed st) (fZfeedNotSet st) (feedCur st) need0) line
  else
  let Ztmp := cap "Z" c in
  let '(zlast1, zcur1) := match Ztmp with
                          | Some z => (Zcur st, Some (py_float z))
                          | None => (Zlast st, Zcur st) end in
  let feedTmp := cap "F" c in
  let feed1 := match feedTmp with Some f => NFloat (py_float f) | None => feedCur st end in
  let XYcur := rstrip_nl_sp (match cap "XY" c with Some s => s | None => "" end) in
  let xy_empty := Nat.eqb (String.length XYcur) 0 in
  let ztmp_set := match Ztmp with Some _ => true | None => false end in
  (* Figure out Z feed *)
  let '(zfeed1, nset1, line1, need1, g1) :=
    if (match Zfeed st with None => true | Some _ => fZfeedNotSet st end)
       && (optnat_eqb g0 0 || optnat_eqb g0 1) && ztmp_set && xy_empty then
      let nset := match Zfeed st with Some _ => false | None => fZfeedNotSet st end in
      if negb (optnat_eqb g0 0)
      then (zcur1, nset, constRapidZgcode zcur1 (drop_last line), true, Some 0)
      else (zcur1, nset, line, need0, g0)
    else (Zfeed st, fZfeedNotSet st, line, need0, g0) in
  let cur := set_fz st g1 zcur1 zlast1 zfeed1 nset1 feed1 need1 in
  (* the rapid / feed rewrites *)
  let step2 : option (option nat * string * bool) :=
    if optnat_eqb g1 1 && negb (fLockSpeed st) then
      if ztmp_set then
        if xy_empty then
          match or_e (py_ge zcur1 zlast1)
                  (fun _ => or_e (py_ge zcur1 zfeed1)
                     (fun _ => Some (Qeq_bool (num_q feed1) 0))) with
          | Some true => Some (Some 0, constRapidZgcode zcur1 (drop_last line1), true)
          | Some false => Some (g1, line1, need1)
          | None => None
          end
        else Some (g1, line1, need1)
      else
        match py_ge zcur1 zfeed1 with
        | Some true => Some (Some 0, constRapidXYgcode XYcur (drop_last line1), true)
        | Some false => Some (g1, line1, need1)
        | None => None
        end
    else if need1 && fNoMotionGcode then
      if ztmp_set then
        if negb xy_empty then
          Some (Some 1, constFeedXYZgcode XYcur zcur1 feed1 (drop_last line1), false)
        else
          match and_e (py_lt zcur1 zfeed1) (fun _ => py_le zcur1 zlast1) with
          | Some true => Some (Some 1, constFeedZgcode zcur1 feed1 (drop_last line1), false)
          | Some false => Some (g1, line1, need1)
          | None => None
          end
      else if negb xy_empty then
        match py_lt zcur1 zfeed1 with
        | Some true => Some (Some 1, constFeedXYgcode XYcur feed1 (drop_last line1), false)
        | Some false => Some (g1, line1, need1)
        | None => None
        end
      else Some (g1, line1, need1)
    else Some (g1, line1, need1) in
  match step2 with
  | None => FZExc cur line1
  | Some (g2, line2, need2) =>
      let '(line3, need3) :=
        if negb (optnat_eqb g2 0) && need2 then
          ((match feedTmp with None => drop_last line2 +++ constAddFeedGcode feed1
                          | Some _ => line2 end), false)
        else (line2, need2) in
      let zfeed3 :=
        match zcur1, zfeed1, g2 with
        | Some zc, Some zf, Some g =>
            if Qle_bool zf zc && negb (Nat.eqb g 0) && negb xy_empty
               && (ztmp_set || negb (Nat.eqb g 1))
            then Some (zc + (1 # 1000))%Q else zfeed1
        | _, _, _ => zfeed1
        end in
      FZOk (set_fz st g2 zcur1 zlast1 zfeed3 nset1 feed1 need3) line3
  end.

(** [if fFastZ: match = regParseLine.match(line); if match.end() != 0: try ...
    except: fFastZ = False].  [None]: [match.end()] raised outside the [try]. *)
Definition fast_line (st : FZ) (line : string) : option (FZ * string) :=
  if fFastZ st then
    match rmatch regParseLine line with
    | None => None
    | Some (rest, c) =>
        if Nat.eqb (String.length line - length rest) 0 then Some (st, line)
        else match fz_try st line c with
             | FZOk st' l' => Some (st', l')
             | FZExc st' l' =>
                 Some (mkFZ false (Gcode st') (Zcur st') (Zlast st') (Zfeed st')
                         (fZfeedNotSet st') (feedCur st') (fNeedFeed st') (fLockSpeed st'), l')
             end
    end
  else Some (st, line).


(** ** Files and the function's state *)

(** One [write] call on the body file: [WNum n] is the text
    ["N" + str(n) + " "], [WStr s] is [s]. *)
Inductive wr := WNum (n : nat) | WStr (s : string).

Definition render (w : wr) : string :=
  match w with WNum n => "N" +++ nat_str n +++ " " | WStr s => s end.

(** The state of the world and of the locals that outlive a single group:
    files on disk (those this function creates or opens), the text written
    to the output file [fileHead] and to the body file [fileBody], the local
    [lineNum], the [time.sleep] calls, the number of [program.postProcess]
    calls, the handles [fileHead], [fileBody], [fileOp] as the [except]
    handler sees them, and [retVal].  [tc_emits] is ghost state: it counts
    how many times the tool-change text is written. *)
Record IO := mkIO {
  disk : list string; headw : list wr; bodyw : list wr; lineNum : nat;
  sleeps : list Q; posts : nat; tc_emits : nat;
  hHead : option string; hBody : option string; hOp : option string;
  retVal : string }.

(** Outcome of a piece of the function: normal completion, a [return], or an
    exception propagating to the outer [except]. *)
Inductive Out (A : Type) : Type :=
| Norm (a : A) (io : IO)
| Ret (r : option string) (io : IO)
| Exn (io : IO).
Arguments Norm {A} a io.
Arguments Ret {A} r io.
Arguments Exn {A} io.

Definition M (A : Type) : Type := IO -> Out A.

Definition ret {A} (a : A) : M A := fun io => Norm a io.
Definition bind {A B} (m : M A) (k : A -> M B) : M B :=
  fun io => match m io with
            | Norm a io' => k a io'
            | Ret r io' => Ret r io'
            | Exn io' => Exn io'
            end.
Definition py_return {A} (r : option string) : M A := fun io => Ret r io.
Definition raise {A} : M A := fun io => Exn io.
Definition get : M IO := fun io => Norm io io.
Definition modify (f : IO -> IO) : M unit := fun io => Norm tt (f io).
Definition skip : M unit := ret tt.

Notation "x <- m ;; k" := (bind m (fun x => k)) (at level 61, m at next level, right associativity).
Notation "m ;;; k" := (bind m (fun _ => k)) (at level 61, right associativity).

Definition set_disk (d : list string) (io : IO) : IO :=
  mkIO d (headw io) (bodyw io) (lineNum io) (sleeps io) (posts io) (tc_emits io)
       (hHead io) (hBody io) (hOp io) (retVal io).
Definition set_handles (h b o : option string) (io : IO) : IO :=
  mkIO (disk io) (headw io) (bodyw io) (lineNum io) (sleeps io) (posts io) (tc_emits io)
       h b o (retVal io).

(** [open(p, "w")]: the file exists afterwards. *)
Definition create (p : string) : M unit :=
  modify (fun io => set_disk (p :: filter (fun q => negb (String.eqb q p)) (disk io)) io).
(** [os.remove(p)] *)
Definition remove (p : string) : M unit :=
  modify (fun io => set_disk (filter (fun q => negb (String.eqb q p)) (disk io)) io).

Definition write_head (s : string) : M unit :=
  modify (fun io => mkIO (disk io) (headw io ++ [WStr s]) (bodyw io) (lineNum io) (sleeps io)
                         (posts io) (tc_emits io) (hHead io) (hBody io) (hOp io) (retVal io)).
Definition write_body (s : string) : M unit :=
  modify (fun io => mkIO (disk io) (headw io) (bodyw io ++ [WStr s]) (lineNum io) (sleeps io)
                         (posts io) (tc_emits io) (hHead io) (hBody io) (hOp io) (retVal io)).
(** [fileBody.write("N" + str(lineNum) + " "); lineNum += constLineNumInc] *)
Definition write_num : M unit :=
  modify (fun io => mkIO (disk io) (headw io) (bodyw io ++ [WNum (lineNum io)])
                         (lineNum io + constLineNumInc) (sleeps io)
                         (posts io) (tc_emits io) (hHead io) (hBody io) (hOp io) (retVal io)).
Definition sleep (d : Q) : M unit :=
  modify (fun io => mkIO (disk io) (headw io) (bodyw io) (lineNum io) (sleeps io ++ [d])
                         (posts io) (tc_emits io) (hHead io) (hBody io) (hOp io) (retVal io)).
Definition count_post : M unit :=
  modify (fun io => mkIO (disk io) (headw io) (bodyw io) (lineNum io) (sleeps io)
                         (S (posts io)) (tc_emits io) (hHead io) (hBody io) (hOp io) (retVal io)).
Definition count_tc : M unit :=
  modify (fun io => mkIO (disk io) (headw io) (bodyw io) (lineNum io) (sleeps io)
                         (posts io) (S (tc_emits io)) (hHead io) (hBody io) (hOp io) (retVal io)).
(** Copy the body file into the output file. *)
Definition copy_body : M unit :=
  modify (fun io => mkIO (disk io) (headw io ++ bodyw io) (bodyw io) (lineNum io) (sleeps io)
                         (posts io) (tc_emits io) (hHead io) (hBody io) (hOp io) (retVal io)).
Definition set_hHead (h : option string) : M unit :=
  modify (fun io => set_handles h (hBody io) (hOp io) io).
Definition set_hBody (h : option string) : M unit :=
  modify (fun io => set_handles (hHead io) h (hOp io) io).
Definition set_hOp (h : option string) : M unit :=
  modify (fun io => set_handles (hHead io) (hBody io) h io).

Fixpoint iterM {A} (f : A -> M unit) (l : list A) : M unit :=
  match l with [] => skip | x :: l' => f x ;;; iterM f l' end.

(** ** Reading the fragment *)

(** Universal-newline translation of text mode: ["\r\n"] and a lone
    ["\r"] become ["\n"]. *)
Fixpoint univ_nl (l : list ascii) : list ascii :=
  match l with
  | [] => []
  | c :: l' =>
      if Ascii.eqb c (chr 13) then
        match l' with
        | d :: l'' => if Ascii.eqb d (chr 10) then chr 10 :: univ_nl l''
                      else chr 10 :: univ_nl l'
        | [] => [chr 10]
        end
      else c :: univ_nl l'
  end.

(** The lines [readline] returns one after the other. *)
Fixpoint lines_aux (l : list ascii) (cur : list ascii) : list string :=
  match l with
  | [] => match cur with [] => [] | _ => [string_of_list_ascii (rev cur)] end
  | c :: l' => if Ascii.eqb c (chr 10)
               then string_of_list_ascii (rev (c :: cur)) :: lines_aux l' []
               else lines_aux l' (c :: cur)
  end.
Definition lines_of (s : string) : list string :=
  lines_aux (univ_nl (list_ascii_of_string s)) [].

(** [fileOp.readline()] on the remaining lines; [""] at end of file. *)
Definition readline (f : list string) : string * list string :=
  match f with [] => ("", []) | l :: f' => (l, f') end.

Definition first_char (s : string) : option ascii :=
  match s with EmptyString => None | String c _ => Some c end.

Definition first_is (s : string) (c : ascii) : bool :=
  match first_char s with Some d => Ascii.eqb d c | None => false end.

(** [str.splitlines(True)] for ASCII text. *)
Definition is_line_break (c : ascii) : bool :=
  let n := nat_of_ascii c in
  (Nat.eqb n 10) || (Nat.eqb n 11) || (Nat.eqb n 12) || (Nat.eqb n 13)
  || (Nat.eqb n 28) || (Nat.eqb n 29) || (Nat.eqb n 30).

Fixpoint splitlines_aux (l : list ascii) (cur : list ascii) : list string :=
  match l with
  | [] => match cur with [] => [] | _ => [string_of_list_ascii (rev cur)] end
  | c :: l' =>
      if is_line_break c then
        match l' with
        | d :: l'' => if Nat.eqb (nat_of_ascii c) 13 && Nat.eqb (nat_of_ascii d) 10
                      then string_of_list_ascii (rev (d :: c :: cur)) :: splitlines_aux l'' []
                      else string_of_list_ascii (rev (c :: cur)) :: splitlines_aux l' []
        | [] => [string_of_list_ascii (rev (c :: cur))]
        end
      else splitlines_aux l' (c :: cur)
  end.
Definition splitlines (s : string) : list string := splitlines_aux (list_ascii_of_string s) [].

(** [s.replace(":", "\n")] *)
Definition replace_colon (s : string) : string :=
  string_of_list_ascii
    (map (fun c => if Ascii.eqb c ":"%char then chr 10 else c) (list_ascii_of_string s)).

(** ASCII [str.upper()] *)
Definition upper (s : string) : string :=
  string_of_list_ascii
    (map (fun c => let n := nat_of_ascii c in
                   if (97 <=? n) && (n <=? 122) then chr (n - 32) else c)
         (list_ascii_of_string s)).

(** [str.find]: the first index of [pat] in [s], if any. *)
Definition py_find (s pat : string) : option nat := String.index 0 pat s.

(** ["0" * k] for an integer [k] (empty when [k <= 0]). *)
Definition zeros (k : Z) : string :=
  string_of_list_ascii (repeat "0"%char (Z.to_nat k)).


(** ** Settings, environment and the external post processor *)

Record Settings := mkSettings {
  splitSetup : bool; fastZ : bool; toolChange : string; numericName : bool;
  endCodes : string; postRetries : Z; initialDelay : Q }.

(** The setup's output name and folder, the configured file extension, the
    system temporary folder, and whether [open(path, "w")] succeeds. *)
Record Env := mkEnv {
  fname : string; setupFolder : string; fileExt : string; tempdir : string;
  can_create : bool }.

(** One [program.postProcess(...)] call: it returns [True], returns [False],
    or throws. *)
Inductive PostResult := PostOk | PostFalse | PostThrow (msg : string).

(** One operation group as the external collaborators present it: the name
    of its tool-bearing operation ([opHasTool]), the result of the [k]-th
    [postProcess] call, whether the fragment file can be opened after it, the
    fragment's text, and the listing of the output folder. *)
Record GroupIn := mkGroup {
  opHasTool : option string; post_at : nat -> PostResult; visible_at : nat -> bool;
  frag : string; listing : list string }.

Definition constOpTmpFile : string := "8910".
Definition constBodyTmpFile : string := "gcodeBody".
Definition constPostLoopDelay : Q := 1 # 10.

(** The processed tool-change setting: plain text, or the list of lines to
    number ([fToolChangeNum]). *)
Inductive TC := TCPlain (s : string) | TCNum (ls : list string).

(** Values fixed before the group loop. *)
Record Prep := mkPrep {
  p_fname : string; p_opName : string; p_opFolder : string; p_opPath : string;
  p_fileExt : string; p_numericName : bool; p_fastZ : bool; p_tc : TC;
  p_endM : list nat; p_endG : list nat; p_retries : Z; p_delay : Q }.

(** *** Fragment retrieval *)

Fixpoint ext_hint (opName fileExt : string) (files : list string) : option string :=
  match files with
  | [] => None
  | f :: fs =>
      if String.prefix opName f then
        let ext := substring (String.length opName) (String.length f - String.length opName) f in
        if String.eqb ext fileExt then None else Some ext
      else ext_hint opName fileExt fs
  end.

Definition timeout_msg (P : Prep) (g : GroupIn) : string :=
  match ext_hint (p_opName P) (p_fileExt P) (listing g) with
  | Some ext => "Unable to open output file. Found the file with extension '" +++ ext
                +++ "' instead of '" +++ p_fileExt P +++ "'. Make sure you have the correct file "
                +++ "extension set in the Post Process All dialog."
  | None => "Unable to open " +++ p_opPath P
  end.

Definition op_suffix (sep : string) (g : GroupIn) : string :=
  match opHasTool g with Some n => sep +++ n | None => "" end.

(** The [while True] loop that runs the post processor and opens its output;
    [attempt] numbers the passes, [fuel] bounds them (it is never exhausted
    while [retries] counts down from [p_retries]). *)
Fixpoint fetch (P : Prep) (g : GroupIn) (fuel attempt : nat) (retries : Z) (delay : Q)
  : M (list string) :=
  count_post ;;;
  match post_at g attempt with
  | PostFalse =>
      py_return (Some ("Fusion reported an error processing operation" +++ op_suffix ": " g))
  | PostThrow msg =>
      io <- get ;;
      py_return (Some (retVal io +++ op_suffix " in operation " g +++ ": " +++ msg))
  | PostOk =>
      sleep delay ;;;
      if visible_at g attempt then
        create (p_opPath P) ;;; set_hOp (Some (p_opPath P)) ;;; ret (lines_of (frag g))
      else
        let delay' := (delay * 2)%Q in
        let retries' := (retries - 1)%Z in
        if (0 <? retries')%Z then
          match fuel with
          | S fuel' => fetch P g fuel' (S attempt) retries' delay'
          | O => raise
          end
        else py_return (Some (timeout_msg P g))
  end.

(** *** Header *)

(** [% at start only] *)
Definition pct_step (fFirst : bool) (f : list string) : M (string * list string) :=
  let '(line, f1) := readline f in
  match first_char line with
  | None => raise                                    (* line[0] on "" *)
  | Some c =>
      if Ascii.eqb c "%"%char then
        (if fFirst then write_head line else skip) ;;; ret (readline f1)
      else ret (line, f1)
  end.

(** The program-name rewrite of a header line of the first group. *)
Definition rename_line (P : Prep) (line : string) : string :=
  match py_find (upper line) (upper (p_opName P)) with
  | Some pos0 =>
      let pos := pos0 + String.length (p_opName P) in
      let fill := if p_numericName P
                  then zeros (Z.of_nat pos - Z.of_nat (String.length (p_fname P)) - 1)
                  else "" in
      substring 0 1 line +++ fill +++ p_fname P +++ substring pos (String.length line - pos) line
  | None => line
  end.

(** [while line[0] == "(" or line[0] == "O" or line[0] == "\n": ...];
    result: the current line, the rest of the file, [fBlankOk]. *)
Fixpoint hdr_loop (P : Prep) (fFirst : bool) (line : string) (f : list string) (blank : bool)
  : M (string * list string * bool) :=
  match first_char line with
  | None => raise                                    (* line[0] on "" *)
  | Some c =>
      if Ascii.eqb c "("%char || Ascii.eqb c "O"%char || Ascii.eqb c (chr 10) then
        let blank' := blank || Ascii.eqb c (chr 10) in
        match rmatch regToolComment line with
        | Some _ => write_head line ;;; ret (fst (readline f), snd (readline f), blank')
        | None =>
            (if fFirst then write_head (rename_line P line) else skip) ;;;
            match f with
            | [] => raise                            (* next test: line[0] on "" *)
            | l' :: f' => hdr_loop P fFirst l' f' blank'
            end
        end
      else ret (line, f, blank)
  end.

(** *** Tool line and tool-change injection *)

Definition is_some {A} (o : option A) : bool := match o with Some _ => true | None => false end.

(** The tool-change text, written before the new tool's line. *)
Definition inject (tc : TC) : M unit :=
  match tc with
  | TCPlain s => if Nat.eqb (String.length s) 0 then skip else count_tc ;;; write_body s
  | TCNum ls =>
      match ls with
      | [] => skip
      | _ => count_tc ;;; iterM (fun code => write_num ;;; write_body code) ls
      end
  end.

Definition tool_not_found : string :=
  "Tool change G-code (Txx) not found; this post processor is not compatible with Post Process All.".

(** The [while True] loop that looks for the tool line [Txx]; result: the
    regBody groups of the first body line, [fNum], [line], the rest of the
    file, [fBlankOk] and [toolLast]. *)
Fixpoint tool_loop (P : Prep) (fFirst : bool) (toolLast : option nat) (fBody : bool)
  (line : string) (f : list string) (blank : bool)
  : M (BodyMatch * bool * string * list string * bool * option nat) :=
  match regBody_match line with
  | None => raise                                    (* None.groupdict() *)
  | Some m =>
      let line1 := bline m in
      let fNum := is_some (bN m) in
      if fBody then ret (m, fNum, line1, f, blank, toolLast)
      else
        match bT m with
        | Some t =>
            let toolCur := py_int t in
            if negb fFirst then
              match toolLast with
              | None => raise                        (* toolLast unbound *)
              | Some tl =>
                  if negb (Nat.eqb toolCur tl) then
                    inject (p_tc P) ;;; ret (m, fNum, line1, f, blank, Some toolCur)
                  else
                    (* fBody = True; line = fileOp.readline(); continue *)
                    match f with
                    | [] => raise                    (* regBody.match("") is None *)
                    | l' :: f' => tool_loop P fFirst toolLast true l' f' blank
                    end
              end
            else ret (m, fNum, line1, f, blank, Some toolCur)
        | None =>
            (if fFirst || first_is line1 "("%char then
               (if fNum then write_num else skip) ;;; write_body line1
             else skip) ;;;
            match f with
            | [] => py_return (Some tool_not_found)
            | l' :: f' =>
                if Nat.eqb (String.length l') 0 then py_return (Some tool_not_found)
                else tool_loop P fFirst toolLast false l' f' (blank || first_is l' (chr 10))
            end
        end
  end.

(** *** Body *)

Definition set_lock (fz : FZ) (b : bool) : FZ :=
  mkFZ (fFastZ fz) (Gcode fz) (Zcur fz) (Zlast fz) (Zfeed fz) (fZfeedNotSet fz)
       (feedCur fz) (fNeedFeed fz) b.

(** [if endMark == 49: fLockSpeed = True elif endMark == 48: fLockSpeed = False] *)
Definition lock_update (mcode : option nat) (fz : FZ) : FZ :=
  match mcode with
  | Some 49 => set_lock fz true
  | Some 48 => set_lock fz false
  | _ => fz end.

(** The body loop, from the tool line on; it stops at an end-marker line or
    at the end of the file.  Result: the rapid-move state, [lineFull] and the
    rest of the file. *)
Fixpoint body_loop (P : Prep) (m : BodyMatch) (fNum : bool) (line : string)
  (f : list string) (fz : FZ) (lineFull : option string)
  : M (FZ * option string * list string) :=
  let mcode := match bM m with Some e => Some (py_int e) | None => None end in
  if match mcode with Some e => memb e (p_endM P) | None => false end
  then ret (fz, lineFull, f)
  else
  let fz1 := lock_update mcode fz in
  let gcode := match bG m with Some e => Some (py_int e) | None => None end in
  if match gcode with Some e => memb e (p_endG P) | None => false end
  then ret (fz1, lineFull, f)
  else
  match fast_line fz1 line with
  | None => raise
  | Some (fz2, line2) =>
      (if fNum then write_num else skip) ;;; write_body line2 ;;;
      match f with
      | [] => ret (fz2, Some "", [])                  (* lineFull = "": break *)
      | lf :: f' =>
          if Nat.eqb (String.length lf) 0 then ret (fz2, Some lf, f')
          else match regBody_match lf with
               | None => raise
               | Some m' => body_loop P m' (is_some (bN m')) (bline m') f' fz2 (Some lf)
               end
      end
  end.

(** *** One operation group *)

(** The locals carried from one group to the next. *)
Record Loc := mkLoc {
  fFirst : bool; fBlankOk : bool; toolLast : option nat; lineFull : option string;
  tailGcode : option string; lfz : FZ }.

Definition process_group (P : Prep) (g : GroupIn) (L : Loc) : M Loc :=
  f <- fetch P g (Z.to_nat (p_retries P)) 0 (p_retries P) (p_delay P) ;;
  (* Space between operations *)
  (if negb (fFirst L) && fBlankOk L then write_body nl else skip) ;;;
  p1 <- pct_step (fFirst L) f ;;
  p2 <- hdr_loop P (fFirst L) (fst p1) (snd p1) (fBlankOk L) ;;
  let '(line2, f2, blank2) := p2 in
  p3 <- tool_loop P (fFirst L) (toolLast L) false line2 f2 blank2 ;;
  let '(m, fNum, line3, f3, blank3, tl) := p3 in
  (* Initialize rapid move optimizations *)
  p4 <- body_loop P m fNum line3 f3 (fz_init (p_fastZ P) (lfz L)) (lineFull L) ;;
  let '(fz4, lf4, f4) := p4 in
  (* Found tail of program *)
  tail <- (if fFirst L then
             match lf4 with
             | None => raise                          (* lineFull unbound *)
             | Some s => ret (Some (s +++ String.concat "" f4))
             end
           else ret (tailGcode L)) ;;
  remove (p_opPath P) ;;; set_hOp None ;;;
  ret (mkLoc false blank3 tl lf4 tail fz4).

Fixpoint run_groups (P : Prep) (gs : list GroupIn) (L : Loc) : M Loc :=
  match gs with
  | [] => ret L
  | g :: gs' => L' <- process_group P g L ;; run_groups P gs' L'
  end.

(** *** Assembly *)

(** "Completed all operations, add tail": renumber the tail lines. *)
Definition add_tail (tail : option string) : M unit :=
  match tail with
  | None => raise                                     (* tailGcode unbound *)
  | Some t =>
      if Nat.eqb (String.length t) 0 then skip
      else iterM (fun code =>
                    match regBody_match code with
                    | None => raise
                    | Some m => if is_some (bN m) then write_num ;;; write_body (bline m)
                                else write_body code
                    end) (splitlines t)
  end.

(** The processing of the tool-change setting. *)
Definition prep_tc (s : string) : M TC :=
  if Nat.eqb (String.length s) 0 then ret (TCPlain s)
  else
    let t := replace_colon s +++ nl in
    match regBody_match t with
    | None => raise
    | Some m => if is_some (bN m) then ret (TCNum (splitlines (bline m))) else ret (TCPlain t)
    end.

Definition code_set (r : re) (s : string) : list nat := map py_int (findall r "1" s).

Definition initial_loc : Loc :=
  mkLoc true false None None None (mkFZ false None None None None true NInt0 false false).

(** The body of the outer [try] of [PostProcessSetup]; [whole] is the result
    of the single [postProcess] call when the setup is not split. *)
Definition setup_body (E : Env) (S : Settings) (whole : PostResult) (gs : list GroupIn)
  : M unit :=
  let path := setupFolder E +++ "/" +++ fname E +++ fileExt E in
  if negb (can_create E) then
    py_return (Some ("Unable to create output file '" +++ path
                     +++ "'. Make sure the setup name is valid as a file name."))
  else
  create path ;;; set_hHead (Some path) ;;;
  if negb (splitSetup S) then
    (* fileHead.close(); do it all at once *)
    count_post ;;;
    match whole with
    | PostFalse => py_return (Some "Fusion reported an error.")
    | PostThrow msg => io <- get ;; py_return (Some (retVal io +++ ": " +++ msg))
    | PostOk => sleep constPostLoopDelay ;;; py_return None
    end
  else
  let opName := constOpTmpFile in
  let opFolder := tempdir E in
  let opPath := opFolder +++ "/" +++ opName +++ fileExt E in
  let bodyPath := opFolder +++ "/" +++ constBodyTmpFile +++ fileExt E in
  create bodyPath ;;; set_hBody (Some bodyPath) ;;;
  tc <- prep_tc (toolChange S) ;;
  let P := mkPrep (fname E) opName opFolder opPath (fileExt E) (numericName S) (fastZ S) tc
             (code_set regEndM (endCodes S)) (code_set regEndG (endCodes S))
             (postRetries S) (initialDelay S) in
  L <- run_groups P gs initial_loc ;;
  add_tail (tailGcode L) ;;;
  (* Copy body to head *)
  copy_body ;;; remove bodyPath ;;; set_hBody None ;;; set_hHead None ;;;
  py_return None.

Definition traceback_text : string := "Traceback".

(** The outer [except]: close and remove every file whose handle is set. *)
Definition rm_handle (h : option string) (io : IO) : IO :=
  match h with
  | Some p => set_disk (filter (fun q => negb (String.eqb q p)) (disk io)) io
  | None => io
  end.
Definition cleanup (io : IO) : IO :=
  rm_handle (hOp io) (rm_handle (hBody io) (rm_handle (hHead io) io)).

Definition io0 : IO := mkIO [] [] [] 10 [] 0 0 None None None "Fusion reported an exception".

(** [PostProcessSetup]: the value returned ([None] on success) and the final
    state of the world. *)
Definition PostProcessSetup (E : Env) (S : Settings) (whole : PostResult) (gs : list GroupIn)
  : option string * IO :=
  match setup_body E S whole gs io0 with
  | Norm _ io => (None, io)
  | Ret r io => (r, io)
  | Exn io => (Some (retVal io +++ " " +++ traceback_text), cleanup io)
  end.

(** The text of the output file. *)
Definition output_text (io : IO) : string := String.concat "" (map render (headw io)).


(** ** Auxiliary definitions used in the statements *)

(** The least number of characters a pattern consumes. *)
Fixpoint minlen (r : re) : nat :=
  match r with
  | RCls _ => 1
  | RSeq r1 r2 => minlen r1 + minlen r2
  | ROpt _ | RStar _ => 0
  | RGrp _ r1 => minlen r1
  end.

(** The groups of a pattern, each with the least length of its text. *)
Fixpoint gmins (r : re) : list (string * nat) :=
  match r with
  | RCls _ => []
  | RSeq r1 r2 => gmins r1 ++ gmins r2
  | ROpt r1 | RStar r1 => gmins r1
  | RGrp g r1 => (g, minlen r1) :: gmins r1
  end.

(** The numbers written by [write_num], in order. *)
Fixpoint nums (ws : list wr) : list nat :=
  match ws with
  | [] => []
  | WNum n :: ws' => n :: nums ws'
  | WStr _ :: ws' => nums ws'
  end.

(** The rapid-move state with [Zlast] forgotten: no test of the [try]
    block reads [Zlast] except right after [Zlast = Zcur]. *)
Definition fz_forget (a : FZ) : FZ :=
  mkFZ (fFastZ a) (Gcode a) (Zcur a) None (Zfeed a) (fZfeedNotSet a) (feedCur a)
       (fNeedFeed a) (fLockSpeed a).

Definition fzres_forget (r : FZRes) : FZRes :=
  match r with FZOk s l => FZOk (fz_forget s) l | FZExc s l => FZExc (fz_forget s) l end.

Definition out_map {A B} (h : A -> B) (o : Out A) : Out B :=
  match o with Norm a io => Norm (h a) io | Ret r io => Ret r io | Exn io => Exn io end.

Definition loc_forget (L : Loc) : Loc :=
  mkLoc (fFirst L) (fBlankOk L) (toolLast L) (lineFull L) (tailGcode L) (fz_forget (lfz L)).

(** The locals carried from group to group, the rapid-move state left out. *)
Definition loc_view (L : Loc) : bool * bool * option nat * option string * option string :=
  (fFirst L, fBlankOk L, toolLast L, lineFull L, tailGcode L).

Definition set_lfz (L : Loc) (fz : FZ) : Loc :=
  mkLoc (fFirst L) (fBlankOk L) (toolLast L) (lineFull L) (tailGcode L) fz.

Definition bl_forget (p : FZ * option string * list string) : FZ * option string * list string :=
  let '(fz, lf, f) := p in (fz_forget fz, lf, f).

(** The state after [n] more calls of [postProcess] and the sleeps [sl]. *)
Definition after_attempts (io : IO) (sl : list Q) (n : nat) : IO :=
  mkIO (disk io) (headw io) (bodyw io) (lineNum io) (sleeps io ++ sl) (posts io + n)
       (tc_emits io) (hHead io) (hBody io) (hOp io) (retVal io).
(** [d], [2d], [4d], ...: [n] delays, each twice the one before. *)
Fixpoint doublings (d : Q) (n : nat) : list Q :=
  match n with O => [] | S n' => d :: doublings (d * 2)%Q n' end.
(** The delay after [n] doublings. *)
Fixpoint dbl (d : Q) (n : nat) : Q :=
  match n with O => d | S n' => dbl (d * 2)%Q n' end.


(** The writes of [for code in lines: fileBody.write("N" + str(n) + " " + code); n += constLineNumInc]. *)
Fixpoint number_lines (n : nat) (ls : list string) : list wr :=
  match ls with
  | [] => []
  | l :: ls' => WNum n :: WStr l :: number_lines (n + constLineNumInc) ls'
  end.


(** [n], [n + constLineNumInc], ...: [k] line numbers. *)
Fixpoint arith (n k : nat) : list nat :=
  match k with O => [] | S k' => n :: arith (n + constLineNumInc) k' end.

Definition out_io {A} (o : Out A) : IO :=
  match o with Norm _ io => io | Ret _ io => io | Exn io => io end.

(** A piece of the function that takes a state satisfying [I] to one
    satisfying [J], whatever way it ends. *)
Definition pres2 {A} (I J : IO -> Prop) (m : M A) : Prop :=
  forall io, I io -> J (out_io (m io)).

(** Before the body is copied: the body file holds the numbers 10, 15, ...,
    [lineNum] is the next one, and the output file holds no number yet. *)
Definition num_inv (io : IO) : Prop :=
  (exists k, nums (bodyw io) = arith 10 k /\ lineNum io = 10 + constLineNumInc * k)
  /\ nums (headw io) = [].

(** The line numbers of the output file are 10, 15, 20, ... *)
Definition out_numbered (io : IO) : Prop := exists k, nums (headw io) = arith 10 k.

(** The body file starts with [p]. *)
Definition body_pre (p : list wr) (io : IO) : Prop := exists l, bodyw io = p ++ l.





(** An invariant of the rapid-move state: while there is no feed-height
    estimate, [fNeedFeed] is clear. *)
Definition fz_inv (st : FZ) : bool :=
  match Zfeed st with None => negb (fNeedFeed st) | Some _ => true end.

(** The rapid-move states the body loop can reach: [process_group] starts
    each body from [fz_init], and [body_loop] applies [lock_update] and then
    [fast_line] to it, line after line. *)
Inductive fz_reach : FZ -> Prop :=
| fz_reach_init : forall b old, fz_reach (fz_init b old)
| fz_reach_lock : forall mc st, fz_reach st -> fz_reach (lock_update mc st)
| fz_reach_step : forall st line st' l', fz_reach st -> fast_line st line = Some (st', l') -> fz_reach st'.

(** ** Concrete inputs for the runs below *)

(** A float printer for the runs: Python's [str] of an integral float. *)
Definition pyf (q : Q) : string :=
  if (Z.rem (Qnum q) (Zpos (Qden q)) =? 0)%Z
  then (if (Qnum q <? 0)%Z then "-" else "")
       +++ nat_str (Z.to_nat (Z.abs (Qnum q) / Zpos (Qden q))) +++ ".0"
  else "?".

(** Lines joined into a file's text, each ended by a line break. *)
Fixpoint Ls (xs : list string) : string :=
  match xs with [] => "" | x :: r => x +++ nl +++ Ls r end.

(** A group whose [postProcess] succeeds and whose fragment opens at once. *)
Definition grp (t : string) : GroupIn := mkGroup None (fun _ => PostOk) (fun _ => true) t [].

Definition E0 : Env := mkEnv "Part1" "/out" ".nc" "/tmp" true.

(** Split setup, the given tool-change text and rapid-move switch, end codes
    M5 M9 M30, 3 retries, initial delay 0.2 s. *)
Definition St (tc : string) (fz : bool) : Settings :=
  mkSettings true fz tc false "M5 M9 M30" 3 (1 # 5).

(** The [Prep] that [setup_body] builds from [St ""]. *)
Definition P0 (fz : bool) : Prep :=
  mkPrep "Part1" "8910" "/tmp" "/tmp/8910.nc" ".nc" false fz (TCPlain "") [5; 9; 30] [] 3 (1 # 5).


(** A fragment: "%", the program comment, the tool line, the body, the end
    codes, the tail lines, "%". *)
Definition frag_of (t : string) (body tail : list string) : string :=
  Ls (["%"; "(8910)"; "N10 " +++ t +++ " M6"] ++ body ++ ["N90 M5"; "N95 M30"] ++ tail ++ ["%"]).

(** A group whose fragment never becomes readable. *)
Definition g_never : GroupIn := mkGroup None (fun _ => PostOk) (fun _ => false) "" [].
(** A group whose fragment is readable after the second [postProcess] call. *)
Definition g_late : GroupIn :=
  mkGroup None (fun _ => PostOk) (fun k => Nat.eqb k 1) (frag_of "T1" [] []) [].

(** The rapid-move state at the start of a group, the pass on or off. *)
Definition fz_on : FZ := mkFZ true None None None None true NInt0 false false.
Definition fz_off : FZ := mkFZ false None None None None true NInt0 false false.

Definition bm0 : BodyMatch := {| bN := None; bM := None; bG := None; bT := None; bline := "" |}.
Definition some_or {A} (d : A) (o : option A) : A := match o with Some a => a | None => d end.
(** The [regParseLine] match of a line. *)
Definition pl (s : string) : list ascii * caps := some_or ([], []) (rmatch regParseLine s).
Definition exc_of (r : FZRes) : FZ * string := match r with FZExc st l => (st, l) | FZOk st l => (st, l) end.
(** [dq]-quoted text. *)
Definition quoted (s : string) : string := dq +++ s +++ dq.

(** ** Operation grouping (the loop over [setup.allOperations]) *)

(** An operation: [isSuppressed], [hasToolpath] and the [guid] of its tool
    ([json.loads(op.tool.toJson())["guid"]]). *)
Record Op := mkOp { op_suppressed : bool; op_hasToolpath : bool; op_tool : string }.

(** [nextTool != currentTool], [currentTool] being [None] or a guid. *)
Definition tool_neq (t : string) (cur : option string) : bool :=
  match cur with Some c => negb (String.eqb t c) | None => true end.

(** The inner [while] loop: from the operations not yet read, it extends
    [opList] and returns it with [opHasTool] and the operations left. *)
Fixpoint group_rest (hasTool : bool) (currentTool : option string) (opHasTool : option Op)
    (opList : list Op) (ops : list Op) : list Op * option Op * list Op :=
  match ops with
  | [] => (opList, opHasTool, [])
  | op :: ops' =>
      if op_suppressed op then group_rest hasTool currentTool opHasTool opList ops'
      else if op_hasToolpath op && tool_neq (op_tool op) currentTool then
        if negb hasTool then (opList ++ [op], Some op, ops')
        else (opList, opHasTool, op :: ops')
      else group_rest hasTool currentTool opHasTool (opList ++ [op]) ops'
  end.

(** The outer [while] loop: the groups [(opList, opHasTool)] passed on, in
    order, to the rest of the loop body.  Each turn reads at least one
    operation, so [length ops] turns suffice ([group_ops]). *)
Fixpoint group_ops_aux (fuel : nat) (ops : list Op) : list (list Op * option Op) :=
  match fuel with
  | O => []
  | S fuel' =>
      match ops with
      | [] => []
      | op :: ops' =>
          if op_suppressed op then group_ops_aux fuel' ops'
          else
            let hasTool := op_hasToolpath op in
            let '(opList, opHasTool, rest) :=
              group_rest hasTool (if hasTool then Some (op_tool op) else None)
                (if hasTool then Some op else None) [op] ops' in
            (opList, opHasTool) :: group_ops_aux fuel' rest
      end
  end.

Definition group_ops (ops : list Op) : list (list Op * option Op) :=
  group_ops_aux (length ops) ops.

Definition unsuppressed (op : Op) : bool := negb (op_suppressed op).

(** The first operation of a list that has a toolpath. *)
Definition first_tp (ops : list Op) : option Op := find op_hasToolpath ops.

Definition op_manual : Op := mkOp false false "".

Definition op_t (t : string) : Op := mkOp false true t.

Definition ops_mixed : list Op := [op_manual; op_t "a"; mkOp true true "b"; op_t "a"; op_t "b"].

(** ** CountOutputFolderFiles *)

(** [s.endswith(suffix)] *)
Definition endswith (s suffix : string) : bool :=
  (String.length suffix <=? String.length s) &&
  String.eqb (substring (String.length s - String.length suffix) (String.length suffix) s) suffix.

(** [for file in files: ...]: the two counters after one folder's files. *)
Fixpoint count_files (fileExt : string) (cntFiles cntNcFiles : nat) (files : list string) : nat * nat :=
  match files with
  | [] => (cntFiles, cntNcFiles)
  | file :: files' =>
      if endswith file fileExt then count_files fileExt cntFiles (S cntNcFiles) files'
      else count_files fileExt (S cntFiles) cntNcFiles files'
  end.

(** [for path, dirs, files in os.walk(folder)]: the walk is given as the
    list of the [files] lists it yields, in order.  [cntNcFiles > limit * 1.5]
    compares an int with an exact half-integer: it is [2 * cntNcFiles > 3 * limit]. *)
Fixpoint count_walk (limit : nat) (fileExt : string) (cntFiles cntNcFiles : nat)
    (walk : list (list string)) : option string :=
  match walk with
  | [] => None
  | files :: walk' =>
      let '(cf, cn) := count_files fileExt cntFiles cntNcFiles files in
      if limit <? cf then Some "many files that are not G-code"
      else if 3 * limit <? 2 * cn then Some "many more G-code files than are produced by this design"
      else count_walk limit fileExt cf cn walk'
  end.

Definition CountOutputFolderFiles (walk : list (list string)) (limit : nat) (fileExt : string) : option string :=
  count_walk limit fileExt 0 0 walk.

(** ** File names relative to the user's home folder *)

Definition backslash : ascii := chr 92.

(** [s.replace("\\", "/")] *)
Fixpoint replace_bs (s : string) : string :=
  match s with
  | EmptyString => EmptyString
  | String c s' => String (if Ascii.eqb c backslash then "/"%char else c) (replace_bs s')
  end.

(** [s.removeprefix(prefix)] *)
Definition removeprefix (s prefix : string) : string :=
  if String.prefix prefix s
  then substring (String.length prefix) (String.length s - String.length prefix) s
  else s.

(** [s.rstrip("/")] *)
Definition rstrip_slash (s : string) : string :=
  string_of_list_ascii
    (rev (let fix drop (l : list ascii) :=
              match l with
              | c :: l' => if Ascii.eqb c "/"%char then drop l' else l
              | [] => [] end
          in drop (rev (list_ascii_of_string s)))).

(** [os.path.expanduser] of posixpath (macOS).  [home] is the current user's
    home ([$HOME], else the password database; [None] when neither gives
    one) and [pw] looks up another user's home by name. *)
Definition expanduser (home : option string) (pw : string -> option string) (path : string) : string :=
  match path with
  | String c rest =>
      if Ascii.eqb c "~"%char then
        (* [i = path.find('/', 1)], or [len(path)] *)
        let j := match String.index 0 "/" rest with Some j => j | None => String.length rest end in
        let userhome := if Nat.eqb j 0 then home else pw (substring 0 j rest) in
        match userhome with
        | None => path
        | Some h =>
            let r := rstrip_slash h +++ substring j (String.length rest - j) rest in
            if String.eqb r "" then "/" else r
        end
      else path
  | EmptyString => path
  end.

Definition ExpandFileName (home : option string) (pw : string -> option string) (file : string) : string :=
  replace_bs (expanduser home pw file).

(** [None]: the [IndexError] of [newFile[0]] on an empty [newFile]. *)
Definition CompressFileName (home : option string) (pw : string -> option string) (file : string)
    : option string :=
  let base := replace_bs (expanduser home pw "~") in
  let newFile := removeprefix (replace_bs file) base in
  if negb (Nat.eqb (String.length file) (String.length newFile)) then
    match newFile with
    | String c _ => if Ascii.eqb c "/"%char then Some ("~" +++ newFile) else Some file
    | EmptyString => None
    end
  else Some file.

Definition home_ann : option string := Some "/Users/ann".

Definition no_users (name : string) : option string := None.

(** ** The setup loop of PerformPostProcess *)

(** A CAM setup: its identity (Python [in] on [setups] compares the setup
    objects), [name], [isSuppressed] and [allOperations.count]. *)
Record CamSetup := mkSetup { s_id : nat; s_name : string; s_suppressed : bool; s_opcount : nat }.

(** [setup in setups] *)
Definition setup_in (setup : CamSetup) (setups : list CamSetup) : bool :=
  existsb (fun t => Nat.eqb (s_id t) (s_id setup)) setups.

(** [GetSetups]: all setups of the document unless only the selected ones
    are asked for and some are selected. *)
Definition GetSetups (camSetups : list CamSetup) (onlySelected : bool) (setups : list CamSetup)
    : list CamSetup :=
  if Nat.eqb (length setups) 0 || negb onlySelected then camSetups else setups.

(** [s.split(':')] *)
Fixpoint split_colon (s : string) : list string :=
  match s with
  | EmptyString => [""]
  | String c s' =>
      let rest := split_colon s' in
      if Ascii.eqb c ":"%char then "" :: rest
      else match rest with r :: rs => String c r :: rs | [] => [str1 c] end
  end.

Fixpoint lstrip_ws (l : list ascii) : list ascii :=
  match l with c :: l' => if is_ws c then lstrip_ws l' else l | [] => [] end.

(** [s.strip()] *)
Definition py_strip (s : string) : string :=
  string_of_list_ascii (rev (lstrip_ws (rev (lstrip_ws (list_ascii_of_string s))))).

(** The [while i < cnt] loop and [nameList[i].strip()]: the folder of the
    setup and its base file name. *)
Definition split_setup_name (outputFolder name : string) : string * string :=
  let nameList := split_colon name in
  (fold_left (fun acc part => acc +++ "/" +++ py_strip part) (removelast nameList) outputFolder,
   py_strip (last nameList "")).

(** The file name once the sequence number is prepended. *)
Definition seq_fname (sequence twoDigits numericName : bool) (seq : nat) (fname : string) : string :=
  if sequence || numericName then
    let seqStr := if twoDigits && (seq <? 10) then "0" +++ nat_str seq else nat_str seq in
    if numericName then seqStr else seqStr +++ " " +++ fname
  else fname.

(** [seqDict], a Python dict from folder to count, in insertion order. *)
Fixpoint dict_get (d : list (string * nat)) (k : string) : option nat :=
  match d with
  | [] => None
  | (k', v) :: d' => if String.eqb k' k then Some v else dict_get d' k
  end.

Fixpoint dict_set (d : list (string * nat)) (k : string) (v : nat) : list (string * nat) :=
  match d with
  | [] => [(k, v)]
  | (k', v') :: d' => if String.eqb k' k then (k', v) :: d' else (k', v') :: dict_set d' k v
  end.

(** What the loop does to the files: the files of a folder deleted (in the
    turn of [setup]), or [PostProcessSetup(fname, setup, setupFolder, ...)]
    called, with the status it returned. *)
Inductive Act :=
| ADelFiles (folder : string) (setup : CamSetup)
| APost (fname : string) (setup : CamSetup) (folder : string) (status : option string).

Definition act_setup (a : Act) : CamSetup :=
  match a with ADelFiles _ s => s | APost _ s _ _ => s end.

Definition act_folder (a : Act) : string :=
  match a with ADelFiles f _ => f | APost _ _ f _ => f end.

(** The settings the loop reads. *)
Record LoopCfg := mkLoopCfg {
  lc_outputFolder : string; lc_delFiles : bool;
  lc_sequence : bool; lc_twoDigits : bool; lc_numericName : bool }.

(** [for setup in cam.setups]: [setups] is the result of [GetSetups],
    [post] stands for [PostProcessSetup] and returns its status, and
    [cancelled k] is [progress.wasCancelled] at the turn of the [k]-th setup.
    The result: what was done, [cntFiles], [cntSkipped], [lstSkipped].  The
    progress-bar updates are not modelled. *)
Fixpoint setup_loop (cfg : LoopCfg) (setups : list CamSetup)
    (post : string -> CamSetup -> string -> option string) (cancelled : nat -> bool)
    (k : nat) (seqDict : list (string * nat)) (cntFiles cntSkipped : nat) (lstSkipped : string)
    (camSetups : list CamSetup) : list Act * nat * nat * string :=
  match camSetups with
  | [] => ([], cntFiles, cntSkipped, lstSkipped)
  | setup :: rest =>
      if cancelled k then ([], cntFiles, cntSkipped, lstSkipped)
      else if negb (s_suppressed setup) && negb (Nat.eqb (s_opcount setup) 0) then
        let '(setupFolder, name) := split_setup_name (lc_outputFolder cfg) (s_name setup) in
        let '(seqDict', first) :=
          match dict_get seqDict setupFolder with
          | Some n => (dict_set seqDict setupFolder (S n), false)
          | None => (dict_set seqDict setupFolder 1, true)
          end in
        if negb (setup_in setup setups)
        then setup_loop cfg setups post cancelled (S k) seqDict' cntFiles cntSkipped lstSkipped rest
        else
          let dels := if first && lc_delFiles cfg then [ADelFiles setupFolder setup] else [] in
          let seq := match dict_get seqDict' setupFolder with Some n => n | None => 0 end in
          let fname := seq_fname (lc_sequence cfg) (lc_twoDigits cfg) (lc_numericName cfg) seq name in
          let status := post fname setup setupFolder in
          let '(cntFiles', cntSkipped', lstSkipped') :=
            match status with
            | None => (S cntFiles, cntSkipped, lstSkipped)
            | Some msg => (cntFiles, S cntSkipped,
                           lstSkipped +++ nl +++ "Failed on setup " +++ s_name setup +++ ": " +++ msg)
            end in
          let '(acts, f, s, l) :=
            setup_loop cfg setups post cancelled (S k) seqDict' cntFiles' cntSkipped' lstSkipped' rest in
          (dels ++ APost fname setup setupFolder status :: acts, f, s, l)
      else setup_loop cfg setups post cancelled (S k) seqDict cntFiles cntSkipped lstSkipped rest
  end.

Definition loop_acts (cfg : LoopCfg) (setups : list CamSetup)
    (post : string -> CamSetup -> string -> option string) (cancelled : nat -> bool)
    (camSetups : list CamSetup) : list Act :=
  fst (fst (fst (setup_loop cfg setups post cancelled 0 [] 0 0 "" camSetups))).

Definition acts_of (r : list Act * nat * nat * string) : list Act := fst (fst (fst r)).

(** A deletion of the files of a folder not in [seen]. *)
Definition del_fresh (seen : list string) (a : Act) : Prop :=
  match a with ADelFiles f _ => ~ In f seen | APost _ _ _ _ => True end.

(** The folders already seen never get their files deleted again. *)
Fixpoint cleared_ok (seen : list string) (acts : list Act) : Prop :=
  match acts with
  | [] => True
  | a :: r => del_fresh seen a /\ cleared_ok (act_folder a :: seen) r
  end.

Definition is_post (a : Act) : bool := match a with APost _ _ _ _ => true | ADelFiles _ _ => false end.

(** Posted when not cancelled: not suppressed, with operations, and selected. *)
Definition to_post (setups : list CamSetup) (s : CamSetup) : bool :=
  negb (s_suppressed s) && negb (Nat.eqb (s_opcount s) 0) && setup_in s setups.

(** ** PerformPostProcess *)

(** [s[-n:]] *)
Definition py_suffix_slice (s : string) (n : nat) : string :=
  if Nat.eqb n 0 then s
  else substring (String.length s - n) (String.length s - (String.length s - n)) s.

(** The output folder after the [mkdir] attempt: on failure, the saved
    compressed name is used if its part after [~] ends the folder's path.
    [None]: [compressedName[0]] raised on an empty name. *)
Definition normalize_output (home : option string) (pw : string -> option string)
    (mkdir_ok : bool) (outputFolder compressedName : string) : option string :=
  if mkdir_ok then Some outputFolder
  else match compressedName with
       | EmptyString => None
       | String c rest =>
           if Ascii.eqb c "~"%char &&
              String.eqb rest (py_suffix_slice outputFolder (String.length rest))
           then Some (ExpandFileName home pw compressedName)
           else Some outputFolder
       end.

(** What the function does outside the setup loop, in order. *)
Inductive Eff :=
| EMkdir (folder : string)              (* pathlib.Path(outputFolder).mkdir(exist_ok=True) *)
| ESave (output : string)               (* SaveSettings with docSettings["output"] *)
| EWarn (strMsg : string)               (* the warning dialog on the folder's contents *)
| ERmtree (folder : string)             (* shutil.rmtree(outputFolder, True) *)
| ELoop (a : Act)                       (* an action of the setup loop *)
| ESetOutput (folder : string).         (* the program's output folder restored *)

(** How the function ends: the [except] branch, the [return] of the
    warning dialog, or normally with the closing message if any. *)
Inductive PPEnd := PPFailed | PPAborted | PPDone (msg : option string).

(** The settings the function reads. *)
Record PPSettings := mkPPSettings {
  ps_output : string; ps_delFiles : bool; ps_delFolder : bool; ps_sequence : bool;
  ps_twoDigits : bool; ps_numericName : bool; ps_onlySelected : bool }.

(** The document, the program and the user's answers.  [pp_walk] is what
    [os.walk] yields for the output folder, [pp_cancelDialog] the answer to
    the warning, [pp_cancelled] the progress dialog's cancel button and
    [pp_post] [PostProcessSetup]. *)
Record PPInput := mkPPInput {
  pp_camSetups : list CamSetup; pp_selected : list CamSetup; pp_opCount : nat;
  pp_outputParam : string; pp_ncExt : string; pp_mkdirOk : bool;
  pp_walk : list (list string); pp_cancelDialog : bool; pp_cancelled : nat -> bool;
  pp_post : string -> CamSetup -> string -> option string }.

Definition final_msg (cntFiles cntSkipped : nat) (lstSkipped : string) : option string :=
  if negb (Nat.eqb cntSkipped 0) then
    Some (nat_str cntFiles +++ " files were written. " +++ nat_str cntSkipped +++
          " Setups were skipped due to error:" +++ lstSkipped)
  else if Nat.eqb cntFiles 0 then Some "No CAM operations posted"
  else None.

Definition PerformPostProcess (home : option string) (pw : string -> option string)
    (st : PPSettings) (inp : PPInput) : list Eff * PPEnd :=
  let setups := GetSetups (pp_camSetups inp) (ps_onlySelected st) (pp_selected inp) in
  let mk := [EMkdir (pp_outputParam inp)] in
  match normalize_output home pw (pp_mkdirOk inp) (pp_outputParam inp) (ps_output st) with
  | None => (mk, PPFailed)
  | Some outputFolder =>
      match CompressFileName home pw outputFolder with
      | None => (mk, PPFailed)
      | Some output =>
          let saved := mk ++ [ESave output] in
          if negb (Nat.eqb (length setups) 0) && negb (Nat.eqb (pp_opCount inp) 0) then
            let delFolder := ps_delFiles st && ps_delFolder st in
            let '(delFolder', warn, abort) :=
              if delFolder then
                match CountOutputFolderFiles (pp_walk inp) (length setups) (pp_ncExt inp) with
                | Some strMsg => (false, [EWarn strMsg], pp_cancelDialog inp)
                | None => (true, [], false)
                end
              else (false, [], false) in
            if abort then (saved ++ warn, PPAborted)
            else
              let rm := if delFolder' then [ERmtree outputFolder] else [] in
              let cfg := mkLoopCfg outputFolder (ps_delFiles st) (ps_sequence st)
                           (ps_twoDigits st) (ps_numericName st) in
              let '(acts, cntFiles, cntSkipped, lstSkipped) :=
                setup_loop cfg setups (pp_post inp) (pp_cancelled inp) 0 [] 0 0 "" (pp_camSetups inp) in
              (saved ++ warn ++ rm ++ map ELoop acts ++ [ESetOutput outputFolder],
               PPDone (final_msg cntFiles cntSkipped lstSkipped))
          else (saved, PPDone (final_msg 0 0 ""))
      end
  end.

(** ** SettingsManager *)

Local Set Warnings "-register-all".

(** A JSON value as [json] gives it to Python. *)
Inductive JV :=
| JNull
| JBool (b : bool)
| JInt (z : Z)
| JFloat (q : Q)
| JStr (s : string)
| JArr (l : list JV)
| JObj (d : list (string * JV)).

(** A Python dict with string keys, in insertion order. *)
Definition Dict := list (string * JV).

Fixpoint dget (d : Dict) (k : string) : option JV :=
  match d with [] => None | (k', v) :: d' => if String.eqb k' k then Some v else dget d' k end.

Definition dmem (d : Dict) (k : string) : bool :=
  match dget d k with Some _ => true | None => false end.

(** [d[k] = v]: in place when [k] is there, at the end otherwise. *)
Fixpoint dset (d : Dict) (k : string) (v : JV) : Dict :=
  match d with
  | [] => [(k, v)]
  | (k', v') :: d' => if String.eqb k' k then (k', v) :: d' else (k', v') :: dset d' k v
  end.

(** [del d[k]] on a present key. *)
Fixpoint ddel (d : Dict) (k : string) : Dict :=
  match d with
  | [] => []
  | (k', v') :: d' => if String.eqb k' k then d' else (k', v') :: ddel d' k
  end.

(** Python truth value. *)
Definition truthy (v : JV) : bool :=
  match v with
  | JNull => false
  | JBool b => b
  | JInt z => negb (Z.eqb z 0)
  | JFloat q => negb (Qeq_bool q 0)
  | JStr s => negb (String.eqb s "")
  | JArr l => match l with [] => false | _ => true end
  | JObj d => match d with [] => false | _ => true end
  end.

Definition version : Z := 10.

(** [v == version] *)
Definition eq_version (v : JV) : bool :=
  match v with
  | JInt z => Z.eqb z version
  | JFloat q => Qeq_bool q (inject_Z version)
  | JBool b => Z.eqb (if b then 1 else 0) version
  | _ => false
  end.

Definition defaultSettings : Dict :=
  [("version", JInt version); ("ncProgram", JStr ""); ("output", JStr "");
   ("sequence", JBool true); ("twoDigits", JBool false); ("delFiles", JBool false);
   ("delFolder", JBool false); ("splitSetup", JBool false); ("fastZ", JBool false);
   ("toolChange", JStr "M9 G30"); ("numericName", JBool false); ("endCodes", JStr "M5 M9 M30");
   ("onlySelected", JBool false); ("groupPersonal", JBool true); ("groupPost", JBool false);
   ("groupAdvanced", JBool false); ("groupRename", JBool false);
   ("initialDelay", JFloat (1 # 5)); ("postRetries", JInt 3)].

(** [UpdateSettings(src, dst)] on a dict [dst]: the updated [dst], or
    [None] for the [KeyError] of [src["version"]]. *)
Definition UpdateSettings (src dst : Dict) : option Dict :=
  let dst1 :=
    match dget dst "homeEndsOp" with
    | Some h =>
        let dst' := if truthy h && negb (dmem dst "endCodes")
                    then dset dst "endCodes" (JStr "M5 M9 M30 G28 G30") else dst in
        ddel dst' "homeEndsOp"
    | None => dst
    end in
  let dst2 := fold_left (fun d kv => if dmem d (fst kv) then d else dset d (fst kv) (snd kv)) src dst1 in
  match dget src "version" with
  | Some v => Some (dset dst2 "version" v)
  | None => None
  end.

(** The manager's state: [self.default] and [self.fMustSave]. *)
Record SM := mkSM { sm_default : option Dict; sm_mustSave : bool }.

Definition sm_init : SM := mkSM None false.

Definition dict_truthy (d : Dict) : bool := match d with [] => false | _ => true end.

(** The [try] block reading the settings file ([file]: what [json.load]
    returned, [None] when opening or parsing raised): the new
    [self.default], and whether the [except] branch ran. *)
Definition load_default (file : option JV) : Dict * bool :=
  match file with
  | Some (JObj d) =>
      let d1 := dset (dset d "delFiles" (JBool false)) "delFolder" (JBool false) in
      match dget d1 "version" with
      | None => (defaultSettings, true)
      | Some v =>
          if eq_version v then (d1, false)
          else match UpdateSettings defaultSettings d1 with
               | Some d2 => (d2, false)
               | None => (defaultSettings, true)
               end
      end
  | _ => (defaultSettings, true)
  end.

(** [GetSettings(docAttr)]: [attr] is the document's attribute ([None]: no
    attribute; [Some None]: [json.loads] raised; [Some (Some v)]: the value
    read).  The result is [None] when the function raises: a non-empty value
    that is not a dict makes [UpdateSettings] raise a [TypeError]. *)
Definition GetSettings (sm : SM) (attr : option (option JV)) (file : option JV) : SM * option Dict :=
  let docSettings := match attr with Some (Some v) => Some v | _ => None end in
  let current :=
    match docSettings with
    | Some (JObj d) =>
        match dget d "version" with Some v => if eq_version v then Some d else None | None => None end
    | _ => None
    end in
  match current with
  | Some d => (sm, Some d)
  | None =>
      let sm1 :=
        match sm_default sm with
        | Some d => if dict_truthy d then sm else
                      let '(d', exc) := load_default file in mkSM (Some d') (sm_mustSave sm || exc)
        | None => let '(d', exc) := load_default file in mkSM (Some d') (sm_mustSave sm || exc)
        end in
      let def := match sm_default sm1 with Some d => d | None => [] end in
      match docSettings with
      | None => (sm1, Some def)
      | Some v =>
          if negb (truthy v) then (sm1, Some def)
          else match v with
               | JObj d => (sm1, UpdateSettings def d)
               | _ => (sm1, None)
               end
      end
  end.

(** [SaveDefault(docSettings)]: the new state and the dict written to the
    settings file. *)
Definition SaveDefault (sm : SM) (docSettings : Dict) : SM * Dict :=
  (mkSM (Some (dset (dset docSettings "delFiles" (JBool false)) "delFolder" (JBool false))) false,
   docSettings).

(** [SaveSettings(docAttr, docSettings)]: the new state, what is written to
    the settings file (if anything) and to the document's attribute. *)
Definition SaveSettings (sm : SM) (docSettings : Dict) : SM * option Dict * Dict :=
  if sm_mustSave sm then
    let '(sm', w) := SaveDefault sm docSettings in (sm', Some w, docSettings)
  else (sm, None, docSettings).

(** The default never lets [delFiles] or [delFolder] be true. *)
Definition default_safe (sm : SM) : Prop :=
  match sm_default sm with
  | Some d => dget d "delFiles" = Some (JBool false) /\ dget d "delFolder" = Some (JBool false)
  | None => True
  end.

(** The states of a [SettingsManager]: built by [__init__], then changed by
    [GetSettings], [SaveDefault] and [SaveSettings] calls. *)
Inductive reachable : SM -> Prop :=
| reach_init : reachable sm_init
| reach_get sm attr file : reachable sm -> reachable (fst (GetSettings sm attr file))
| reach_save_default sm ds : reachable sm -> reachable (fst (SaveDefault sm ds))
| reach_save sm ds : reachable sm -> reachable (fst (fst (SaveSettings sm ds))).

(** Sample data for the setup loop, [PerformPostProcess] and the settings. *)
Definition setup_a : CamSetup := mkSetup 1 "a" false 1.
Definition cfg_del : LoopCfg := mkLoopCfg "/out" true false false false.
Definition post_ok (fname : string) (setup : CamSetup) (folder : string) : option string := None.
Definition never_cancelled (k : nat) : bool := false.
Definition st_del : PPSettings := mkPPSettings "~/cnc" true true true false false false.
Definition inp_of (outputParam : string) (mkdirOk : bool) (walk : list (list string)) : PPInput :=
  mkPPInput [setup_a] [] 1 outputParam ".nc" mkdirOk walk true never_cancelled post_ok.
Definition file_dict : Dict :=
  [("version", JInt 10); ("delFiles", JBool true); ("delFolder", JBool true); ("output", JStr "~/cnc")].
Definition old_doc : Dict :=
  [("version", JInt 9); ("homeEndsOp", JBool true); ("output", JStr "~/cnc"); ("delFiles", JBool true)].

(** ** Lemmas on the matcher *)

Lemma mt_inv : forall r s c k x, mt r s c k = Some x ->
  exists s' c0, k s' (c0 ++ c) = Some x /\ length s' + minlen r <= length s /\
    Forall (fun p => (exists m, In (fst p, m) (gmins r) /\ m <= length (snd p))
                     /\ length (snd p) + length s' <= length s) c0.
Proof.
  induction r as [p|r1 IH1 r2 IH2|r1 IH|r1 IH|g r1 IH]; intros s c k x H; simpl in H.
  - destruct s as [|a s]; [discriminate|].
    destruct (p a); [|discriminate].
    exists s, []; simpl; repeat split; auto. lia.
  - destruct (IH1 _ _ _ _ H) as (s1 & c1 & H1 & L1 & F1).
    destruct (IH2 _ _ _ _ H1) as (s2 & c2 & H2 & L2 & F2).
    exists s2, (c2 ++ c1); rewrite <- app_assoc; repeat split; [assumption|simpl; lia|].
    apply Forall_app; split.
    + eapply Forall_impl; [|exact F2]; simpl; intros q [(m & Hm & Hm') Hq2]; split; [|lia].
      exists m; split; [apply in_or_app; right; assumption|assumption].
    + eapply Forall_impl; [|exact F1]; simpl; intros q [(m & Hm & Hm') Hq2]; split; [|lia].
      exists m; split; [apply in_or_app; left; assumption|assumption].
  - destruct (mt r1 s c k) eqn:E.
    + inversion H; subst.
      destruct (IH _ _ _ _ E) as (s1 & c1 & H1 & L1 & F1).
      exists s1, c1; simpl; repeat split; [assumption|lia|assumption].
    + exists s, []; simpl; repeat split; auto. lia.
  - revert H. generalize (length s) at 1 as n. intro n. revert s c.
    induction n as [|n IHn]; intros s c H.
    + exists s, []; simpl; repeat split; auto. lia.
    + destruct (mt r1 s c _) eqn:E.
      * inversion H; subst.
        destruct (IH _ _ _ _ E) as (s1 & c1 & H1 & L1 & F1).
        destruct (length s1 <? length s) eqn:Lt; [|discriminate].
        apply Nat.ltb_lt in Lt.
        destruct (IHn _ _ H1) as (s2 & c2 & H2 & L2 & F2).
        exists s2, (c2 ++ c1); rewrite <- app_assoc; repeat split; [assumption|simpl in *; lia|].
        apply Forall_app; split.
        -- eapply Forall_impl; [|exact F2]; simpl; intros q [Hm Hq2]; split; [assumption|lia].
        -- eapply Forall_impl; [|exact F1]; simpl; intros q [Hm Hq2]; split; [assumption|lia].
      * exists s, []; simpl; repeat split; auto. lia.
  - destruct (IH _ _ _ _ H) as (s1 & c1 & H1 & L1 & F1).
    exists s1, ((g, firstn (length s - length s1) s) :: c1); simpl.
    split; [exact H1|]. split; [lia|].
    constructor.
    + simpl. rewrite length_firstn. split; [|lia].
      exists (minlen r1); split; [left; reflexivity|lia].
    + eapply Forall_impl; [|exact F1]; simpl; intros q [(m & Hm & Hm') Hq2]; split; [|lia].
      exists m; split; [right; assumption|assumption].
Qed.

Lemma cap_in : forall g c z, cap g c = Some z ->
  exists v, In (g, v) c /\ z = string_of_list_ascii v.
Proof.
  intros g c z; induction c as [|[g' v] c IH]; simpl; intro H; [discriminate|].
  destruct (String.eqb g g') eqn:E.
  - apply String.eqb_eq in E; subst. inversion H; subst. exists v; split; auto.
  - destruct (IH H) as (v' & H1 & H2). exists v'; split; auto.
Qed.

Lemma length_string_of_list_ascii : forall l, String.length (string_of_list_ascii l) = length l.
Proof. induction l; simpl; auto. Qed.

Lemma length_list_ascii_of_string : forall s, length (list_ascii_of_string s) = String.length s.
Proof. induction s; simpl; auto. Qed.

(** A capture of a successful [rmatch] lies in the consumed part of the input. *)
Lemma rmatch_cap_len : forall r line rest c g z,
  rmatch r line = Some (rest, c) -> cap g c = Some z ->
  (exists m, In (g, m) (gmins r) /\ m <= String.length z) /\
  String.length z + length rest <= String.length line.
Proof.
  unfold rmatch; intros r line rest c g z H Hc.
  destruct (mt_inv _ _ _ _ _ H) as (s' & c0 & Hk & Hl & F).
  inversion Hk; subst. rewrite app_nil_r in *.
  destruct (cap_in _ _ _ Hc) as (v & Hin & ->).
  rewrite Forall_forall in F. destruct (F _ Hin) as [(m & Hm & Hm') Hv]; simpl in *.
  rewrite length_string_of_list_ascii, <- length_list_ascii_of_string.
  split; [exists m; split; assumption|assumption].
Qed.

(** ** The rapid-move analysis of one line *)

Lemma Qle_bool_refl : forall q, Qle_bool q q = true.
Proof. intro q. apply Qle_bool_iff. apply Qle_refl. Qed.

(** A nonempty group of [regParseLine] makes [match.end()] nonzero. *)
Lemma parse_end_nz : forall line rest c g z,
  rmatch regParseLine line = Some (rest, c) -> cap g c = Some z -> z <> "" ->
  Nat.eqb (String.length line - length rest) 0 = false.
Proof.
  intros line rest c g z H Hc Hz.
  destruct (rmatch_cap_len _ _ _ _ _ _ H Hc) as [_ L].
  destruct z; [congruence|]. simpl in L. apply Nat.eqb_neq. lia.
Qed.

Lemma parse_z_nonempty : forall line rest c z,
  rmatch regParseLine line = Some (rest, c) -> cap "Z" c = Some z -> z <> "".
Proof.
  intros line rest c z H Hc.
  destruct (rmatch_cap_len _ _ _ _ _ _ H Hc) as [(m & Hm & Hm') _].
  simpl in Hm. intros ->. simpl in Hm'.
  repeat (destruct Hm as [Hm|Hm]; [inversion Hm; subst; lia|]). destruct Hm.
Qed.

(** The [try] block never reads [Zlast] before overwriting it. *)
Lemma fz_try_forget : forall a b line c, fz_forget a = fz_forget b ->
  fzres_forget (fz_try a line c) = fzres_forget (fz_try b line c).
Proof.
  intros [f1 g1 zc1 zl1 zf1 n1 fc1 nd1 l1] [f2 g2 zc2 zl2 zf2 n2 fc2 nd2 l2] line c H.
  unfold fz_forget in H; simpl in H. injection H; intros; subst. clear H.
  unfold fz_try; simpl.
  destruct (scan_gcodes _ _ _) as [[[nm hm] g0] n0].
  destruct hm; [reflexivity|].
  destruct (cap "Z" c) eqn:Ez; simpl;
  repeat (match goal with |- context [match ?x with _ => _ end] => destruct x end; simpl);
  reflexivity.
Qed.

(** When the [try] block raises, [line] has not been reassigned yet. *)
Lemma fz_try_exc_line : forall st line c st1 l1,
  fz_try st line c = FZExc st1 l1 -> l1 = line.
Proof.
  intros st line c st1 l1 H. unfold fz_try in H.
  destruct (scan_gcodes _ _ _) as [[[nm hm] g0] n0].
  destruct hm; [discriminate|].
  destruct (Nat.eqb (String.length (rstrip_nl_sp (match cap "XY" c with Some s => s | None => "" end))) 0);
  destruct (cap "Z" c); destruct (cap "F" c); destruct (Zfeed st); destruct (fZfeedNotSet st);
  destruct g0 as [[|[|n]]|]; destruct (fLockSpeed st); destruct (Zcur st); destruct n0; destruct nm;
  simpl in H; rewrite ?Qle_bool_refl in H; simpl in H;
  repeat (match type of H with context [match ?x with _ => _ end] => destruct x eqn:? end; simpl in H);
  try discriminate; try (inversion H; subst; reflexivity).
Qed.

Lemma fast_line_forget : forall a b line, fz_forget a = fz_forget b ->
  option_map (fun p => (fz_forget (fst p), snd p)) (fast_line a line) =
  option_map (fun p => (fz_forget (fst p), snd p)) (fast_line b line).
Proof.
  intros a b line H. unfold fast_line.
  assert (Hf : fFastZ a = fFastZ b) by (apply (f_equal fFastZ) in H; exact H).
  rewrite Hf. destruct (fFastZ b); [|simpl; rewrite H; reflexivity].
  destruct (rmatch regParseLine line) as [[rest c]|]; [|reflexivity].
  destruct (Nat.eqb _ 0); [simpl; rewrite H; reflexivity|].
  pose proof (fz_try_forget a b line c H) as E.
  destruct (fz_try a line c), (fz_try b line c); simpl in E; try discriminate;
    unfold fz_forget in *; simpl in *; congruence.
Qed.

(** C9.  When rapid-move rewriting is on, for a line that [regParseLine]
    parses as a linear (effective [G1]) move with a Z word and no X/Y words,
    and that has no home G-code: (1) if there is no feed-height estimate yet,
    the move's Z becomes the feed height and the line is rewritten to a rapid
    move; (2) if there is one (and a previous Z), the line is rewritten to a
    rapid move when it is upward, at or above the feed height, or its feed
    rate is zero, PROVIDED no M49 speed lock is in effect. *)
Theorem rapid_z_only_move :
  (forall st line rest c z nm need,
    fFastZ st = true ->
    rmatch regParseLine line = Some (rest, c) ->
    cap "Z" c = Some z ->
    rstrip_nl_sp (match cap "XY" c with Some s => s | None => "" end) = "" ->
    scan_gcodes (findall regGcodes "1" line) (Gcode st) (fNeedFeed st) = (nm, false, Some 1, need) ->
    Zfeed st = None ->
    exists st', fast_line st line = Some (st', constRapidZgcode (Some (py_float z)) (drop_last line))
                /\ Zfeed st' = Some (py_float z)) /\
  (forall st line rest c z nm need zc zf,
    fFastZ st = true ->
    rmatch regParseLine line = Some (rest, c) ->
    cap "Z" c = Some z ->
    rstrip_nl_sp (match cap "XY" c with Some s => s | None => "" end) = "" ->
    scan_gcodes (findall regGcodes "1" line) (Gcode st) (fNeedFeed st) = (nm, false, Some 1, need) ->
    Zfeed st = Some zf -> Zcur st = Some zc -> fLockSpeed st = false ->
    (zc <= py_float z \/ zf <= py_float z \/
     num_q (match cap "F" c with Some f => NFloat (py_float f) | None => feedCur st end) == 0)%Q ->
    exists st', fast_line st line = Some (st', constRapidZgcode (Some (py_float z)) (drop_last line))).
Proof.
  split.
  - intros st line rest c z nm need Hf Hm Hz Hxy Hs Hzf.
    unfold fast_line. rewrite Hf, Hm.
    rewrite (parse_end_nz _ _ _ _ _ Hm Hz (parse_z_nonempty _ _ _ _ Hm Hz)).
    unfold fz_try. rewrite Hs, Hz, Hxy, Hzf. simpl.
    destruct nm; simpl; rewrite ?Qle_bool_refl; simpl; eexists; split; reflexivity.
  - intros st line rest c z nm need zc zf Hf Hm Hz Hxy Hs Hzf Hzc Hl Hc.
    unfold fast_line. rewrite Hf, Hm.
    rewrite (parse_end_nz _ _ _ _ _ Hm Hz (parse_z_nonempty _ _ _ _ Hm Hz)).
    unfold fz_try. rewrite Hs, Hz, Hxy, Hzf, Hzc, Hl.
    destruct (fZfeedNotSet st); simpl.
    + destruct nm; simpl; rewrite ?Qle_bool_refl; simpl; eexists; reflexivity.
    + destruct Hc as [Hc|[Hc|Hc]].
      * apply Qle_bool_iff in Hc; rewrite Hc; simpl; eexists; reflexivity.
      * apply Qle_bool_iff in Hc; rewrite Hc; destruct (Qle_bool zc (py_float z)); simpl;
          eexists; reflexivity.
      * apply Qeq_bool_iff in Hc; rewrite Hc;
          destruct (Qle_bool zc (py_float z)), (Qle_bool zf (py_float z)); simpl;
          eexists; reflexivity.
Qed.

(** ** The rapid-move state in reachable states *)

Lemma scan_need : forall gs g need nm h g' need',
  scan_gcodes gs g need = (nm, h, g', need') -> need' = false \/ need' = need.
Proof.
  induction gs as [|x gs IH]; intros g need nm h g' need' H; cbn [scan_gcodes] in H.
  - inversion H; subst. right. reflexivity.
  - destruct (memb (py_int_float x) constHomeGcodeSet); [inversion H; subst; right; reflexivity|].
    destruct (memb (py_int_float x) constMotionGcodeSet).
    + inversion H; subst. destruct (py_int_float x =? 0); [left|right]; reflexivity.
    + exact (IH _ _ _ _ _ _ H).
Qed.

Lemma fz_try_inv : forall st line c st' l',
  fz_inv st = true ->
  fz_try st line c = FZOk st' l' \/ fz_try st line c = FZExc st' l' -> fz_inv st' = true.
Proof.
  intros st line c st' l' Hi H. unfold fz_inv in *. unfold fz_try in H.
  destruct (scan_gcodes (findall regGcodes "1" line) (Gcode st) (fNeedFeed st))
    as [[[nm h] g0] need0] eqn:Es.
  apply scan_need in Es.
  assert (Hn : Zfeed st = None -> need0 = false).
  { intros Hz. rewrite Hz in Hi. destruct Es as [->| ->]; [reflexivity|]. destruct (fNeedFeed st); easy. }
  clear Es Hi.
  destruct h.
  { destruct H as [H|H]; inversion H; subst; simpl. destruct (Zfeed st); [reflexivity|rewrite Hn; reflexivity]. }
  destruct (cap "Z" c) as [z|] eqn:Hz; destruct (Zfeed st) as [zf|] eqn:Ez;
  destruct (Nat.eqb (String.length (rstrip_nl_sp (match cap "XY" c with Some s => s | None => "" end))) 0);
  destruct (fZfeedNotSet st); destruct g0 as [[|[|g]]|]; destruct (fLockSpeed st); destruct nm;
  destruct H as [H|H]; simpl in H;
  repeat (match type of H with context [match ?x with _ => _ end] => destruct x eqn:? end; simpl in H);
  inversion H; subst; simpl; try reflexivity.
  all: rewrite (Hn eq_refl) in *; simpl in *; rewrite ?andb_false_r in *; simpl in *.
  all: repeat match goal with
              | Hq : Some _ = Some _ |- _ => injection Hq; clear Hq; intros; subst
              | Hq : (_, _) = (_, _) |- _ => injection Hq; clear Hq; intros; subst
              end.
  all: rewrite ?andb_false_r in *; simpl in *.
  all: repeat match goal with
              | Hq : (_, _) = (_, _) |- _ => injection Hq; clear Hq; intros; subst
              end.
  all: try reflexivity.
  all: try discriminate.
Qed.

Lemma fast_line_inv : forall st line st' l',
  fz_inv st = true -> fast_line st line = Some (st', l') -> fz_inv st' = true.
Proof.
  intros st line st' l' Hi H. unfold fast_line in H.
  destruct (fFastZ st); [|inversion H; subst; exact Hi].
  destruct (rmatch regParseLine line) as [[rest c]|]; [|discriminate].
  destruct (Nat.eqb _ 0); [inversion H; subst; exact Hi|].
  destruct (fz_try st line c) as [s l|s l] eqn:E; inversion H; subst.
  - exact (fz_try_inv st line c st' l' Hi (or_introl E)).
  - pose proof (fz_try_inv st line c s l' Hi (or_intror E)) as Hs.
    unfold fz_inv in *; simpl. exact Hs.
Qed.

Lemma lock_update_inv : forall mc st, fz_inv (lock_update mc st) = fz_inv st.
Proof.
  intros mc st. unfold lock_update.
  destruct mc as [n|]; [|reflexivity].
  do 50 (try (destruct n as [|n]; [reflexivity|])).
  all: reflexivity.
Qed.

Lemma fz_init_inv : forall b old, fz_inv (fz_init b old) = true.
Proof. reflexivity. Qed.

Lemma fz_reach_inv : forall st, fz_reach st -> fz_inv st = true.
Proof.
  induction 1.
  - apply fz_init_inv.
  - rewrite lock_update_inv; assumption.
  - eapply fast_line_inv; eassumption.
Qed.

(** C10.  When rapid-move rewriting is on and no M49 speed lock is in
    effect, a linear (effective [G1]) move with X/Y words and no Z word met
    before any feed-height estimate makes the [try] block raise (the test
    [Zcur >= Zfeed] compares with [None]); the handler copies the line
    unchanged and clears [fFastZ]; nothing else is reported.  (2) Under an
    M49 lock, in a state satisfying [fz_inv], the same line raises nothing:
    the [try] block completes, the line is copied unchanged and [fFastZ]
    stays set.  (3) Every reachable rapid-move state ([fz_reach]) satisfies
    [fz_inv], so (2) holds whenever the body loop meets such a line. *)
Theorem xy_move_before_feed_height :
  (forall st line rest c xy nm need,
    fFastZ st = true -> fLockSpeed st = false -> Zfeed st = None ->
    rmatch regParseLine line = Some (rest, c) ->
    cap "Z" c = None -> cap "XY" c = Some xy -> rstrip_nl_sp xy <> "" ->
    scan_gcodes (findall regGcodes "1" line) (Gcode st) (fNeedFeed st) = (nm, false, Some 1, need) ->
    (exists st1, fz_try st line c = FZExc st1 line) /\
    (exists st', fast_line st line = Some (st', line) /\ fFastZ st' = false)) /\
  (forall st line rest c xy nm need,
    fFastZ st = true -> fLockSpeed st = true -> Zfeed st = None -> fz_inv st = true ->
    rmatch regParseLine line = Some (rest, c) ->
    cap "Z" c = None -> cap "XY" c = Some xy -> rstrip_nl_sp xy <> "" ->
    scan_gcodes (findall regGcodes "1" line) (Gcode st) (fNeedFeed st) = (nm, false, Some 1, need) ->
    exists st', fz_try st line c = FZOk st' line /\ fast_line st line = Some (st', line) /\
                fFastZ st' = true) /\
  (forall st, fz_reach st -> fz_inv st = true).
Proof.
  split; [|split; [|exact fz_reach_inv]].
  - intros st line rest c xy nm need Hf Hl Hzf Hm Hz Hxy Hne Hs.
    assert (Hxy0 : xy <> "") by (intros ->; apply Hne; reflexivity).
    assert (Ht : exists st1, fz_try st line c = FZExc st1 line).
    { unfold fz_try. rewrite Hs, Hz, Hxy, Hzf, Hl.
      destruct (Nat.eqb (String.length (rstrip_nl_sp xy)) 0) eqn:E.
      - apply Nat.eqb_eq in E. destruct (rstrip_nl_sp xy); [congruence|discriminate].
      - simpl. destruct (Zcur st); simpl; eexists; reflexivity. }
    split; [exact Ht|].
    destruct Ht as [st1 Ht].
    unfold fast_line. rewrite Hf, Hm, (parse_end_nz _ _ _ _ _ Hm Hxy Hxy0), Ht.
    eexists; split; reflexivity.
  - intros st line rest c xy nm need Hf Hl Hzf Hi Hm Hz Hxy Hne Hs.
    assert (Hxy0 : xy <> "") by (intros ->; apply Hne; reflexivity).
    assert (Hn : need = false).
    { apply scan_need in Hs. unfold fz_inv in Hi. rewrite Hzf in Hi.
      destruct Hs as [->| ->]; [reflexivity|]. destruct (fNeedFeed st); easy. }
    subst need.
    assert (Ht : exists st1, fz_try st line c = FZOk st1 line /\ fFastZ st1 = true).
    { unfold fz_try. rewrite Hs, Hz, Hxy, Hzf, Hl.
      destruct (Nat.eqb (String.length (rstrip_nl_sp xy)) 0) eqn:E.
      - apply Nat.eqb_eq in E. destruct (rstrip_nl_sp xy); [congruence|discriminate].
      - simpl. eexists; split; [reflexivity|exact Hf]. }
    destruct Ht as [st1 [Ht Hf1]]. exists st1. split; [exact Ht|split; [|exact Hf1]].
    unfold fast_line. rewrite Hf, Hm, (parse_end_nz _ _ _ _ _ Hm Hxy Hxy0), Ht. reflexivity.
Qed.

Lemma lock_update_forget : forall mc a b, fz_forget a = fz_forget b ->
  fz_forget (lock_update mc a) = fz_forget (lock_update mc b).
Proof.
  intros mc a b H. unfold lock_update.
  assert (L : forall x, fz_forget (set_lock a x) = fz_forget (set_lock b x))
    by (intro x; unfold fz_forget, set_lock in *; simpl in *; congruence).
  destruct mc as [n|]; [|exact H].
  do 50 (try (destruct n as [|n]; [try exact H|])).
  all: first [exact H | apply L].
Qed.

Lemma body_loop_forget : forall P f m fNum line fz1 fz2 lf io,
  fz_forget fz1 = fz_forget fz2 ->
  out_map bl_forget (body_loop P m fNum line f fz1 lf io) =
  out_map bl_forget (body_loop P m fNum line f fz2 lf io).
Proof.
  intros P f; induction f as [|l f IH]; intros m fNum line fz1 fz2 lf io H; simpl;
  (destruct (match _ with Some e => memb e (p_endM P) | None => false end); [simpl; rewrite H; reflexivity|]);
  pose proof (lock_update_forget (match bM m with Some e => Some (py_int e) | None => None end) _ _ H) as H1;
  set (a1 := lock_update _ fz1) in *; set (a2 := lock_update _ fz2) in *; clearbody a1 a2;
  (destruct (match _ with Some e => memb e (p_endG P) | None => false end); [simpl; rewrite H1; reflexivity|]);
  pose proof (fast_line_forget a1 a2 line H1) as H2;
  destruct (fast_line a1 line) as [[s1 l1]|], (fast_line a2 line) as [[s2 l2]|];
    simpl in H2; try discriminate; try reflexivity;
  (assert (E : fz_forget s1 = fz_forget s2 /\ l1 = l2) by (split; congruence));
  destruct E as [E <-]; unfold bind;
  destruct fNum; simpl.
  all: try (rewrite E; reflexivity).
  all: destruct (Nat.eqb (String.length l) 0); [simpl; rewrite E; reflexivity|].
  all: destruct (regBody_match l); [apply IH; exact E|reflexivity].
Qed.

Lemma fz_init_forget : forall b a1 a2, fz_forget (fz_init b a1) = fz_forget (fz_init b a2).
Proof. reflexivity. Qed.

(** A group's outcome does not depend on the rapid-move state it is handed. *)
Lemma process_group_forget : forall P g L fz io,
  out_map loc_forget (process_group P g L io) =
  out_map loc_forget (process_group P g (set_lfz L fz) io).
Proof.
  intros P g [fF fB tl lf tg fz0] fz io. unfold process_group, set_lfz, bind.
  cbn [fFirst fBlankOk toolLast lineFull tailGcode lfz].
  repeat match goal with |- context [match ?x with _ => _ end] =>
    lazymatch x with context [body_loop] => fail | _ => destruct x end end;
  try reflexivity.
  all: match goal with |- ?lhs = ?rhs =>
       match lhs with context [body_loop ?P ?m ?n ?l ?f (fz_init ?b ?z1) ?lf ?io] =>
       match rhs with context [body_loop _ _ _ _ _ (fz_init _ ?z2) _ _] =>
         pose proof (body_loop_forget P f m n l (fz_init b z1) (fz_init b z2) lf io (fz_init_forget _ _ _)) as HB;
         destruct (body_loop P m n l f (fz_init b z1) lf io) as [[[s1 lf1] f1] jo1| |],
                  (body_loop P m n l f (fz_init b z2) lf io) as [[[s2 lf2] f2] jo2| |];
         simpl in HB; try discriminate; try (inversion HB; reflexivity)
       end end end.
  all: assert (E : fz_forget s1 = fz_forget s2 /\ lf1 = lf2 /\ f1 = f2 /\ jo1 = jo2)
         by (repeat split; congruence).
  all: destruct E as (E & <- & <- & <-).
  all: destruct lf1; simpl; unfold loc_forget; simpl; try rewrite E; reflexivity.
Qed.
Lemma process_group_loc_forget : forall P g L1 L2 io, loc_forget L1 = loc_forget L2 ->
  out_map loc_forget (process_group P g L1 io) = out_map loc_forget (process_group P g L2 io).
Proof.
  intros P g [a1 b1 c1 d1 e1 f1] [a2 b2 c2 d2 e2 f2] io H.
  unfold loc_forget in H; simpl in H. injection H; intros; subst.
  apply (process_group_forget P g (mkLoc a2 b2 c2 d2 e2 f1) f2 io).
Qed.

(** C3.  An exception inside the rapid-move [try] block is caught there: the
    line is copied unchanged and [fFastZ] is cleared; with [fFastZ] cleared
    every later line of the group is copied unchanged and M49/M48 do not set
    it again; but the next group starts its body from a fresh rapid-move
    state, so the pass is disabled only for the rest of the current group. *)
Theorem fast_z_error_scope :
  (forall st line rest c st1 l1,
    fFastZ st = true -> rmatch regParseLine line = Some (rest, c) ->
    Nat.eqb (String.length line - length rest) 0 = false ->
    fz_try st line c = FZExc st1 l1 ->
    exists st', fast_line st line = Some (st', line) /\ fFastZ st' = false) /\
  (forall st line mc, fFastZ st = false ->
    fast_line st line = Some (st, line) /\ fFastZ (lock_update mc st) = false) /\
  (forall P g L fz io,
    out_map loc_forget (process_group P g L io) =
    out_map loc_forget (process_group P g (set_lfz L fz) io)).
Proof.
  split; [|split].
  - intros st line rest c st1 l1 Hf Hm He Ht.
    pose proof (fz_try_exc_line _ _ _ _ _ Ht); subst l1.
    unfold fast_line. rewrite Hf, Hm, He, Ht. eexists; split; reflexivity.
  - intros st line mc Hf. unfold fast_line. rewrite Hf. split; [reflexivity|].
    unfold lock_update. destruct mc as [n|]; [|exact Hf].
    do 50 (try (destruct n as [|n]; [try exact Hf|])).
    all: exact Hf.
  - exact process_group_forget.
Qed.

Lemma run_groups_forget : forall P gs L1 L2 io, loc_forget L1 = loc_forget L2 ->
  out_map loc_forget (run_groups P gs L1 io) = out_map loc_forget (run_groups P gs L2 io).
Proof.
  intros P gs; induction gs as [|g gs IH]; intros L1 L2 io H.
  - simpl. rewrite H. reflexivity.
  - simpl. unfold bind.
    pose proof (process_group_loc_forget P g L1 L2 io H) as H1.
    destruct (process_group P g L1 io) as [M1 io1| |], (process_group P g L2 io) as [M2 io2| |];
      simpl in H1; try discriminate; try (inversion H1; reflexivity).
    assert (E : loc_forget M1 = loc_forget M2 /\ io1 = io2) by (split; congruence).
    destruct E as [E <-]. apply IH, E.
Qed.

Lemma out_map_view : forall (o1 o2 : Out Loc),
  out_map loc_forget o1 = out_map loc_forget o2 -> out_map loc_view o1 = out_map loc_view o2.
Proof.
  intros [L1 io1|r1 io1|io1] [L2 io2|r2 io2|io2] H; simpl in H; try discriminate;
    [|inversion H; reflexivity|inversion H; reflexivity].
  destruct L1, L2; unfold loc_forget in H; simpl in H. injection H; intros; subst; reflexivity.
Qed.

(** C4.  The rapid-move state is initialised again before each group's body
    ([Zlast] excepted, which is assigned before it is read); hence the
    processing of the remaining groups (the output written, the value
    returned, the locals carried on) does not depend on the rapid-move state
    left by the earlier groups: a feed-height estimate is not carried into
    the next group. *)
Theorem rapid_state_per_group : forall P gs L fz io,
  out_map loc_view (run_groups P gs L io) =
  out_map loc_view (run_groups P gs (set_lfz L fz) io).
Proof.
  intros P [|g gs] L fz io.
  - destruct L; reflexivity.
  - apply out_map_view. simpl. unfold bind.
    pose proof (process_group_forget P g L fz io) as H.
    destruct (process_group P g L io) as [L1 io1| |], (process_group P g (set_lfz L fz) io) as [L2 io2| |];
      simpl in H; try discriminate; try (inversion H; reflexivity).
    assert (E : loc_forget L1 = loc_forget L2 /\ io1 = io2) by (split; congruence).
    destruct E as [E <-]. apply run_groups_forget, E.
Qed.

(** ** Fragment retrieval *)

Lemma after_attempts_0 : forall io, after_attempts io [] 0 = io.
Proof. intros []; unfold after_attempts; simpl; rewrite app_nil_r, Nat.add_0_r; reflexivity. Qed.

Lemma after_attempts_app : forall io l1 n1 l2 n2,
  after_attempts (after_attempts io l1 n1) l2 n2 = after_attempts io (l1 ++ l2) (n1 + n2).
Proof. intros; unfold after_attempts; simpl; rewrite app_assoc, Nat.add_assoc; reflexivity. Qed.

(** Failed attempts that leave retries advance the loop. *)
Lemma fetch_skip : forall P g k a fuel r d io,
  Z.to_nat r <= fuel -> k = 0 \/ (Z.of_nat k < r)%Z ->
  (forall j, j < k -> post_at g (a + j) = PostOk /\ visible_at g (a + j) = false) ->
  fetch P g fuel a r d io =
  fetch P g (fuel - k) (a + k) (r - Z.of_nat k) (dbl d k) (after_attempts io (doublings d k) k).
Proof.
  intros P g k; induction k as [|k IH]; intros a fuel r d io Hf Hr Hj.
  - rewrite Nat.sub_0_r, Nat.add_0_r, Z.sub_0_r. simpl. rewrite after_attempts_0. reflexivity.
  - destruct (Hj 0 ltac:(lia)) as [Hp Hv]. rewrite Nat.add_0_r in Hp, Hv.
    destruct fuel as [|fuel]; [lia|].
    destruct Hr as [Hr|Hr]; [discriminate|].
    assert (Hc : (0 <? r - 1)%Z = true) by (apply Z.ltb_lt; lia).
    simpl. unfold bind, count_post, modify. rewrite Hp. simpl. unfold bind, sleep, modify. rewrite Hv, Hc.
    rewrite (IH (S a) fuel (r - 1)%Z (d * 2)%Q).
    + replace (S a + k) with (a + S k) by lia.
      replace (r - 1 - Z.of_nat k)%Z with (r - Z.of_nat (S k))%Z by lia.
      f_equal. unfold after_attempts; simpl. f_equal. rewrite <- app_assoc. reflexivity. lia.
    + lia.
    + lia.
    + intros j Hj'. replace (S a + j) with (a + S j) by lia. apply Hj. lia.
Qed.

Lemma doublings_S : forall k d, doublings d (S k) = doublings d k ++ [dbl d k].
Proof. induction k as [|k IH]; intro d; [reflexivity|]. change (d :: doublings (d * 2)%Q (S k) = d :: doublings (d*2)%Q k ++ [dbl (d*2)%Q k]). rewrite IH. reflexivity. Qed.

(** C8.  Fragment retrieval, attempt by attempt, with [R = postRetries] and
    [d = initialDelay]: each attempt calls [postProcess]; if it reports
    failure or throws, the group fails at once with no further attempt;
    otherwise the function sleeps the current delay (d, 2d, 4d, ...) and
    tries to open the file; when that fails and attempts remain the whole
    attempt, [postProcess] included, is repeated.  There are [max(1, R)]
    attempts in all, the last failed one returns the timeout message. *)
Theorem fetch_attempts : forall P g R d io k,
  k < Z.to_nat (Z.max 1 R) ->
  (forall j, j < k -> post_at g j = PostOk /\ visible_at g j = false) ->
  (post_at g k = PostFalse ->
     fetch P g (Z.to_nat R) 0 R d io =
     Ret (Some ("Fusion reported an error processing operation" +++ op_suffix ": " g))
         (after_attempts io (doublings d k) (S k))) /\
  (forall msg, post_at g k = PostThrow msg ->
     fetch P g (Z.to_nat R) 0 R d io =
     Ret (Some (retVal io +++ op_suffix " in operation " g +++ ": " +++ msg))
         (after_attempts io (doublings d k) (S k))) /\
  (post_at g k = PostOk -> visible_at g k = true ->
     exists io', fetch P g (Z.to_nat R) 0 R d io = Norm (lines_of (frag g)) io' /\
       sleeps io' = sleeps io ++ doublings d (S k) /\ posts io' = posts io + S k) /\
  (post_at g k = PostOk -> visible_at g k = false -> S k = Z.to_nat (Z.max 1 R) ->
     fetch P g (Z.to_nat R) 0 R d io =
     Ret (Some (timeout_msg P g)) (after_attempts io (doublings d (S k)) (S k))).
Proof.
  intros P g R d io k Hk Hj.
  rewrite (fetch_skip P g k 0 (Z.to_nat R) R d io ltac:(lia)).
  2: { destruct k; [left; reflexivity|right; lia]. }
  2: { intros j Hj'; apply Hj; lia. }
  simpl Nat.add. rewrite !doublings_S.
  destruct (Z.to_nat R - k) as [|fuel]; simpl; unfold bind, count_post, modify, get, py_return, sleep;
  (split; [intro Hp; rewrite Hp; f_equal; unfold after_attempts; simpl; f_equal; lia|]);
  (split; [intros msg Hp; rewrite Hp; f_equal; unfold after_attempts; simpl; f_equal; lia|]);
  (split; [intros Hp Hv; rewrite Hp; simpl; rewrite Hv; simpl; eexists; split; [reflexivity|];
           simpl; rewrite <- app_assoc; split; [reflexivity|lia]|]);
  intros Hp Hv Hs; rewrite Hp; simpl; rewrite Hv;
  (replace (0 <? R - Z.of_nat k - 1)%Z with false by (symmetry; apply Z.ltb_ge; lia));
  f_equal; unfold after_attempts; simpl; rewrite <- app_assoc; f_equal; lia.
Qed.

(** ** The tool-change text *)

Lemma iterM_numbered : forall ls io,
  exists io', iterM (fun code => write_num ;;; write_body code) ls io = Norm tt io' /\
    bodyw io' = bodyw io ++ number_lines (lineNum io) ls /\
    lineNum io' = lineNum io + constLineNumInc * length ls /\
    tc_emits io' = tc_emits io.
Proof.
  intros ls. remember (fun code => write_num ;;; write_body code) as f eqn:Hf.
  induction ls as [|l ls IH]; intro io.
  - exists io; simpl; repeat split; [rewrite app_nil_r; reflexivity|lia].
  - simpl iterM. unfold bind at 1.
    set (io1 := mkIO (disk io) (headw io) (bodyw io ++ [WNum (lineNum io); WStr l])
                     (lineNum io + constLineNumInc) (sleeps io) (posts io) (tc_emits io)
                     (hHead io) (hBody io) (hOp io) (retVal io)).
    assert (Hfl : f l io = Norm tt io1)
      by (subst f; unfold io1, bind, write_num, write_body, modify; simpl; rewrite <- app_assoc; reflexivity).
    rewrite Hfl. destruct (IH io1) as (io' & H1 & H2 & H3 & H4).
    exists io'. rewrite H1. unfold io1 in *; simpl in *. rewrite H2, H3, H4, <- app_assoc. simpl.
    repeat split; try reflexivity; unfold constLineNumInc; lia.
Qed.

Lemma str_length_app : forall a b, String.length (a +++ b) = String.length a + String.length b.
Proof. induction a as [|c a IH]; intro b; simpl; [reflexivity|rewrite IH; reflexivity]. Qed.

(** C5.  For a nonempty tool-change setting [s], the text [t] is [s] with
    each ':' made a line break, plus a final line break.  When [t] starts
    with a line number [Nxx], the rest of [t] is split into lines and EVERY
    one of them is written with a fresh number (the counter advancing by
    [constLineNumInc] each time); otherwise [t] is written as it is, with no
    number. *)
Theorem tool_change_numbering : forall s m io,
  String.length s <> 0 ->
  regBody_match (replace_colon s +++ nl) = Some m ->
  (bN m <> None ->
     exists io', (tc <- prep_tc s ;; inject tc) io = Norm tt io' /\
       bodyw io' = bodyw io ++ number_lines (lineNum io) (splitlines (bline m))) /\
  (bN m = None ->
     exists io', (tc <- prep_tc s ;; inject tc) io = Norm tt io' /\
       bodyw io' = bodyw io ++ [WStr (replace_colon s +++ nl)]).
Proof.
  intros s m io Hs Hm.
  unfold prep_tc. apply Nat.eqb_neq in Hs. rewrite Hs, Hm.
  split; intro HN.
  - destruct (bN m) as [n|]; [|congruence]. unfold bind at 1, is_some, ret.
    unfold inject.
    destruct (splitlines (bline m)) as [|l ls] eqn:E.
    + exists io; split; [reflexivity|rewrite app_nil_r; reflexivity].
    + unfold bind at 1, count_tc, modify.
      match goal with |- exists io', iterM ?f _ ?x = _ /\ _ =>
        destruct (iterM_numbered (l :: ls) x) as (io' & H1 & H2 & H3 & H4) end.
      exists io'. rewrite H1. split; [reflexivity|]. rewrite H2. reflexivity.
  - rewrite HN. unfold bind at 1, is_some, ret, inject.
    assert (Hl : Nat.eqb (String.length (replace_colon s +++ nl)) 0 = false)
      by (apply Nat.eqb_neq; rewrite str_length_app; simpl; lia).
    rewrite Hl. unfold bind, count_tc, write_body, modify. eexists; split; reflexivity.
Qed.

(** ** The tail *)











(** ** Line numbering *)

Lemma nums_app : forall a b, nums (a ++ b) = nums a ++ nums b.
Proof. induction a as [|[n|s] a IH]; intro b; simpl; try rewrite IH; reflexivity. Qed.

Lemma arith_snoc : forall k n, arith n (S k) = arith n k ++ [n + constLineNumInc * k].
Proof.
  induction k as [|k IH]; intro n; [simpl; f_equal; unfold constLineNumInc; lia|].
  change (arith n (S (S k))) with (n :: arith (n + constLineNumInc) (S k)).
  rewrite IH. simpl. f_equal. f_equal. f_equal. unfold constLineNumInc. lia.
Qed.

Lemma pres_bind : forall {A B} (I J K : IO -> Prop) (m : M A) (k : A -> M B),
  pres2 I J m -> (forall a, pres2 J K (k a)) -> (forall io, J io -> K io) ->
  pres2 I K (bind m k).
Proof.
  intros A B I J K m k Hm Hk HJK io Hi. unfold bind.
  specialize (Hm io Hi). destruct (m io); simpl in *; auto. apply Hk; exact Hm.
Qed.

Lemma pres_ret : forall {A} (I : IO -> Prop) (a : A), pres2 I I (ret a).
Proof. intros A I a io H; exact H. Qed.
Lemma pres_raise : forall {A} (I : IO -> Prop), pres2 I I (@raise A).
Proof. intros A I io H; exact H. Qed.
Lemma pres_py_return : forall {A} (I : IO -> Prop) r, pres2 I I (@py_return A r).
Proof. intros A I r io H; exact H. Qed.
Lemma pres_get : forall (I : IO -> Prop), pres2 I I get.
Proof. intros I io H; exact H. Qed.
Lemma pres_modify : forall (I : IO -> Prop) f, (forall io, I io -> I (f io)) -> pres2 I I (modify f).
Proof. intros I f Hf io H; exact (Hf io H). Qed.

Lemma pres_iterM : forall {A} (I : IO -> Prop) (f : A -> M unit) l,
  (forall x, pres2 I I (f x)) -> pres2 I I (iterM f l).
Proof.
  intros A I f l Hf; induction l as [|x l IH]; simpl; [apply pres_ret|].
  eapply pres_bind; [apply Hf|intros _; exact IH|auto].
Qed.

(** The state pieces that leave the body file, [lineNum] and the output
    file alone keep [num_inv]. *)
Lemma num_inv_same : forall io io', bodyw io' = bodyw io -> lineNum io' = lineNum io ->
  headw io' = headw io -> num_inv io -> num_inv io'.
Proof. intros io io' H1 H2 H3 [(k & Hk & Hl) Hh]. split; [exists k; split|]; congruence. Qed.

Ltac pres_prim := apply pres_modify; intros ?io ?Hio; eapply num_inv_same; [| | |exact Hio]; reflexivity.

Lemma pres_create : forall p, pres2 num_inv num_inv (create p).
Proof. intro p. pres_prim. Qed.
Lemma pres_remove : forall p, pres2 num_inv num_inv (remove p).
Proof. intro p. pres_prim. Qed.
Lemma pres_sleep : forall d, pres2 num_inv num_inv (sleep d).
Proof. intro d. pres_prim. Qed.
Lemma pres_count_post : pres2 num_inv num_inv count_post.
Proof. pres_prim. Qed.
Lemma pres_count_tc : pres2 num_inv num_inv count_tc.
Proof. pres_prim. Qed.
Lemma pres_set_hHead : forall h, pres2 num_inv num_inv (set_hHead h).
Proof. intro h. pres_prim. Qed.
Lemma pres_set_hBody : forall h, pres2 num_inv num_inv (set_hBody h).
Proof. intro h. pres_prim. Qed.
Lemma pres_set_hOp : forall h, pres2 num_inv num_inv (set_hOp h).
Proof. intro h. pres_prim. Qed.

Lemma pres_write_body : forall s, pres2 num_inv num_inv (write_body s).
Proof.
  intros s. apply pres_modify. intros io [(k & Hk & Hl) Hh]. split; [exists k|]; simpl; auto.
  rewrite nums_app, Hk. simpl. rewrite app_nil_r. split; [reflexivity|exact Hl].
Qed.

Lemma pres_write_head : forall s, pres2 num_inv num_inv (write_head s).
Proof.
  intros s. apply pres_modify. intros io [(k & Hk & Hl) Hh]. split; [exists k|]; simpl; auto.
  rewrite nums_app, Hh. reflexivity.
Qed.

Lemma pres_write_num : pres2 num_inv num_inv write_num.
Proof.
  apply pres_modify. intros io [(k & Hk & Hl) Hh].
  split; [exists (S k); split|].
  - change (nums (bodyw io ++ [WNum (lineNum io)]) = arith 10 (S k)).
    rewrite nums_app, Hk, arith_snoc, Hl. reflexivity.
  - change (lineNum io + constLineNumInc = 10 + constLineNumInc * S k).
    rewrite Hl. unfold constLineNumInc; lia.
  - exact Hh.
Qed.

Create HintDb numbering.
#[local] Hint Resolve pres_ret pres_raise pres_py_return pres_get pres_create pres_remove
  pres_sleep pres_count_post pres_count_tc pres_set_hHead pres_set_hBody pres_set_hOp
  pres_write_body pres_write_head pres_write_num : numbering.

(** Goes through binds, [if]s and [match]es of a computation made of
    pieces that keep [num_inv]. *)
Ltac pres_tac :=
  repeat match goal with
  | |- pres2 _ _ (bind _ _) => eapply pres_bind; [| intro | exact (fun _ h => h)]
  | |- pres2 _ _ (iterM _ _) => apply pres_iterM; intro
  | |- pres2 _ _ (match ?x with _ => _ end) => destruct x
  | |- pres2 _ _ _ => solve [auto with numbering]
  end.

Lemma pres_fetch : forall P g fuel attempt retries delay,
  pres2 num_inv num_inv (fetch P g fuel attempt retries delay).
Proof.
  intros P g fuel; induction fuel as [|fuel IH]; intros attempt retries delay; simpl; pres_tac.
Qed.

Lemma pres_pct_step : forall b f, pres2 num_inv num_inv (pct_step b f).
Proof. intros b f. unfold pct_step. pres_tac. Qed.

Lemma pres_hdr_loop : forall P b line f blank, pres2 num_inv num_inv (hdr_loop P b line f blank).
Proof. intros P b line f; revert line; induction f as [|l f IH]; intros line blank; simpl; pres_tac. Qed.

Lemma pres_inject : forall tc, pres2 num_inv num_inv (inject tc).
Proof. intros tc. unfold inject. pres_tac. Qed.

Lemma pres_tool_loop : forall P b tl fb line f blank,
  pres2 num_inv num_inv (tool_loop P b tl fb line f blank).
Proof.
  intros P b tl fb line f; revert fb line; induction f as [|l f IH]; intros fb line blank; simpl;
  pres_tac; apply pres_inject.
Qed.

Lemma pres_body_loop : forall P m fNum line f fz lf,
  pres2 num_inv num_inv (body_loop P m fNum line f fz lf).
Proof.
  intros P m fNum line f; revert m fNum line; induction f as [|l f IH]; intros m fNum line fz lf;
  simpl; pres_tac.
Qed.

#[local] Hint Resolve pres_fetch pres_pct_step pres_hdr_loop pres_inject pres_tool_loop
  pres_body_loop : numbering.

Lemma pres_process_group : forall P g L, pres2 num_inv num_inv (process_group P g L).
Proof. intros P g L. unfold process_group. pres_tac. Qed.

Lemma pres_run_groups : forall P gs L, pres2 num_inv num_inv (run_groups P gs L).
Proof.
  intros P gs; induction gs as [|g gs IH]; intro L; simpl; [apply pres_ret|].
  eapply pres_bind; [apply pres_process_group|intro; apply IH|auto].
Qed.

Lemma pres_add_tail : forall t, pres2 num_inv num_inv (add_tail t).
Proof. intro t. unfold add_tail. pres_tac. Qed.

Lemma pres_prep_tc : forall s, pres2 num_inv num_inv (prep_tc s).
Proof. intro s. unfold prep_tc. pres_tac. Qed.

Lemma num_inv_out : forall io, num_inv io -> out_numbered io.
Proof. intros io [_ H]. exists 0. exact H. Qed.

Lemma pres_weaken : forall {A} (I J K : IO -> Prop) (m : M A),
  pres2 I J m -> (forall io, J io -> K io) -> pres2 I K m.
Proof. intros A I J K m H HJK io Hi. apply HJK, H, Hi. Qed.

Lemma pres_copy_body : pres2 num_inv out_numbered copy_body.
Proof.
  intros io [(k & Hk & _) Hh]. exists k. simpl. rewrite nums_app, Hh, Hk. reflexivity.
Qed.

Lemma out_numbered_modify : forall f, (forall io, headw (f io) = headw io) ->
  pres2 out_numbered out_numbered (modify f).
Proof. intros f Hf io [k Hk]. exists k. simpl. rewrite Hf. exact Hk. Qed.

Lemma setup_body_numbered : forall E S whole gs,
  pres2 num_inv out_numbered (setup_body E S whole gs).
Proof.
  intros E S whole gs. unfold setup_body.
  destruct (negb (can_create E)); [apply (pres_weaken _ _ _ _ (pres_py_return _ _) num_inv_out)|].
  eapply pres_bind; [apply pres_create|intro|exact num_inv_out].
  eapply pres_bind; [apply pres_set_hHead|intro|exact num_inv_out].
  destruct (negb (splitSetup S)).
  { eapply pres_weaken; [|exact num_inv_out]. pres_tac. }
  eapply pres_bind; [apply pres_create|intro|exact num_inv_out].
  eapply pres_bind; [apply pres_set_hBody|intro|exact num_inv_out].
  eapply pres_bind; [apply pres_prep_tc|intro|exact num_inv_out].
  eapply pres_bind; [apply pres_run_groups|intro|exact num_inv_out].
  eapply pres_bind; [apply pres_add_tail|intro|exact num_inv_out].
  eapply pres_bind; [apply pres_copy_body|intro|exact (fun _ h => h)].
  repeat (eapply pres_bind; [apply out_numbered_modify; reflexivity|intro|exact (fun _ h => h)]).
  apply pres_py_return.
Qed.

Lemma pres_body_grow : forall f p, (forall io, exists x, bodyw (f io) = bodyw io ++ x) ->
  pres2 (body_pre p) (body_pre p) (modify f).
Proof.
  intros f p Hf io [l Hl]. destruct (Hf io) as [x Hx]. exists (l ++ x). simpl.
  rewrite Hx, Hl, app_assoc. reflexivity.
Qed.

Lemma pres_body_loop_pre : forall p P m fNum line f fz lf,
  pres2 (body_pre p) (body_pre p) (body_loop P m fNum line f fz lf).
Proof.
  intros p P m fNum line f; revert m fNum line; induction f as [|l f IH]; intros m fNum line fz lf;
  simpl;
  repeat match goal with
  | |- pres2 _ _ (bind _ _) => eapply pres_bind; [| intro | exact (fun _ h => h)]
  | |- pres2 _ _ (match ?x with _ => _ end) => destruct x
  | |- pres2 _ _ (ret _) => apply pres_ret
  | |- pres2 _ _ skip => apply pres_ret
  | |- pres2 _ _ raise => apply pres_raise
  | |- pres2 _ _ (body_loop _ _ _ _ _ _ _) => apply IH
  | |- pres2 _ _ _ => apply pres_body_grow; intro; eexists; reflexivity
  end.
Qed.

Ltac pre_tac IH :=
  repeat match goal with
  | |- pres2 _ _ (bind _ _) => eapply pres_bind; [| intro | exact (fun _ h => h)]
  | |- pres2 _ _ (iterM _ _) => apply pres_iterM; intro
  | |- pres2 _ _ (match ?x with _ => _ end) => destruct x
  | |- pres2 _ _ (ret _) => apply pres_ret
  | |- pres2 _ _ skip => apply pres_ret
  | |- pres2 _ _ raise => apply pres_raise
  | |- pres2 _ _ (py_return _) => apply pres_py_return
  | |- pres2 _ _ get => apply pres_get
  | |- pres2 _ _ _ => solve [apply IH]
  | |- pres2 _ _ _ => apply pres_body_grow; intro; first [eexists; reflexivity
                                                          | exists []; rewrite app_nil_r; reflexivity]
  end.



Lemma pres_inject_pre : forall p tc, pres2 (body_pre p) (body_pre p) (inject tc).
Proof. intros p tc. unfold inject. pre_tac I. Qed.

Lemma pres_tool_loop_pre : forall p P b tl fb line f blank,
  pres2 (body_pre p) (body_pre p) (tool_loop P b tl fb line f blank).
Proof.
  intros p P b tl fb line f; revert fb line; induction f as [|l f IH]; intros fb line blank; simpl;
  pre_tac IH; apply pres_inject_pre.
Qed.






(** ** Tool-change text, blank lines and the first body line *)










(** The first line the body loop writes: the tool line (or the current
    line), with a new number when it carried one. *)
Lemma body_loop_first : forall P m fNum line f fz lf io fz2 line2,
  (match (match bM m with Some e => Some (py_int e) | None => None end) with
   | Some e => memb e (p_endM P) | None => false end) = false ->
  (match (match bG m with Some e => Some (py_int e) | None => None end) with
   | Some e => memb e (p_endG P) | None => false end) = false ->
  fast_line (lock_update (match bM m with Some e => Some (py_int e) | None => None end) fz) line
    = Some (fz2, line2) ->
  exists rest, bodyw (out_io (body_loop P m fNum line f fz lf io)) =
    bodyw io ++ (if fNum then [WNum (lineNum io)] else []) ++ [WStr line2] ++ rest.
Proof.
  intros P m fNum line f fz lf io fz2 line2 HM HG HF.
  destruct f as [|l f]; simpl; rewrite HM, HG, HF; unfold bind;
    destruct fNum; simpl; rewrite <- ?app_assoc; simpl.
  all: try (exists []; reflexivity).
  all: destruct (String.length l =? 0); [exists []; reflexivity|].
  all: destruct (regBody_match l) as [m'|]; [|exists []; reflexivity].
  all: match goal with |- exists _, bodyw (out_io (body_loop ?P ?m ?n ?ln ?f ?z ?lf ?x)) = _ =>
         destruct (pres_body_loop_pre (bodyw x) P m n ln f z lf x (ex_intro _ [] (eq_sym (app_nil_r _))))
           as [rest Hr] end.
  all: exists rest; rewrite Hr; simpl; rewrite <- ?app_assoc; reflexivity.
Qed.


(** A line before the tool line that the tool loop copies (every line in
    the first group, comment lines in the others) gets a new number exactly
    when it carried one. *)
Lemma tool_loop_copy : forall P fF tl line f blank io m,
  regBody_match line = Some m -> bT m = None -> (fF || first_is (bline m) "("%char) = true ->
  exists rest, bodyw (out_io (tool_loop P fF tl false line f blank io)) =
    bodyw io ++ (if is_some (bN m) then [WNum (lineNum io)] else []) ++ [WStr (bline m)] ++ rest.
Proof.
  intros P fF tl line f blank io m Hm Ht Hc.
  destruct f as [|x f]; simpl; rewrite Hm, Ht; unfold bind at 1; rewrite Hc;
    destruct (is_some (bN m)); simpl; rewrite <- ?app_assoc; simpl.
  all: try (exists []; reflexivity).
  all: destruct (String.length x =? 0); [exists []; reflexivity|].
  all: match goal with |- exists _, bodyw (out_io (tool_loop ?P ?b ?t ?fb ?ln ?f ?bl ?y)) = _ =>
         destruct (pres_tool_loop_pre (bodyw y) P b t fb ln f bl y (ex_intro _ [] (eq_sym (app_nil_r _))))
           as [rest Hr] end.
  all: exists rest; rewrite Hr; simpl; rewrite <- ?app_assoc; reflexivity.
Qed.

Lemma iterM_app : forall {A} (f : A -> M unit) a b io,
  iterM f (a ++ b) io = bind (iterM f a) (fun _ => iterM f b) io.
Proof.
  intros A f a; induction a as [|x a IH]; intros b io; simpl; unfold bind, skip, ret; [reflexivity|].
  destruct (f x io); try reflexivity. apply IH.
Qed.

(** The loop of [add_tail] appends to the body and advances the counter
    once per number it writes. *)
Lemma iterM_tail : forall ls io io',
  iterM (fun code =>
           match regBody_match code with
           | None => raise
           | Some m => if is_some (bN m) then write_num ;;; write_body (bline m)
                       else write_body code
           end) ls io = Norm tt io' ->
  exists W, bodyw io' = bodyw io ++ W /\ lineNum io' = lineNum io + constLineNumInc * length (nums W).
Proof.
  induction ls as [|x ls IH]; intros io io' H; simpl in H.
  - unfold skip, ret in H. inversion H; subst. exists []. rewrite app_nil_r. split; [reflexivity|simpl; lia].
  - unfold bind at 1 in H. destruct (regBody_match x) as [m|]; [|discriminate].
    destruct (is_some (bN m)); simpl in H; apply IH in H as [W [H1 H2]]; simpl in H1, H2.
    + exists (WNum (lineNum io) :: WStr (bline m) :: W). rewrite H1, <- !app_assoc.
      split; [reflexivity|]. rewrite H2. simpl. unfold constLineNumInc. lia.
    + exists (WStr x :: W). rewrite H1, <- !app_assoc. split; [reflexivity|exact H2].
Qed.


(** C7.  The line numbers written to the output file are 10, 15, 20, ...:
    one counter, set to 10 once per setup and advanced by constLineNumInc at
    each use, whatever way the setup ends.  Each fragment line that is
    copied gets a new number exactly when it carried one
    ([match["N"] != None]), followed by its text without the old number,
    and a line without one is copied as it is: a line before the tool line
    copied by the tool loop, a body line (not an end marker) written by the
    body loop, and every line of the tail, whose number is the next value
    of the counter. *)
Theorem output_line_numbers :
  (forall E S whole gs r io, PostProcessSetup E S whole gs = (r, io) ->
     exists k, nums (headw io) = arith 10 k) /\
  (forall P fF tl line f blank io m,
     regBody_match line = Some m -> bT m = None -> (fF || first_is (bline m) "("%char) = true ->
     exists rest, bodyw (out_io (tool_loop P fF tl false line f blank io)) =
       bodyw io ++ (if is_some (bN m) then [WNum (lineNum io)] else []) ++ [WStr (bline m)] ++ rest) /\
  (forall P m fNum line f fz lf io fz2 line2,
     (match (match bM m with Some e => Some (py_int e) | None => None end) with
      | Some e => memb e (p_endM P) | None => false end) = false ->
     (match (match bG m with Some e => Some (py_int e) | None => None end) with
      | Some e => memb e (p_endG P) | None => false end) = false ->
     fast_line (lock_update (match bM m with Some e => Some (py_int e) | None => None end) fz) line
       = Some (fz2, line2) ->
     exists rest, bodyw (out_io (body_loop P m fNum line f fz lf io)) =
       bodyw io ++ (if fNum then [WNum (lineNum io)] else []) ++ [WStr line2] ++ rest) /\
  (forall t io io', add_tail (Some t) io = Norm tt io' ->
     forall pre code post, splitlines t = pre ++ code :: post ->
     exists m W1 W2, regBody_match code = Some m /\
       bodyw io' = bodyw io ++ W1
         ++ (if is_some (bN m)
             then [WNum (lineNum io + constLineNumInc * length (nums W1)); WStr (bline m)]
             else [WStr code]) ++ W2).
Proof.
  split; [|split; [|split]].
  - intros E S whole gs r io H. unfold PostProcessSetup in H.
    assert (H0 : num_inv io0) by (split; [exists 0; split; reflexivity|reflexivity]).
    pose proof (setup_body_numbered E S whole gs io0 H0) as H1.
    destruct (setup_body E S whole gs io0) as [a io1|r1 io1|io1]; simpl in H1;
      inversion H; subst; try exact H1.
    destruct H1 as [k Hk]. exists k.
    unfold cleanup, rm_handle.
    destruct (hOp io1), (hBody io1), (hHead io1); exact Hk.
  - exact tool_loop_copy.
  - exact body_loop_first.
  - intros t io io' H pre code post Hs. unfold add_tail in H.
    destruct (String.length t =? 0) eqn:El.
    + apply Nat.eqb_eq in El. destruct t; [|discriminate].
      destruct pre; discriminate.
    + rewrite Hs, iterM_app in H. unfold bind in H at 1.
      match type of H with context [iterM ?g pre io] =>
        destruct (iterM g pre io) as [u io1| |] eqn:E1; try discriminate end.
      destruct u. apply iterM_tail in E1 as [W1 [Hb1 Hn1]].
      simpl in H. unfold bind in H at 1.
      destruct (regBody_match code) as [m|] eqn:Em; [|discriminate].
      exists m, W1.
      destruct (is_some (bN m)); simpl in H; apply iterM_tail in H as [W2 [Hb2 _]];
        exists W2; (split; [reflexivity|]); rewrite Hb2; simpl; rewrite Hb1, ?Hn1, <- !app_assoc;
        reflexivity.
Qed.





End Engine.

Arguments Norm {A} a io.
Arguments Ret {A} r io.
Arguments Exn {A} io.

(** * Concrete runs *)

(** ** C1 *)



(** ** C2 *)

(** C2.  A setup whose fragment never becomes readable: the function returns
    the timeout message, and both the output file and the body file it
    created are still on disk, since that [return] skips the [except]
    clean-up. *)
Theorem timeout_leaves_files :
  fst (PostProcessSetup pyf E0 (St "" false) PostOk [g_never]) = Some "Unable to open /tmp/8910.nc" /\
  disk (snd (PostProcessSetup pyf E0 (St "" false) PostOk [g_never]))
    = ["/tmp/gcodeBody.nc"; "/out/Part1.nc"].
Proof. split; vm_compute; reflexivity. Qed.

(** ** C3 *)

(** C3 counterexample.  The first group raises on "G1 X1 Y2" (no feed height
    yet): its later "G1 Z3 F10" is copied unchanged, but the second group's
    "G1 Z5 F10" is rewritten to a rapid move. *)
Lemma error_scope_run :
  output_text (snd (PostProcessSetup pyf E0 (St "" true) PostOk
    [grp (frag_of "T1" ["N15 G1 X1 Y2"; "N20 G1 Z3 F10"] []); grp (frag_of "T2" ["N15 G1 Z5 F10"] [])]))
  = Ls ["%"; "(Part1)"; "N10 T1 M6"; "N15 G1 X1 Y2"; "N20 G1 Z3 F10"; "N25 T2 M6";
        "N30 G00 Z5.0 (Changed from: " +++ quoted "G1 Z5 F10" +++ ")"; "N35 M5"; "N40 M30"; "%"].
Proof. vm_compute. reflexivity. Qed.

Lemma fast_z_error_scope_witness :
  (exists st', fast_line pyf fz_on ("G1 X1 Y2" +++ nl) = Some (st', "G1 X1 Y2" +++ nl)
               /\ fFastZ st' = false) /\
  (fast_line pyf fz_off ("G1 Z5" +++ nl) = Some (fz_off, "G1 Z5" +++ nl)
   /\ fFastZ (lock_update (Some 49) fz_off) = false) /\
  out_map loc_forget (process_group pyf (P0 true) (grp (frag_of "T1" ["N15 G1 Z5"] [])) initial_loc io0)
  = out_map loc_forget (process_group pyf (P0 true) (grp (frag_of "T1" ["N15 G1 Z5"] []))
                          (set_lfz initial_loc fz_on) io0).
Proof.
  destruct (fast_z_error_scope pyf) as [Ha [Hb Hc]]. split; [|split].
  - apply (Ha fz_on ("G1 X1 Y2" +++ nl) (fst (pl ("G1 X1 Y2" +++ nl))) (snd (pl ("G1 X1 Y2" +++ nl)))
             (fst (exc_of (fz_try pyf fz_on ("G1 X1 Y2" +++ nl) (snd (pl ("G1 X1 Y2" +++ nl))))))
             (snd (exc_of (fz_try pyf fz_on ("G1 X1 Y2" +++ nl) (snd (pl ("G1 X1 Y2" +++ nl))))))).
    all: vm_compute; reflexivity.
  - apply Hb. reflexivity.
  - apply Hc.
Defined.

(** ** C4 *)

(** C4 counterexample.  The first group sets the feed height to 8 ("G1 Z10
    F50", "G1 Z8"; "G1 Z2" below it stays a feed move); the second group's
    "G1 Z1 F50", below that height, is still rewritten to a rapid move, as
    the first Z move of a fresh state. *)
Lemma state_reset_run :
  output_text (snd (PostProcessSetup pyf E0 (St "" true) PostOk
    [grp (frag_of "T1" ["N15 G1 Z10 F50"; "N20 G1 Z8"; "N25 G1 Z2"] []);
     grp (frag_of "T2" ["N15 G1 Z1 F50"] [])]))
  = Ls ["%"; "(Part1)"; "N10 T1 M6";
        "N15 G00 Z10.0 (Changed from: " +++ quoted "G1 Z10 F50" +++ ")";
        "N20 G00 Z8.0 (Changed from: " +++ quoted "G1 Z8" +++ ")";
        "N25 G1 Z2 F50.0 (Feed rate added)"; "N30 T2 M6";
        "N35 G00 Z1.0 (Changed from: " +++ quoted "G1 Z1 F50" +++ ")"; "N40 M5"; "N45 M30"; "%"].
Proof. vm_compute. reflexivity. Qed.

(** ** C5 *)

(** C5 counterexample.  The tool-change text "N1 M9:G30" gives two numbered
    lines, "N20 M9" and "N25 G30", not one numbered line and one copied
    verbatim. *)
Lemma numbered_tool_change_run :
  output_text (snd (PostProcessSetup pyf E0 (St "N1 M9:G30" false) PostOk
    [grp (frag_of "T1" ["N15 G0 X0"] []); grp (frag_of "T2" ["N15 G0 X1"] [])]))
  = Ls ["%"; "(Part1)"; "N10 T1 M6"; "N15 G0 X0"; "N20 M9"; "N25 G30"; "N30 T2 M6"; "N35 G0 X1";
        "N40 M5"; "N45 M30"; "%"].
Proof. vm_compute. reflexivity. Qed.

Lemma tool_change_numbering_witness :
  exists io', bind (prep_tc "N1 M9:G30") (fun tc => inject tc) io0 = Norm tt io' /\
    bodyw io' = bodyw io0 ++ number_lines (lineNum io0)
      (splitlines (bline (some_or bm0 (regBody_match (replace_colon "N1 M9:G30" +++ nl))))).
Proof.
  apply (tool_change_numbering "N1 M9:G30" (some_or bm0 (regBody_match (replace_colon "N1 M9:G30" +++ nl)))
           io0).
  - vm_compute. discriminate.
  - vm_compute. reflexivity.
  - vm_compute. discriminate.
Defined.

(** ** C6 *)



(** ** C7 *)

Lemma output_line_numbers_witness :
  (exists k, nums (headw (snd (PostProcessSetup pyf E0 (St "N1 M9:G30" true) PostOk
    [grp (frag_of "T1" ["N15 G1 Z10 F50"; "G1 Z8"] ["N99 G28"]); grp (frag_of "T2" ["N15 G0 X1"] [])])))
     = arith 10 k) /\
  (exists rest, bodyw (out_io (tool_loop (P0 false) true None false ("N5 G90" +++ nl)
                                 [Ls ["N10 T1 M6"]] false io0))
     = bodyw io0 ++ [WNum (lineNum io0)] ++ [WStr ("G90" +++ nl)] ++ rest) /\
  (exists rest, bodyw (out_io (body_loop pyf (P0 false) (some_or bm0 (regBody_match ("N15 G0 X0" +++ nl)))
                                 true ("G0 X0" +++ nl) [Ls ["N90 M5"]] fz_off None io0))
     = bodyw io0 ++ [WNum (lineNum io0)] ++ [WStr ("G0 X0" +++ nl)] ++ rest) /\
  exists m W1 W2, regBody_match ("N99 G28" +++ nl) = Some m /\
    bodyw (out_io (add_tail (Some (Ls ["(end)"; "N99 G28"; "M2"])) io0)) = bodyw io0 ++ W1
      ++ (if is_some (bN m)
          then [WNum (lineNum io0 + constLineNumInc * length (nums W1)); WStr (bline m)]
          else [WStr ("N99 G28" +++ nl)]) ++ W2.
Proof.
  destruct (output_line_numbers pyf) as (Ha & Hb & Hc & Hd). split; [|split; [|split]].
  - apply (Ha E0 (St "N1 M9:G30" true) PostOk
      [grp (frag_of "T1" ["N15 G1 Z10 F50"; "G1 Z8"] ["N99 G28"]); grp (frag_of "T2" ["N15 G0 X1"] [])]
      (fst (PostProcessSetup pyf E0 (St "N1 M9:G30" true) PostOk
        [grp (frag_of "T1" ["N15 G1 Z10 F50"; "G1 Z8"] ["N99 G28"]); grp (frag_of "T2" ["N15 G0 X1"] [])]))).
    vm_compute. reflexivity.
  - apply (Hb (P0 false) true None ("N5 G90" +++ nl) [Ls ["N10 T1 M6"]] false io0
             (some_or bm0 (regBody_match ("N5 G90" +++ nl)))).
    all: vm_compute; reflexivity.
  - apply (Hc (P0 false) (some_or bm0 (regBody_match ("N15 G0 X0" +++ nl))) true ("G0 X0" +++ nl)
             [Ls ["N90 M5"]] fz_off None io0 fz_off).
    all: vm_compute; reflexivity.
  - apply (Hd (Ls ["(end)"; "N99 G28"; "M2"]) io0 (out_io (add_tail (Some (Ls ["(end)"; "N99 G28"; "M2"])) io0))
             ltac:(vm_compute; reflexivity) [Ls ["(end)"]] ("N99 G28" +++ nl) [Ls ["M2"]]).
    vm_compute. reflexivity.
Defined.

(** ** C8 *)

(** C8 counterexample.  With [postRetries = 1] there is a single attempt: a
    fragment that would be readable at the second one is never read and the
    timeout message comes back after one [postProcess] call. *)
Lemma one_attempt_run :
  PostProcessSetup pyf E0 (mkSettings true false "" false "M5 M9 M30" 1 (1 # 5)) PostOk [g_late]
  = (Some "Unable to open /tmp/8910.nc",
     snd (PostProcessSetup pyf E0 (mkSettings true false "" false "M5 M9 M30" 1 (1 # 5)) PostOk [g_late])) /\
  posts (snd (PostProcessSetup pyf E0 (mkSettings true false "" false "M5 M9 M30" 1 (1 # 5)) PostOk [g_late]))
  = 1.
Proof. split; vm_compute; reflexivity. Qed.

Lemma fetch_attempts_witness :
  exists io', fetch (P0 false) g_late (Z.to_nat 3) 0 3 (1 # 5) io0 = Norm (lines_of (frag g_late)) io' /\
    sleeps io' = sleeps io0 ++ doublings (1 # 5) 2 /\ posts io' = posts io0 + 2.
Proof.
  destruct (fetch_attempts (P0 false) g_late 3 (1 # 5) io0 1) as [_ [_ [H _]]].
  - simpl. lia.
  - intros j Hj. assert (j = 0) by lia. subst j. split; reflexivity.
  - apply H; reflexivity.
Defined.

(** ** C9 *)

(** C9 counterexample.  Under an M49 speed lock the upward move "G1 Z15"
    (above the feed height 8 and above the previous Z) is not rewritten to a
    rapid move. *)
Lemma speed_lock_run :
  output_text (snd (PostProcessSetup pyf E0 (St "" true) PostOk
    [grp (frag_of "T1" ["N15 M49"; "N20 G1 Z10 F50"; "N25 G1 Z8"; "N30 G1 Z15"] [])]))
  = Ls ["%"; "(Part1)"; "N10 T1 M6"; "N15 M49";
        "N20 G00 Z10.0 (Changed from: " +++ quoted "G1 Z10 F50" +++ ")";
        "N25 G00 Z8.0 (Changed from: " +++ quoted "G1 Z8" +++ ")";
        "N30 G1 Z15 F50.0 (Feed rate added)"; "N35 M5"; "N40 M30"; "%"].
Proof. vm_compute. reflexivity. Qed.

Lemma rapid_z_only_move_witness :
  (exists st', fast_line pyf fz_on ("G1 Z10 F50" +++ nl)
     = Some (st', constRapidZgcode pyf (Some (py_float "10")) (drop_last ("G1 Z10 F50" +++ nl)))
     /\ Zfeed st' = Some (py_float "10")) /\
  (exists st', fast_line pyf (mkFZ true (Some 1) (Some (8 # 1)) (Some (10 # 1)) (Some (8 # 1)) false (NFloat (50 # 1)) false false)
                 ("G1 Z15" +++ nl)
     = Some (st', constRapidZgcode pyf (Some (py_float "15")) (drop_last ("G1 Z15" +++ nl)))).
Proof.
  destruct (rapid_z_only_move pyf) as [Ha Hb]. split.
  - apply (Ha fz_on ("G1 Z10 F50" +++ nl) (fst (pl ("G1 Z10 F50" +++ nl))) (snd (pl ("G1 Z10 F50" +++ nl)))
             "10" false false).
    all: vm_compute; reflexivity.
  - apply (Hb (mkFZ true (Some 1) (Some (8 # 1)) (Some (10 # 1)) (Some (8 # 1)) false (NFloat (50 # 1)) false false) ("G1 Z15" +++ nl)
             (fst (pl ("G1 Z15" +++ nl))) (snd (pl ("G1 Z15" +++ nl))) "15" false false (8 # 1) (8 # 1)).
    all: try (vm_compute; reflexivity).
    left. vm_compute. intro Hc. discriminate Hc.
Defined.

(** ** C10 *)

(** C10 counterexample.  Under an M49 speed lock, "G1 X1 Y1" before any
    feed height raises nothing: the rewriter stays on and rewrites the next
    "G1 Z5 F10". *)
Lemma locked_xy_move_run :
  output_text (snd (PostProcessSetup pyf E0 (St "" true) PostOk
    [grp (frag_of "T1" ["N15 M49"; "N20 G1 X1 Y1"; "N25 G1 Z5 F10"] [])]))
  = Ls ["%"; "(Part1)"; "N10 T1 M6"; "N15 M49"; "N20 G1 X1 Y1";
        "N25 G00 Z5.0 (Changed from: " +++ quoted "G1 Z5 F10" +++ ")"; "N30 M5"; "N35 M30"; "%"].
Proof. vm_compute. reflexivity. Qed.

Lemma xy_move_before_feed_height_witness :
  ((exists st1, fz_try pyf fz_on ("G1 X1 Y2" +++ nl) (snd (pl ("G1 X1 Y2" +++ nl)))
                 = FZExc st1 ("G1 X1 Y2" +++ nl)) /\
   (exists st', fast_line pyf fz_on ("G1 X1 Y2" +++ nl) = Some (st', "G1 X1 Y2" +++ nl) /\ fFastZ st' = false)) /\
  (exists st', fz_try pyf (lock_update (Some 49) (fz_init true fz_on)) ("G1 X1 Y2" +++ nl)
                 (snd (pl ("G1 X1 Y2" +++ nl))) = FZOk st' ("G1 X1 Y2" +++ nl) /\
               fast_line pyf (lock_update (Some 49) (fz_init true fz_on)) ("G1 X1 Y2" +++ nl)
                 = Some (st', "G1 X1 Y2" +++ nl) /\ fFastZ st' = true) /\
  fz_inv (lock_update (Some 49) (fz_init true fz_on)) = true.
Proof.
  destruct (xy_move_before_feed_height pyf) as (Ha & Hb & Hc). split; [|split].
  - apply (Ha fz_on ("G1 X1 Y2" +++ nl) (fst (pl ("G1 X1 Y2" +++ nl)))
             (snd (pl ("G1 X1 Y2" +++ nl))) (some_or "" (cap "XY" (snd (pl ("G1 X1 Y2" +++ nl))))) false false).
    all: try (vm_compute; reflexivity).
    vm_compute. discriminate.
  - apply (Hb (lock_update (Some 49) (fz_init true fz_on)) ("G1 X1 Y2" +++ nl) (fst (pl ("G1 X1 Y2" +++ nl)))
             (snd (pl ("G1 X1 Y2" +++ nl))) (some_or "" (cap "XY" (snd (pl ("G1 X1 Y2" +++ nl))))) false false).
    all: try (vm_compute; reflexivity).
    vm_compute. discriminate.
  - apply (Hc (lock_update (Some 49) (fz_init true fz_on))).
    apply fz_reach_lock. apply fz_reach_init.
Defined.

(** * Properties of the rest of the add-in *)



Lemma group_rest_tool (t : string) : forall ops oh acc opList oh' rest,
  group_rest true (Some t) oh acc ops = (opList, oh', rest) ->
  oh' = oh /\ length rest <= length ops /\
  (exists taken, opList = acc ++ taken /\
     filter unsuppressed ops = taken ++ filter unsuppressed rest /\
     Forall (fun x => op_hasToolpath x = true -> op_tool x = t) taken) /\
  (rest = [] \/ exists o r, rest = o :: r /\ op_suppressed o = false /\
     op_hasToolpath o = true /\ op_tool o <> t).
Proof.
  induction ops as [|o ops IH]; intros oh acc opList oh' rest H; simpl in H.
  - injection H; intros; subst. split; [reflexivity|]. split; [simpl; lia|].
    split; [|left; reflexivity]. exists []. rewrite app_nil_r. auto.
  - destruct (op_suppressed o) eqn:Es.
    + apply IH in H. destruct H as (H1 & H2 & (tk & H3 & H4 & H5) & H6).
      repeat split; auto; [simpl; lia|]. exists tk. simpl. unfold unsuppressed at 1.
      rewrite Es. simpl. auto.
    + destruct (op_hasToolpath o) eqn:Et; simpl in H.
      * destruct (String.eqb (op_tool o) t) eqn:Eq; simpl in H.
        -- apply String.eqb_eq in Eq.
           apply IH in H. destruct H as (H1 & H2 & (tk & H3 & H4 & H5) & H6).
           repeat split; auto; [simpl; lia|]. exists (o :: tk).
           rewrite <- app_assoc in H3. simpl. unfold unsuppressed at 1. rewrite Es. simpl.
           rewrite H4. repeat split; auto.
        -- injection H; intros; subst. repeat split; auto.
           ++ exists []. rewrite app_nil_r. auto.
           ++ right. exists o, ops. repeat split; auto.
              intro E. apply String.eqb_eq in E. congruence.
      * apply IH in H. destruct H as (H1 & H2 & (tk & H3 & H4 & H5) & H6).
        repeat split; auto; [simpl; lia|]. exists (o :: tk).
        rewrite <- app_assoc in H3. simpl. unfold unsuppressed at 1. rewrite Es. simpl.
        rewrite H4. repeat split; auto. constructor; auto. congruence.
Qed.

Lemma group_rest_notool : forall ops acc opList oh' rest,
  group_rest false None None acc ops = (opList, oh', rest) ->
  length rest <= length ops /\
  exists taken, opList = acc ++ taken /\
     filter unsuppressed ops = taken ++ filter unsuppressed rest /\
     ((oh' = None /\ rest = [] /\ Forall (fun x => op_hasToolpath x = false) taken) \/
      (exists pre o, oh' = Some o /\ taken = pre ++ [o] /\
         Forall (fun x => op_hasToolpath x = false) pre /\ op_hasToolpath o = true)).
Proof.
  induction ops as [|o ops IH]; intros acc opList oh' rest H; simpl in H.
  - injection H; intros; subst. split; auto. exists []. rewrite app_nil_r.
    split; [reflexivity|]. split; [reflexivity|]. left. auto.
  - destruct (op_suppressed o) eqn:Es.
    + apply IH in H. destruct H as (H1 & tk & H3 & H4 & H5).
      split; [simpl; lia|]. exists tk. simpl. unfold unsuppressed at 1.
      rewrite Es. simpl. auto.
    + destruct (op_hasToolpath o) eqn:Et; simpl in H.
      * injection H; intros; subst. split; [simpl; lia|]. exists [o].
        simpl. unfold unsuppressed at 1. rewrite Es. simpl. repeat split; auto.
        right. exists [], o. auto.
      * apply IH in H. destruct H as (H1 & tk & H3 & H4 & H5).
        split; [simpl; lia|]. exists (o :: tk).
        rewrite <- app_assoc in H3. simpl. unfold unsuppressed at 1. rewrite Es. simpl.
        rewrite H4. repeat split; auto.
        destruct H5 as [(-> & -> & H5) | (pre & o' & -> & -> & H5 & H6)].
        -- left. auto.
        -- right. exists (o :: pre), o'. auto.
Qed.

Lemma group_ops_aux_nil (fuel : nat) : group_ops_aux fuel [] = [].
Proof. destruct fuel; reflexivity. Qed.

Lemma find_notp (pre r : list Op) :
  Forall (fun x => op_hasToolpath x = false) pre -> find op_hasToolpath (pre ++ r) = find op_hasToolpath r.
Proof. induction 1 as [|x l Hx _ IH]; simpl; [reflexivity|]. rewrite Hx. exact IH. Qed.

Lemma in_notp (pre : list Op) (x : Op) :
  Forall (fun x => op_hasToolpath x = false) pre -> In x pre -> op_hasToolpath x = true -> False.
Proof. intros HF Hin Ht. rewrite Forall_forall in HF. rewrite (HF x Hin) in Ht. discriminate. Qed.

(** The first group of a list that starts with an operation not suppressed
    that has a toolpath: it is that operation's group. *)
Lemma group_ops_aux_head (fuel : nat) (o : Op) (r : list Op) :
  op_suppressed o = false -> op_hasToolpath o = true ->
  exists opList gs, group_ops_aux (S fuel) (o :: r) = (opList, Some o) :: gs.
Proof.
  intros Hs Ht. simpl. rewrite Hs, Ht.
  destruct (group_rest true (Some (op_tool o)) (Some o) [o] r) as [[opList oh] rest] eqn:E.
  apply group_rest_tool in E. destruct E as (-> & _).
  eexists _, _. reflexivity.
Qed.

Lemma group_ops_aux_partition : forall fuel ops, length ops <= fuel ->
  concat (map fst (group_ops_aux fuel ops)) = filter unsuppressed ops /\
  Forall (fun g => fst g <> []) (group_ops_aux fuel ops).
Proof.
  induction fuel as [|fuel IH]; intros ops Hl.
  - destruct ops; [split; auto | simpl in Hl; lia].
  - destruct ops as [|op ops]; [split; auto|]. simpl in Hl.
    change (filter unsuppressed (op :: ops))
      with (if unsuppressed op then op :: filter unsuppressed ops else filter unsuppressed ops).
    unfold unsuppressed at 1. simpl group_ops_aux.
    destruct (op_suppressed op) eqn:Es; simpl negb; cbv iota; [apply IH; lia|].
    destruct (op_hasToolpath op) eqn:Et.
    + destruct (group_rest true (Some (op_tool op)) (Some op) [op] ops) as [[opList oh] rest] eqn:E.
      apply group_rest_tool in E. destruct E as (_ & Hr & (tk & -> & Hf & _) & _).
      destruct (IH rest ltac:(lia)) as [IH1 IH2]. simpl. rewrite IH1, Hf. split; auto.
      constructor; auto. simpl. discriminate.
    + destruct (group_rest false None None [op] ops) as [[opList oh] rest] eqn:E.
      apply group_rest_notool in E. destruct E as (Hr & tk & -> & Hf & _).
      destruct (IH rest ltac:(lia)) as [IH1 IH2]. simpl. rewrite IH1, Hf. split; auto.
      constructor; auto. simpl. discriminate.
Qed.

Lemma group_ops_aux_tools : forall fuel ops,
  Forall (fun g => snd g = first_tp (fst g) /\
                   forall x y, In x (fst g) -> In y (fst g) ->
                     op_hasToolpath x = true -> op_hasToolpath y = true -> op_tool x = op_tool y)
         (group_ops_aux fuel ops).
Proof.
  induction fuel as [|fuel IH]; intros ops; [constructor|].
  destruct ops as [|op ops]; [constructor|]. simpl.
  destruct (op_suppressed op) eqn:Es; [apply IH|].
  destruct (op_hasToolpath op) eqn:Et.
  - destruct (group_rest true (Some (op_tool op)) (Some op) [op] ops) as [[opList oh] rest] eqn:E.
    apply group_rest_tool in E. destruct E as (-> & _ & (tk & -> & _ & Hf) & _).
    constructor; [|apply IH]. simpl. unfold first_tp. simpl. rewrite Et. split; [reflexivity|].
    rewrite Forall_forall in Hf.
    assert (Ht : forall z, In z (op :: tk) -> op_hasToolpath z = true -> op_tool z = op_tool op).
    { intros z [<-|Hz] Hz'; [reflexivity|]. apply Hf; auto. }
    intros x y Hx Hy Hx' Hy'. rewrite (Ht x Hx Hx'), (Ht y Hy Hy'). reflexivity.
  - destruct (group_rest false None None [op] ops) as [[opList oh] rest] eqn:E.
    apply group_rest_notool in E. destruct E as (_ & tk & -> & _ & Hc).
    constructor; [|apply IH]. simpl.
    assert (Hop : Forall (fun x => op_hasToolpath x = false) [op]) by (constructor; auto).
    destruct Hc as [(-> & _ & Hf) | (pre & o & -> & -> & Hf & Ho)].
    + unfold first_tp. simpl. rewrite Et.
      pose proof (find_notp tk [] Hf) as Hfn. rewrite app_nil_r in Hfn. simpl in Hfn.
      split; [symmetry; exact Hfn|]. intros x y Hx _ Hx' _. exfalso.
      apply (in_notp (op :: tk) x); auto.
    + assert (Hp : Forall (fun x => op_hasToolpath x = false) (op :: pre)) by (constructor; auto).
      unfold first_tp. simpl. rewrite Et.
      rewrite (find_notp pre [o] Hf). simpl. rewrite Ho. split; [reflexivity|].
      assert (Hz : forall z, In z ((op :: pre) ++ [o]) -> op_hasToolpath z = true -> z = o).
      { intros z Hz Hz'. apply in_app_or in Hz. destruct Hz as [Hz|[<-|[]]]; [|reflexivity].
        exfalso. apply (in_notp (op :: pre) z); auto. }
      intros x y Hx Hy Hx' Hy'. rewrite (Hz x Hx Hx'), (Hz y Hy Hy'). reflexivity.
Qed.

Lemma group_ops_aux_adjacent : forall fuel ops, length ops <= fuel ->
  forall pre g1 g2 post, group_ops_aux fuel ops = pre ++ g1 :: g2 :: post ->
  snd g1 <> None /\
  (forall o, hd_error (fst g1) = Some o -> op_hasToolpath o = true ->
     option_map op_tool (snd g2) <> option_map op_tool (snd g1)).
Proof.
  induction fuel as [|fuel IH]; intros ops Hl pre g1 g2 post H.
  - destruct pre; discriminate H.
  - destruct ops as [|op ops]; [destruct pre; discriminate H|]. simpl in Hl. simpl in H.
    destruct (op_suppressed op) eqn:Es; [eapply IH; [|exact H]; lia|].
    destruct (op_hasToolpath op) eqn:Et.
    + destruct (group_rest true (Some (op_tool op)) (Some op) [op] ops) as [[opList oh] rest] eqn:E.
      apply group_rest_tool in E. destruct E as (-> & Hr & _ & Hn).
      destruct pre as [|g pre]; simpl in H; injection H; intros H1 H2.
      * subst g1. destruct Hn as [->|(o & r & -> & Hos & Hot & Hne)].
        { rewrite group_ops_aux_nil in H1. discriminate H1. }
        destruct fuel as [|fuel]; [simpl in Hr; lia|].
        destruct (group_ops_aux_head fuel o r Hos Hot) as (opList2 & gs & E2).
        rewrite E2 in H1. injection H1; intros; subst g2. simpl.
        split; [discriminate|]. intros _ _ _ Hc. injection Hc. exact Hne.
      * eapply IH; [|exact H1]. lia.
    + destruct (group_rest false None None [op] ops) as [[opList oh] rest] eqn:E.
      apply group_rest_notool in E. destruct E as (Hr & tk & -> & _ & Hc).
      destruct pre as [|g pre]; simpl in H; injection H; intros H1 H2.
      * subst g1. destruct Hc as [(_ & -> & _) | (pre & o & -> & _)].
        { rewrite group_ops_aux_nil in H1. discriminate H1. }
        simpl. split; [discriminate|]. intros o' Ho' Ht'. injection Ho'; intros <-.
        rewrite Et in Ht'. discriminate.
      * eapply IH; [|exact H1]. lia.
Qed.

(** The groups read the operations not suppressed, each once, in order. *)
Theorem group_ops_partition (ops : list Op) :
  concat (map fst (group_ops ops)) = filter unsuppressed ops /\
  Forall (fun g => fst g <> []) (group_ops ops).
Proof. apply group_ops_aux_partition. lia. Qed.

(** Each group's [opHasTool] is its first operation with a toolpath, and
    all the operations with a toolpath in a group use the same tool. *)
Theorem group_ops_single_tool (ops : list Op) :
  Forall (fun g => snd g = first_tp (fst g) /\
                   forall x y, In x (fst g) -> In y (fst g) ->
                     op_hasToolpath x = true -> op_hasToolpath y = true -> op_tool x = op_tool y)
         (group_ops ops).
Proof. apply group_ops_aux_tools. Qed.

(** A group followed by another one has an operation with a toolpath; when
    the group starts with such an operation, the next group's tool differs. *)
Theorem group_ops_adjacent (ops : list Op) (pre post : list (list Op * option Op))
    (g1 g2 : list Op * option Op) :
  group_ops ops = pre ++ g1 :: g2 :: post ->
  snd g1 <> None /\
  (forall o, hd_error (fst g1) = Some o -> op_hasToolpath o = true ->
     option_map op_tool (snd g2) <> option_map op_tool (snd g1)).
Proof. intros H. eapply group_ops_aux_adjacent; [|exact H]. lia. Qed.

Lemma group_ops_adjacent_witness :
  group_ops ops_mixed =
    [([op_manual; op_t "a"], Some (op_t "a"))] ++ ([op_t "a"], Some (op_t "a")) ::
    ([op_t "b"], Some (op_t "b")) :: [] /\
  snd ([op_t "a"], Some (op_t "a")) <> None /\
  (forall o, hd_error (fst ([op_t "a"], Some (op_t "a"))) = Some o -> op_hasToolpath o = true ->
     option_map op_tool (snd ([op_t "b"], Some (op_t "b"))) <>
     option_map op_tool (snd ([op_t "a"], Some (op_t "a")))).
Proof.
  split; [vm_compute; reflexivity|].
  apply (group_ops_adjacent ops_mixed [([op_manual; op_t "a"], Some (op_t "a"))] []).
  vm_compute. reflexivity.
Defined.



Lemma count_files_sum (e : string) : forall files cf cn,
  count_files e cf cn files =
  (cf + fst (count_files e 0 0 files), cn + snd (count_files e 0 0 files)).
Proof.
  induction files as [|f files IH]; intros cf cn; simpl; [f_equal; lia|].
  destruct (endswith f e); rewrite IH; rewrite (IH 0 1) || rewrite (IH 1 0); simpl; f_equal; lia.
Qed.

Lemma count_files_app (e : string) : forall a b,
  count_files e 0 0 (a ++ b) =
  (fst (count_files e 0 0 a) + fst (count_files e 0 0 b),
   snd (count_files e 0 0 a) + snd (count_files e 0 0 b)).
Proof.
  intros a b. revert b. induction a as [|f a IH]; intros b; simpl.
  - destruct (count_files e 0 0 b); reflexivity.
  - destruct (endswith f e); rewrite count_files_sum; rewrite (count_files_sum e a);
    rewrite IH; simpl; f_equal; lia.
Qed.

Lemma count_walk_none (limit : nat) (e : string) : forall walk cf cn,
  cf <= limit -> 2 * cn <= 3 * limit ->
  count_walk limit e cf cn walk = None <->
  cf + fst (count_files e 0 0 (concat walk)) <= limit /\
  2 * (cn + snd (count_files e 0 0 (concat walk))) <= 3 * limit.
Proof.
  induction walk as [|files walk IH]; intros cf cn H1 H2; simpl.
  - split; [intros _; lia | reflexivity].
  - cbn [count_walk concat]. rewrite count_files_sum. rewrite count_files_app. cbn [fst snd].
    destruct (limit <? cf + fst (count_files e 0 0 files)) eqn:E1.
    + apply Nat.ltb_lt in E1. split; [intros Hc; inversion Hc | intros [Ha Hb]; exfalso; lia].
    + apply Nat.ltb_ge in E1.
      match goal with |- context [if ?c then _ else _] => destruct c eqn:E2 end.
      * apply Nat.ltb_lt in E2. split; [intros Hc; inversion Hc | intros [Ha Hb]; exfalso; lia].
      * apply Nat.ltb_ge in E2. rewrite IH by lia. lia.
Qed.

Lemma count_walk_none_iff (walk : list (list string)) (limit : nat) (fileExt : string) :
  CountOutputFolderFiles walk limit fileExt = None <->
  fst (count_files fileExt 0 0 (concat walk)) <= limit /\
  2 * snd (count_files fileExt 0 0 (concat walk)) <= 3 * limit.
Proof. unfold CountOutputFolderFiles. rewrite count_walk_none by lia. lia. Qed.

(** The folder check passes exactly when the whole tree holds at most
    [limit] files without the G-code extension and at most [1.5 * limit] with it. *)
Theorem count_output_folder_files_none (walk : list (list string)) (limit : nat) (fileExt : string) :
  CountOutputFolderFiles walk limit fileExt = None <->
  fst (count_files fileExt 0 0 (concat walk)) <= limit /\
  2 * snd (count_files fileExt 0 0 (concat walk)) <= 3 * limit.
Proof. exact (count_walk_none_iff walk limit fileExt). Qed.

Lemma replace_bs_app (a b : string) : replace_bs (a +++ b) = replace_bs a +++ replace_bs b.
Proof. induction a as [|c a IH]; simpl; [reflexivity|]. rewrite IH. reflexivity. Qed.

Lemma replace_bs_length (s : string) : String.length (replace_bs s) = String.length s.
Proof. induction s as [|c s IH]; simpl; [reflexivity|]. rewrite IH. reflexivity. Qed.

Lemma replace_bs_idem (s : string) : replace_bs (replace_bs s) = replace_bs s.
Proof.
  induction s as [|c s IH]; simpl; [reflexivity|]. rewrite IH.
  destruct (Ascii.eqb c backslash) eqn:E; [reflexivity | rewrite E; reflexivity].
Qed.

Lemma append_nil_r (s : string) : s +++ "" = s.
Proof. induction s as [|c s IH]; simpl; [reflexivity|]. rewrite IH. reflexivity. Qed.

Lemma append_length (a b : string) : String.length (a +++ b) = String.length a + String.length b.
Proof. induction a as [|c a IH]; simpl; [reflexivity|]. rewrite IH. reflexivity. Qed.

Lemma append_assoc (a b c : string) : (a +++ b) +++ c = a +++ b +++ c.
Proof. induction a as [|x a IH]; simpl; [reflexivity|]. rewrite IH. reflexivity. Qed.

Lemma append_cancel (a b c : string) : a +++ b = a +++ c -> b = c.
Proof. induction a as [|x a IH]; simpl; [auto|]. intros H. injection H. exact IH. Qed.

Lemma prefix_self_app (p r : string) : String.prefix p (p +++ r) = true.
Proof.
  induction p as [|c p IH]; [destruct r; reflexivity|]. simpl.
  destruct (ascii_dec c c) as [_|n]; [exact IH | congruence].
Qed.

Lemma prefix_nil (s : string) : String.prefix "" s = true.
Proof. destruct s; reflexivity. Qed.

Lemma prefix_split (p s : string) : String.prefix p s = true -> exists r, s = p +++ r.
Proof.
  revert s. induction p as [|c p IH]; intros s H; [exists s; reflexivity|].
  destruct s as [|c' s]; simpl in H; [discriminate|].
  destruct (ascii_dec c c') as [<-|]; [|discriminate].
  destruct (IH s H) as [r ->]. exists r. reflexivity.
Qed.

Lemma substring_all (s : string) : substring 0 (String.length s) s = s.
Proof. induction s as [|c s IH]; simpl; [reflexivity|]. rewrite IH. reflexivity. Qed.

Lemma removeprefix_app (p r : string) : removeprefix (p +++ r) p = r.
Proof.
  unfold removeprefix. rewrite prefix_self_app. rewrite append_length.
  replace (String.length p + String.length r - String.length p) with (String.length r) by lia.
  induction p as [|c p IH]; simpl; [apply substring_all | exact IH].
Qed.

Lemma expanduser_no_tilde (home : option string) (pw : string -> option string) (file : string) :
  String.prefix "~" file = false -> expanduser home pw file = file.
Proof.
  destruct file as [|c s]; [reflexivity|]. simpl.
  destruct (ascii_dec "~" c) as [<-|n]; [intros H; destruct s; discriminate H|]. intros _.
  destruct (Ascii.eqb c "~") eqn:E; [apply Ascii.eqb_eq in E; congruence | reflexivity].
Qed.

Lemma expanduser_home_nonempty (home : option string) (pw : string -> option string) :
  expanduser home pw "~" <> "".
Proof.
  unfold expanduser. simpl. destruct home as [h|]; [|discriminate].
  destruct (String.eqb (rstrip_slash h +++ "") "") eqn:E; [discriminate|].
  intros Hc. rewrite Hc in E. discriminate.
Qed.

(** With a home folder other than the root, [~/x] expands to the home
    followed by [/x]. *)
Lemma expanduser_tilde_slash (home : option string) (pw : string -> option string) (x : string) :
  expanduser home pw "~" <> "/" ->
  expanduser home pw ("~/" +++ x) = expanduser home pw "~" +++ "/" +++ x.
Proof.
  unfold expanduser. cbn -[substring rstrip_slash]. rewrite !prefix_nil. cbn -[substring rstrip_slash].
  destruct home as [h|]; [|reflexivity].
  rewrite append_nil_r.
  change (S (String.length x)) with (String.length (String "/" x)).
  rewrite substring_all. intros Hh.
  destruct (String.eqb (rstrip_slash h) "") eqn:E; [exfalso; apply Hh; reflexivity|].
  destruct (String.eqb (rstrip_slash h +++ String "/" x) "") eqn:E2.
  - apply String.eqb_eq in E2. destruct (rstrip_slash h); discriminate.
  - reflexivity.
Qed.

Lemma home_base_nonempty (home : option string) (pw : string -> option string) :
  replace_bs (expanduser home pw "~") <> "".
Proof.
  intros H. apply (expanduser_home_nonempty home pw).
  apply (f_equal String.length) in H. rewrite replace_bs_length in H.
  destruct (expanduser home pw "~"); [reflexivity | discriminate].
Qed.

(** [CompressFileName] keeps the name, or replaces the home folder by [~]. *)
Lemma compress_cases (home : option string) (pw : string -> option string) (file c : string) :
  CompressFileName home pw file = Some c ->
  c = file \/
  exists x, c = "~/" +++ x /\ replace_bs file = replace_bs (expanduser home pw "~") +++ "/" +++ x.
Proof.
  unfold CompressFileName. set (base := replace_bs (expanduser home pw "~")).
  destruct (String.prefix base (replace_bs file)) eqn:Ep.
  - destruct (prefix_split _ _ Ep) as [r Hr]. rewrite Hr, removeprefix_app.
    destruct (negb (String.length file =? String.length r)); [|intros H; injection H; auto].
    destruct r as [|ch x]; [discriminate|].
    destruct (Ascii.eqb ch "/") eqn:Ec; intros H; injection H; intros <-; [|auto].
    apply Ascii.eqb_eq in Ec. subst ch. right. exists x. auto.
  - unfold removeprefix. rewrite Ep. rewrite replace_bs_length, Nat.eqb_refl. simpl.
    intros H; injection H; auto.
Qed.

Lemma compress_none_iff (home : option string) (pw : string -> option string) (file : string) :
  CompressFileName home pw file = None <-> replace_bs file = replace_bs (expanduser home pw "~").
Proof.
  pose proof (home_base_nonempty home pw) as Hb.
  unfold CompressFileName. set (base := replace_bs (expanduser home pw "~")) in *.
  destruct (String.prefix base (replace_bs file)) eqn:Ep.
  - destruct (prefix_split _ _ Ep) as [r Hr]. rewrite Hr, removeprefix_app.
    assert (Hl : String.length file = String.length base + String.length r).
    { rewrite <- replace_bs_length, Hr. apply append_length. }
    destruct r as [|ch x].
    + rewrite Hl. destruct base as [|b0 base']; [congruence|]. simpl.
      rewrite append_nil_r. split; reflexivity.
    + rewrite Hl. simpl String.length.
      replace (String.length base + S (String.length x) =? S (String.length x)) with false
        by (destruct base; [congruence|]; symmetry; apply Nat.eqb_neq; simpl; lia).
      simpl. split.
      * destruct (Ascii.eqb ch "/"); discriminate.
      * intros H. apply (f_equal String.length) in H. rewrite append_length in H. simpl in H. lia.
  - unfold removeprefix. rewrite Ep. rewrite replace_bs_length, Nat.eqb_refl. simpl.
    split; [discriminate|]. intros H. rewrite H in Ep.
    rewrite <- (append_nil_r base) in Ep at 2. rewrite prefix_self_app in Ep. discriminate.
Qed.

(** [CompressFileName] raises ([IndexError]) exactly when the name, with
    its backslashes made slashes, is the home folder itself. *)
Theorem compress_file_name_fails (home : option string) (pw : string -> option string) (file : string) :
  CompressFileName home pw file = None <-> replace_bs file = replace_bs (expanduser home pw "~").
Proof. exact (compress_none_iff home pw file). Qed.

(** Expanding a compressed name gives back the name with slashes. *)
Theorem expand_compress_file_name (home : option string) (pw : string -> option string) (file c : string) :
  expanduser home pw "~" <> "/" ->
  String.prefix "~" file = false ->
  CompressFileName home pw file = Some c ->
  ExpandFileName home pw c = replace_bs file.
Proof.
  intros Hh Ht H. unfold ExpandFileName.
  destruct (compress_cases home pw file c H) as [->|(x & -> & Hx)].
  - rewrite expanduser_no_tilde by exact Ht. reflexivity.
  - rewrite expanduser_tilde_slash by exact Hh. rewrite Hx.
    rewrite !replace_bs_app. simpl.
    assert (Hx' : replace_bs x = x).
    { pose proof (replace_bs_idem file) as Hi. rewrite Hx in Hi.
      rewrite !replace_bs_app, replace_bs_idem in Hi. simpl in Hi.
      apply append_cancel in Hi. injection Hi. auto. }
    rewrite Hx'. reflexivity.
Qed.

Lemma compress_expand_tilde (home : option string) (pw : string -> option string) (r : string) :
  expanduser home pw "~" <> "/" ->
  CompressFileName home pw (ExpandFileName home pw ("~/" +++ r)) = Some ("~/" +++ replace_bs r).
Proof.
  intros Hh. unfold ExpandFileName. rewrite expanduser_tilde_slash by exact Hh.
  unfold CompressFileName. generalize (home_base_nonempty home pw).
  generalize (expanduser home pw "~"). intros E Hb.
  rewrite !replace_bs_idem, !replace_bs_app. simpl.
  rewrite removeprefix_app. rewrite append_length. simpl.
  assert (Hl : String.length (replace_bs E) <> 0)
    by (destruct (replace_bs E); [congruence | discriminate]).
  match goal with |- context [(?a =? ?b)] => replace (a =? b) with false end.
  - reflexivity.
  - symmetry. apply Nat.eqb_neq. lia.
Qed.

(** Compressing the expansion of [~/r] gives [~/r] back (with slashes). *)
Theorem compress_expand_file_name (home : option string) (pw : string -> option string) (r : string) :
  expanduser home pw "~" <> "/" ->
  CompressFileName home pw (ExpandFileName home pw ("~/" +++ r)) = Some ("~/" +++ replace_bs r).
Proof. exact (compress_expand_tilde home pw r). Qed.

Lemma expand_compress_file_name_witness :
  expanduser home_ann no_users "~" <> "/" /\
  ExpandFileName home_ann no_users "~/cnc" = replace_bs "/Users/ann/cnc".
Proof.
  split; [vm_compute; discriminate|].
  apply (expand_compress_file_name home_ann no_users "/Users/ann/cnc" "~/cnc");
    vm_compute; [discriminate | reflexivity | reflexivity].
Defined.



Lemma dict_get_set (d : list (string * nat)) (k k' : string) (v : nat) :
  dict_get (dict_set d k v) k' = if String.eqb k k' then Some v else dict_get d k'.
Proof.
  induction d as [|[k0 v0] d IH]; simpl.
  - destruct (String.eqb k k'); reflexivity.
  - destruct (String.eqb k0 k) eqn:E0; simpl.
    + apply String.eqb_eq in E0. subst k0. destruct (String.eqb k k'); reflexivity.
    + rewrite IH. destruct (String.eqb k0 k') eqn:E1; [|reflexivity].
      apply String.eqb_eq in E1. subst k'. rewrite String.eqb_sym, E0. reflexivity.
Qed.

(** The loop's actions do not depend on the counters it carries. *)
Lemma setup_loop_acts_counters cfg setups post cancelled : forall l k d cf cs ls cf' cs' ls',
  acts_of (setup_loop cfg setups post cancelled k d cf cs ls l) =
  acts_of (setup_loop cfg setups post cancelled k d cf' cs' ls' l).
Proof.
  induction l as [|s l IH]; intros k d cf cs ls cf' cs' ls'; cbn [setup_loop]; [reflexivity|].
  destruct (cancelled k); [reflexivity|].
  destruct (negb (s_suppressed s) && negb (s_opcount s =? 0)); [|apply IH].
  destruct (split_setup_name (lc_outputFolder cfg) (s_name s)) as [F nm].
  destruct (dict_get d F) as [n|]; cbv beta iota;
  (destruct (negb (setup_in s setups)); [apply IH|]);
  (match goal with |- context [post ?a ?b ?c] => destruct (post a b c) as [msg|] end);
  cbv beta iota;
  match goal with
  | |- context [setup_loop ?a ?b ?c ?d ?e ?f ?g ?h ?i l] =>
      match goal with
      | |- context [setup_loop a b c d e f ?g' ?h' ?i' l] =>
          match g' with g => fail 1 | _ =>
            pose proof (IH e f g h i g' h' i') as Hc;
            destruct (setup_loop a b c d e f g h i l) as [[[a1 f1] s1] l1];
            destruct (setup_loop a b c d e f g' h' i' l) as [[[a2 f2] s2] l2];
            unfold acts_of in *; simpl in *; rewrite Hc; reflexivity
          end
      end
  end.
Qed.

Lemma setup_loop_select cfg sel all post cancelled : forall l k d cf cs ls cf' cs' ls',
  (forall s, In s l -> setup_in s all = true) ->
  acts_of (setup_loop cfg sel post cancelled k d cf cs ls l) =
  filter (fun a => setup_in (act_setup a) sel)
    (acts_of (setup_loop cfg all post cancelled k d cf' cs' ls' l)).
Proof.
  induction l as [|s l IH]; intros k d cf cs ls cf' cs' ls' Hall; cbn [setup_loop]; [reflexivity|].
  assert (Hl : forall s', In s' l -> setup_in s' all = true) by (intros; apply Hall; right; auto).
  destruct (cancelled k); [reflexivity|].
  destruct (negb (s_suppressed s) && negb (s_opcount s =? 0)); [|apply IH; exact Hl].
  destruct (split_setup_name (lc_outputFolder cfg) (s_name s)) as [F nm].
  rewrite (Hall s (or_introl eq_refl)). simpl negb. cbv iota.
  destruct (setup_in s sel) eqn:Es; simpl negb; cbv iota.
  - destruct (dict_get d F) as [n|]; cbv beta iota;
    (match goal with |- context [post ?a ?b ?c] => destruct (post a b c) as [msg|] end);
    cbv beta iota;
    (match goal with
     | |- context [setup_loop ?a sel ?c ?d ?e ?f ?g ?h ?i l] =>
         match goal with
         | |- context [setup_loop a all c d e f ?g' ?h' ?i' l] =>
             pose proof (IH e f g h i g' h' i' Hl) as Hc;
             destruct (setup_loop a sel c d e f g h i l) as [[[a1 f1] s1] l1];
             destruct (setup_loop a all c d e f g' h' i' l) as [[[a2 f2] s2] l2]
         end
     end);
    unfold acts_of in *; simpl in *; rewrite Hc;
    destruct (lc_delFiles cfg); simpl; rewrite ?Es; reflexivity.
  - destruct (dict_get d F) as [n|]; cbv beta iota;
    (match goal with |- context [post ?a ?b ?c] => destruct (post a b c) as [msg|] end);
    cbv beta iota;
    (match goal with
     | |- context [setup_loop ?a all ?c ?d ?e ?f ?g ?h ?i l] =>
         pose proof (IH e f cf cs ls g h i Hl) as Hc;
         destruct (setup_loop a all c d e f g h i l) as [[[a2 f2] s2] l2]
     end);
    unfold acts_of in *; simpl in *; rewrite Hc;
    destruct (lc_delFiles cfg); simpl; rewrite ?Es; reflexivity.
Qed.

(** The actions of a run on the selected setups are those of the run on
    all setups that concern a selected setup: same folders, same file names,
    same folder clearing. *)
Theorem setup_loop_selection (cfg : LoopCfg) (sel : list CamSetup)
    (post : string -> CamSetup -> string -> option string) (cancelled : nat -> bool)
    (camSetups : list CamSetup) :
  loop_acts cfg sel post cancelled camSetups =
  filter (fun a => setup_in (act_setup a) sel) (loop_acts cfg camSetups post cancelled camSetups).
Proof.
  apply setup_loop_select. intros s Hs. unfold setup_in. apply existsb_exists.
  exists s. split; [exact Hs | apply Nat.eqb_refl].
Qed.

Lemma cleared_ok_app (seen : list string) (a b : list Act) :
  cleared_ok seen (a ++ b) <-> cleared_ok seen a /\ cleared_ok (rev (map act_folder a) ++ seen) b.
Proof.
  revert seen. induction a as [|x a IH]; intros seen; simpl; [tauto|].
  rewrite IH. rewrite <- app_assoc. simpl. tauto.
Qed.

Lemma cleared_ok_mono : forall acts s1 s2,
  (forall f, In f s2 -> In f s1) -> cleared_ok s1 acts -> cleared_ok s2 acts.
Proof.
  induction acts as [|a acts IH]; intros s1 s2 Hs H; [exact I|]. destruct H as [H1 H2]. split.
  - destruct a; simpl in *; auto.
  - apply (IH (act_folder a :: s1)); [|exact H2]. intros f [<-|Hf]; [left; reflexivity | right; auto].
Qed.

Lemma setup_loop_cleared cfg setups post cancelled : forall l k d cf cs ls seen,
  (forall f, In f seen -> dict_get d f <> None) ->
  cleared_ok seen (acts_of (setup_loop cfg setups post cancelled k d cf cs ls l)).
Proof.
  induction l as [|s l IH]; intros k d cf cs ls seen Hseen; cbn [setup_loop]; [exact I|].
  destruct (cancelled k); [exact I|].
  destruct (negb (s_suppressed s) && negb (s_opcount s =? 0)); [|apply IH; exact Hseen].
  destruct (split_setup_name (lc_outputFolder cfg) (s_name s)) as [F nm].
  assert (Hk : forall v f, In f (F :: seen) -> dict_get (dict_set d F v) f <> None).
  { intros v f [<-|Hf]; rewrite dict_get_set; [rewrite String.eqb_refl; discriminate|].
    destruct (String.eqb F f); [discriminate | apply Hseen; exact Hf]. }
  destruct (dict_get d F) as [n|] eqn:Ed; cbv beta iota;
  (destruct (negb (setup_in s setups)); [apply IH; intros f Hf; apply (Hk _ f); right; exact Hf|]);
  (match goal with |- context [post ?a ?b ?c] => destruct (post a b c) as [msg|] end);
  cbv beta iota;
  (match goal with
   | |- context [setup_loop ?a ?b ?c ?d ?e ?f ?g ?h ?i l] =>
       pose proof (IH e f g h i (F :: seen)) as Hc;
       destruct (setup_loop a b c d e f g h i l) as [[[a1 f1] s1] l1]
   end);
  unfold acts_of in *; simpl in *;
  destruct (lc_delFiles cfg); simpl;
  repeat (split; [first [exact I | unfold del_fresh; intros Hin; exact (Hseen F Hin Ed)] |]);
  (eapply cleared_ok_mono; [|apply Hc; intros f Hf; apply (Hk _ f); exact Hf]);
  intros f; simpl; tauto.
Qed.

Lemma cleared_no_del (f : string) (s' : CamSetup) : forall r seen,
  cleared_ok seen r -> In f seen -> ~ In (ADelFiles f s') r.
Proof.
  induction r as [|a r IH]; intros seen H Hf Hin; [exact Hin|]. destruct H as [H1 H2].
  destruct Hin as [->|Hin].
  - exact (H1 Hf).
  - apply (IH _ H2); [right; exact Hf | exact Hin].
Qed.

Lemma cleared_split (f : string) (s : CamSetup) (post : list Act) : forall pre seen,
  cleared_ok seen (pre ++ ADelFiles f s :: post) ->
  ~ In f seen /\ Forall (fun a => act_folder a <> f) pre /\
  (forall s', ~ In (ADelFiles f s') post).
Proof.
  induction pre as [|a pre IH]; intros seen H; simpl in H.
  - destruct H as [H1 H2]. split; [exact H1|]. split; [constructor|].
    intros s'. apply (cleared_no_del f s' post (f :: seen) H2). left; reflexivity.
  - destruct H as [_ H2]. destruct (IH _ H2) as (H3 & H4 & H5).
    split; [intros Hf; apply H3; right; exact Hf|]. split; [|exact H5].
    constructor; [intros E; apply H3; left; exact E | exact H4].
Qed.

(** The files of a folder are deleted at most once in a run, and before
    anything else is done in that folder. *)
Theorem setup_loop_clear_once (cfg : LoopCfg) (setups : list CamSetup)
    (post : string -> CamSetup -> string -> option string) (cancelled : nat -> bool)
    (camSetups : list CamSetup) (pre rest : list Act) (f : string) (s : CamSetup) :
  loop_acts cfg setups post cancelled camSetups = pre ++ ADelFiles f s :: rest ->
  Forall (fun a => act_folder a <> f) pre /\ (forall s', ~ In (ADelFiles f s') rest).
Proof.
  intros H. pose proof (setup_loop_cleared cfg setups post cancelled camSetups 0 [] 0 0 "" [])
    as Hc. unfold loop_acts in H. unfold acts_of in Hc. rewrite H in Hc.
  destruct (cleared_split f s rest pre [] (Hc (fun f Hf => match Hf with end))) as (_ & H1 & H2).
  split; assumption.
Qed.

Lemma setup_loop_posts_aux cfg setups post : forall l k d cf cs ls,
  map act_setup (filter is_post (acts_of (setup_loop cfg setups post (fun _ => false) k d cf cs ls l))) =
  filter (to_post setups) l.
Proof.
  induction l as [|s l IH]; intros k d cf cs ls; cbn [setup_loop]; [reflexivity|].
  cbv iota. unfold to_post at 1. cbn [filter].
  destruct (negb (s_suppressed s) && negb (s_opcount s =? 0)); simpl andb; cbv iota; [|apply IH].
  destruct (split_setup_name (lc_outputFolder cfg) (s_name s)) as [F nm].
  destruct (dict_get d F) as [n|]; cbv beta iota;
  (destruct (setup_in s setups); simpl negb; cbv iota; [|apply IH]);
  (match goal with |- context [post ?a ?b ?c] => destruct (post a b c) as [msg|] end);
  cbv beta iota;
  (match goal with
   | |- context [setup_loop ?a ?b ?c ?d ?e ?f ?g ?h ?i l] =>
       pose proof (IH e f g h i) as Hc;
       destruct (setup_loop a b c d e f g h i l) as [[[a1 f1] s1] l1]
   end);
  unfold acts_of in *; simpl in *;
  destruct (lc_delFiles cfg); simpl; rewrite Hc; reflexivity.
Qed.

(** When the run is not cancelled, [PostProcessSetup] is called once for
    each setup of the document that is not suppressed, has operations and is
    among [setups], in the document's order, and for no other. *)
Theorem setup_loop_posts (cfg : LoopCfg) (setups : list CamSetup)
    (post : string -> CamSetup -> string -> option string) (camSetups : list CamSetup) :
  map act_setup (filter is_post (loop_acts cfg setups post (fun _ => false) camSetups)) =
  filter (to_post setups) camSetups.
Proof. apply setup_loop_posts_aux. Qed.



Ltac no_rm :=
  let H := fresh "H" in
  intros H; simpl in H; rewrite ?in_app_iff, ?in_map_iff in H; simpl in H;
  repeat match type of H with
         | _ \/ _ => destruct H as [H|H]
         | exists _, _ => let x := fresh "x" in destruct H as (x & H & _)
         | False => destruct H
         end; try discriminate H.

(** The output folder is removed exactly when its name could be settled
    and compressed, there are setups and operations, both [delFiles] and
    [delFolder] are set, and the whole folder tree holds at most one file
    without the G-code extension per setup and at most 1.5 with it. *)
Theorem perform_rmtree_iff (home : option string) (pw : string -> option string)
    (st : PPSettings) (inp : PPInput) (f : string) :
  let setups := GetSetups (pp_camSetups inp) (ps_onlySelected st) (pp_selected inp) in
  In (ERmtree f) (fst (PerformPostProcess home pw st inp)) <->
  normalize_output home pw (pp_mkdirOk inp) (pp_outputParam inp) (ps_output st) = Some f /\
  CompressFileName home pw f <> None /\
  length setups <> 0 /\ pp_opCount inp <> 0 /\
  ps_delFiles st = true /\ ps_delFolder st = true /\
  fst (count_files (pp_ncExt inp) 0 0 (concat (pp_walk inp))) <= length setups /\
  2 * snd (count_files (pp_ncExt inp) 0 0 (concat (pp_walk inp))) <= 3 * length setups.
Proof.
  intros setups. unfold PerformPostProcess. fold setups.
  destruct (normalize_output home pw (pp_mkdirOk inp) (pp_outputParam inp) (ps_output st))
    as [of|] eqn:En; [| split; [no_rm | intros (H & _); discriminate H]].
  destruct (CompressFileName home pw of) as [out|] eqn:Ec;
    [| split; [no_rm | intros (H & H' & _); injection H; intros <-; congruence]].
  destruct (negb (length setups =? 0) && negb (pp_opCount inp =? 0)) eqn:Econd.
  2:{ split; [no_rm|].
      intros (_ & _ & H1 & H2 & _). apply Nat.eqb_neq in H1, H2. rewrite H1, H2 in Econd.
      discriminate Econd. }
  apply andb_true_iff in Econd. destruct Econd as [E1 E2].
  apply negb_true_iff, Nat.eqb_neq in E1, E2.
  destruct (ps_delFiles st) eqn:Ef; destruct (ps_delFolder st) eqn:Eg; cbn [andb].
  2,3,4: destruct (setup_loop _ _ _ _ _ _ _ _ _ _) as [[[acts c1] c2] c3];
         split; [no_rm | intros (_ & _ & _ & _ & H & H' & _); discriminate].
  destruct (CountOutputFolderFiles (pp_walk inp) (length setups) (pp_ncExt inp)) as [m|] eqn:Ecnt.
  - assert (Hn : ~ (fst (count_files (pp_ncExt inp) 0 0 (concat (pp_walk inp))) <= length setups /\
                   2 * snd (count_files (pp_ncExt inp) 0 0 (concat (pp_walk inp))) <= 3 * length setups)).
    { rewrite <- count_walk_none_iff. rewrite Ecnt. discriminate. }
    destruct (pp_cancelDialog inp).
    + split; [no_rm | intros (_ & _ & _ & _ & _ & _ & H & H'); tauto].
    + destruct (setup_loop _ _ _ _ _ _ _ _ _ _) as [[[acts c1] c2] c3].
      split; [no_rm | intros (_ & _ & _ & _ & _ & _ & H & H'); tauto].
  - apply count_walk_none_iff in Ecnt.
    destruct (setup_loop _ _ _ _ _ _ _ _ _ _) as [[[acts c1] c2] c3].
    split.
    + intros H. simpl in H. rewrite ?in_app_iff, ?in_map_iff in H. simpl in H.
      destruct H as [H|[H|[H|[(x & H & _)|[H|[]]]]]]; try discriminate H.
      injection H; intros <-. destruct Ecnt as [Ec1 Ec2].
      repeat split; auto; congruence.
    + intros (H & _). injection H; intros ->. simpl. rewrite in_app_iff. simpl. auto.
Qed.

(** The run stops at the warning only when [delFiles] and [delFolder]
    are set, the folder check failed and the user cancelled; then nothing has
    been removed and no setup was posted. *)
Theorem perform_abort (home : option string) (pw : string -> option string)
    (st : PPSettings) (inp : PPInput) :
  snd (PerformPostProcess home pw st inp) = PPAborted ->
  ps_delFiles st = true /\ ps_delFolder st = true /\ pp_cancelDialog inp = true /\
  CountOutputFolderFiles (pp_walk inp)
    (length (GetSetups (pp_camSetups inp) (ps_onlySelected st) (pp_selected inp))) (pp_ncExt inp) <> None /\
  (forall f, ~ In (ERmtree f) (fst (PerformPostProcess home pw st inp))) /\
  (forall a, ~ In (ELoop a) (fst (PerformPostProcess home pw st inp))).
Proof.
  unfold PerformPostProcess.
  set (setups := GetSetups (pp_camSetups inp) (ps_onlySelected st) (pp_selected inp)).
  destruct (normalize_output home pw (pp_mkdirOk inp) (pp_outputParam inp) (ps_output st))
    as [of|]; [|discriminate].
  destruct (CompressFileName home pw of) as [out|]; [|discriminate].
  destruct (negb (length setups =? 0) && negb (pp_opCount inp =? 0)); [|discriminate].
  destruct (ps_delFiles st); destruct (ps_delFolder st); cbn [andb];
    try (destruct (setup_loop _ _ _ _ _ _ _ _ _ _) as [[[acts c1] c2] c3]; discriminate).
  destruct (CountOutputFolderFiles (pp_walk inp) (length setups) (pp_ncExt inp)) as [m|];
    [|destruct (setup_loop _ _ _ _ _ _ _ _ _ _) as [[[acts c1] c2] c3]; discriminate].
  destruct (pp_cancelDialog inp);
    [|destruct (setup_loop _ _ _ _ _ _ _ _ _ _) as [[[acts c1] c2] c3]; discriminate].
  intros _. repeat split; try discriminate; intros x; no_rm.
Qed.

(** When the folder's name is the home folder itself (the [mkdir]
    succeeding), [CompressFileName] raises and the function ends in its
    [except] branch: no settings saved, nothing removed, nothing posted. *)
Theorem perform_home_folder_fails (home : option string) (pw : string -> option string)
    (st : PPSettings) (inp : PPInput) :
  pp_mkdirOk inp = true ->
  replace_bs (pp_outputParam inp) = replace_bs (expanduser home pw "~") ->
  PerformPostProcess home pw st inp = ([EMkdir (pp_outputParam inp)], PPFailed).
Proof.
  intros Hm Hh. unfold PerformPostProcess, normalize_output. rewrite Hm.
  apply compress_none_iff in Hh. rewrite Hh. reflexivity.
Qed.

Lemma endswith_slice (s suf : string) :
  endswith s suf = true -> String.length suf <> 0 -> py_suffix_slice s (String.length suf) = suf.
Proof.
  unfold endswith, py_suffix_slice. intros H Hn.
  apply andb_true_iff in H. destruct H as [H1 H2].
  apply Nat.leb_le in H1. apply String.eqb_eq in H2.
  apply Nat.eqb_neq in Hn. rewrite Hn.
  replace (String.length s - (String.length s - String.length suf)) with (String.length suf) by lia.
  exact H2.
Qed.

(** On a machine where the folder cannot be created, a saved name
    [~/r] whose part after [~] ends the folder's path is expanded with this
    user's home, and the saved name stays [~/r]. *)
Theorem perform_output_remap (home : option string) (pw : string -> option string)
    (st : PPSettings) (inp : PPInput) (r : string) :
  pp_mkdirOk inp = false ->
  expanduser home pw "~" <> "/" ->
  ps_output st = "~/" +++ r ->
  endswith (pp_outputParam inp) ("/" +++ r) = true ->
  normalize_output home pw (pp_mkdirOk inp) (pp_outputParam inp) (ps_output st) =
    Some (ExpandFileName home pw ("~/" +++ r)) /\
  exists rest, fst (PerformPostProcess home pw st inp) =
    EMkdir (pp_outputParam inp) :: ESave ("~/" +++ replace_bs r) :: rest.
Proof.
  intros Hm Hh Ho He.
  assert (Hn : normalize_output home pw (pp_mkdirOk inp) (pp_outputParam inp) (ps_output st) =
               Some (ExpandFileName home pw ("~/" +++ r))).
  { unfold normalize_output. rewrite Hm, Ho. simpl.
    pose proof (endswith_slice _ _ He ltac:(simpl; discriminate)) as Hs. simpl in Hs.
    rewrite Hs.
    rewrite String.eqb_refl. reflexivity. }
  split; [exact Hn|].
  unfold PerformPostProcess. rewrite Hn. rewrite compress_expand_tilde by exact Hh.
  set (setups := GetSetups (pp_camSetups inp) (ps_onlySelected st) (pp_selected inp)).
  destruct (negb (length setups =? 0) && negb (pp_opCount inp =? 0)); [|eexists; reflexivity].
  destruct (ps_delFiles st && ps_delFolder st);
    [destruct (CountOutputFolderFiles (pp_walk inp) (length setups) (pp_ncExt inp));
     [destruct (pp_cancelDialog inp)|]|];
  try (eexists; reflexivity);
  destruct (setup_loop _ _ _ _ _ _ _ _ _ _) as [[[acts c1] c2] c3]; eexists; reflexivity.
Qed.



Lemma dget_dset (d : Dict) (k k' : string) (v : JV) :
  dget (dset d k v) k' = if String.eqb k k' then Some v else dget d k'.
Proof.
  induction d as [|[k0 v0] d IH]; simpl.
  - destruct (String.eqb k k'); reflexivity.
  - destruct (String.eqb k0 k) eqn:E0; simpl.
    + apply String.eqb_eq in E0. subst k0. destruct (String.eqb k k'); reflexivity.
    + rewrite IH. destruct (String.eqb k0 k') eqn:E1; [|reflexivity].
      apply String.eqb_eq in E1. subst k'. rewrite String.eqb_sym, E0. reflexivity.
Qed.

Lemma dget_ddel_other (d : Dict) (k k' : string) :
  k <> k' -> dget (ddel d k) k' = dget d k'.
Proof.
  intros Hne. induction d as [|[k0 v0] d IH]; simpl; [reflexivity|].
  destruct (String.eqb k0 k) eqn:E0.
  - apply String.eqb_eq in E0. subst k0. apply String.eqb_neq in Hne. rewrite Hne. reflexivity.
  - simpl. rewrite IH. reflexivity.
Qed.

Lemma dget_notin (d : Dict) (k : string) : ~ In k (map fst d) -> dget d k = None.
Proof.
  induction d as [|[k1 v1] d IH]; intros Hk; simpl; [reflexivity|].
  destruct (String.eqb k1 k) eqn:E1.
  - apply String.eqb_eq in E1. subst. exfalso. apply Hk. left. reflexivity.
  - apply IH. intros H. apply Hk. right. exact H.
Qed.

Lemma dget_ddel_same (d : Dict) (k : string) :
  NoDup (map fst d) -> dget (ddel d k) k = None.
Proof.
  induction d as [|[k0 v0] d IH]; intros Hn; simpl; [reflexivity|].
  inversion Hn as [|? ? Hk Hn']; subst.
  destruct (String.eqb k0 k) eqn:E0.
  - apply String.eqb_eq in E0. subst k0. apply dget_notin. exact Hk.
  - simpl. rewrite E0. apply IH. exact Hn'.
Qed.

Lemma dmem_dget (d : Dict) (k : string) : dmem d k = true <-> exists v, dget d k = Some v.
Proof. unfold dmem. destruct (dget d k); split; intros H; eauto; [discriminate | destruct H; discriminate]. Qed.

(** The [for item in src] loop keeps what [dst] holds and adds the first
    value of [src] for each key [dst] lacks. *)
Lemma fold_merge (src : Dict) : forall dst k,
  dget (fold_left (fun d kv => if dmem d (fst kv) then d else dset d (fst kv) (snd kv)) src dst) k =
  match dget dst k with Some v => Some v | None => dget src k end.
Proof.
  induction src as [|[k0 v0] src IH]; intros dst k; simpl.
  - destruct (dget dst k); reflexivity.
  - rewrite IH. unfold dmem. destruct (dget dst k0) eqn:E0.
    + destruct (String.eqb k0 k) eqn:E1; [|reflexivity].
      apply String.eqb_eq in E1. subst k0. rewrite E0. reflexivity.
    + rewrite dget_dset. destruct (String.eqb k0 k) eqn:E1.
      * apply String.eqb_eq in E1. subst k0. rewrite E0. reflexivity.
      * reflexivity.
Qed.

(** What [UpdateSettings] holds under each key: [version] from [src]; any
    other key as the converted [dst] has it, else as [src] has it. *)
Lemma update_get (src dst d' : Dict) (k : string) :
  UpdateSettings src dst = Some d' ->
  dget d' k =
  if String.eqb "version" k then dget src "version" else
  match dget (match dget dst "homeEndsOp" with
              | Some h =>
                  ddel (if truthy h && negb (dmem dst "endCodes")
                        then dset dst "endCodes" (JStr "M5 M9 M30 G28 G30") else dst) "homeEndsOp"
              | None => dst
              end) k with
  | Some v => Some v
  | None => dget src k
  end.
Proof.
  unfold UpdateSettings. destruct (dget src "version") as [v|] eqn:Ev; [|discriminate].
  intros H. injection H as <-. rewrite dget_dset.
  destruct (String.eqb "version" k); [reflexivity|].
  apply fold_merge.
Qed.

Lemma update_other (src dst d' : Dict) (k : string) :
  UpdateSettings src dst = Some d' ->
  k <> "version" -> k <> "homeEndsOp" -> k <> "endCodes" ->
  dget d' k = match dget dst k with Some v => Some v | None => dget src k end.
Proof.
  intros H H1 H2 H3. rewrite (update_get _ _ _ k H).
  assert (Ev : String.eqb "version" k = false) by (apply String.eqb_neq; congruence).
  rewrite Ev. destruct (dget dst "homeEndsOp"); [|reflexivity].
  rewrite dget_ddel_other by congruence.
  destruct (truthy j && negb (dmem dst "endCodes")); [|reflexivity].
  rewrite dget_dset.
  assert (Ee : String.eqb "endCodes" k = false) by (apply String.eqb_neq; congruence).
  rewrite Ee. reflexivity.
Qed.

Lemma update_settings_none (src dst : Dict) :
  UpdateSettings src dst = None <-> dget src "version" = None.
Proof.
  unfold UpdateSettings. destruct (dget src "version"); split; intros H; congruence.
Qed.

Lemma in_dset (d : Dict) (k k' : string) (v : JV) :
  In k' (map fst (dset d k v)) <-> In k' (map fst d) \/ k' = k.
Proof.
  induction d as [|[k0 v0] d IH]; simpl.
  - intuition.
  - destruct (String.eqb k0 k) eqn:E0; simpl.
    + apply String.eqb_eq in E0. subst. intuition.
    + rewrite IH. intuition.
Qed.

Lemma nodup_dset (d : Dict) (k : string) (v : JV) :
  NoDup (map fst d) -> NoDup (map fst (dset d k v)).
Proof.
  induction d as [|[k0 v0] d IH]; intros Hn; simpl.
  - constructor; [intros []|constructor].
  - inversion Hn as [|? ? Hk Hn']; subst.
    destruct (String.eqb k0 k) eqn:E0; simpl.
    + exact Hn.
    + constructor; [|apply IH; exact Hn'].
      rewrite in_dset. intros [H|H]; [exact (Hk H)|].
      subst. rewrite String.eqb_refl in E0. discriminate.
Qed.

Lemma dget_defaultSettings_delFiles : dget defaultSettings "delFiles" = Some (JBool false).
Proof. reflexivity. Qed.

Lemma dget_defaultSettings_delFolder : dget defaultSettings "delFolder" = Some (JBool false).
Proof. reflexivity. Qed.

Lemma safe_pair (d : Dict) :
  dget (dset (dset d "delFiles" (JBool false)) "delFolder" (JBool false)) "delFiles" = Some (JBool false) /\
  dget (dset (dset d "delFiles" (JBool false)) "delFolder" (JBool false)) "delFolder" = Some (JBool false).
Proof. rewrite !dget_dset. simpl. split; reflexivity. Qed.

Lemma load_default_safe (file : option JV) :
  dget (fst (load_default file)) "delFiles" = Some (JBool false) /\
  dget (fst (load_default file)) "delFolder" = Some (JBool false).
Proof.
  unfold load_default.
  destruct file as [[| | | | | |d]|]; try (split; reflexivity).
  destruct (safe_pair d) as [H1 H2].
  destruct (dget _ "version") as [v|]; [|split; reflexivity].
  destruct (eq_version v); [split; assumption|].
  destruct (UpdateSettings defaultSettings _) as [d2|] eqn:Eu; [|split; reflexivity].
  simpl. rewrite (update_other _ _ _ _ Eu), (update_other _ _ _ "delFolder" Eu)
    by discriminate.
  rewrite H1, H2. split; reflexivity.
Qed.

Lemma get_settings_default (sm : SM) (attr : option (option JV)) (file : option JV) :
  default_safe sm -> default_safe (fst (GetSettings sm attr file)).
Proof.
  intros Hs. unfold GetSettings.
  destruct (match match attr with Some (Some v) => Some v | _ => None end with
            | Some (JObj d) => _ | _ => None end); [exact Hs|].
  assert (Hl : default_safe (let '(d', exc) := load_default file in mkSM (Some d') (sm_mustSave sm || exc))).
  { destruct (load_default file) as [d' exc] eqn:El. unfold default_safe. simpl.
    pose proof (load_default_safe file) as H. rewrite El in H. exact H. }
  assert (H1 : default_safe (match sm_default sm with
                | Some d => if dict_truthy d then sm else
                              let '(d', exc) := load_default file in mkSM (Some d') (sm_mustSave sm || exc)
                | None => let '(d', exc) := load_default file in mkSM (Some d') (sm_mustSave sm || exc)
                end)).
  { destruct (sm_default sm); [destruct (dict_truthy d)|]; assumption. }
  destruct attr as [[v|]|]; simpl; try exact H1.
  destruct (truthy v); simpl; [destruct v|]; exact H1.
Qed.

Lemma reachable_safe (sm : SM) : reachable sm -> default_safe sm.
Proof.
  induction 1.
  - exact I.
  - apply get_settings_default. assumption.
  - apply safe_pair.
  - unfold SaveSettings. destruct (sm_mustSave sm); [apply safe_pair|assumption].
Qed.

Lemma load_default_version (file : option JV) :
  exists v, dget (fst (load_default file)) "version" = Some v.
Proof.
  unfold load_default.
  destruct file as [[| | | | | |d]|]; try (eexists; reflexivity).
  destruct (dget (dset (dset d "delFiles" (JBool false)) "delFolder" (JBool false)) "version")
    as [v|] eqn:Ev; [|eexists; reflexivity].
  destruct (eq_version v); [exists v; exact Ev|].
  destruct (UpdateSettings defaultSettings _) as [d2|] eqn:Eu; [|eexists; reflexivity].
  simpl. rewrite (update_get _ _ _ "version" Eu). simpl. eexists; reflexivity.
Qed.

(** ** Theorems on the settings *)

(** In every state a [SettingsManager] reaches from [__init__] through
    [GetSettings], [SaveDefault] and [SaveSettings], the default settings,
    once loaded, hold [delFiles] and [delFolder] as [False]. *)
Theorem settings_default_never_deletes (sm : SM) :
  reachable sm -> default_safe sm.
Proof. apply reachable_safe. Qed.

(** A document with no usable settings (no attribute, one that does not
    parse, or an empty value) gets a dict with [delFiles] and [delFolder]
    [False], and [GetSettings] does not raise. *)
Theorem get_settings_new_document (sm : SM) (attr : option (option JV)) (file : option JV) :
  reachable sm ->
  (attr = None \/ attr = Some None \/ exists v, attr = Some (Some v) /\ truthy v = false) ->
  match snd (GetSettings sm attr file) with
  | Some d => dget d "delFiles" = Some (JBool false) /\ dget d "delFolder" = Some (JBool false)
  | None => False
  end.
Proof.
  intros Hr Ha. pose proof (reachable_safe _ (reach_get sm attr file Hr)) as Hs.
  revert Hs. unfold GetSettings.
  assert (Hc : match match attr with Some (Some v) => Some v | _ => None end with
               | Some (JObj d) =>
                   match dget d "version" with Some v => if eq_version v then Some d else None | None => None end
               | _ => None end = None).
  { destruct Ha as [->|[->|[v [-> Hv]]]]; [reflexivity|reflexivity|].
    destruct v; try reflexivity. destruct d; [reflexivity|discriminate]. }
  rewrite Hc. simpl fst. simpl snd.
  set (sm1 := match sm_default sm with
              | Some d => if dict_truthy d then sm else
                            let '(d', exc) := load_default file in mkSM (Some d') (sm_mustSave sm || exc)
              | None => let '(d', exc) := load_default file in mkSM (Some d') (sm_mustSave sm || exc)
              end).
  assert (Hd : exists d, sm_default sm1 = Some d).
  { unfold sm1. destruct (sm_default sm) as [d|] eqn:E.
    - destruct (dict_truthy d); [exists d; exact E|].
      destruct (load_default file); eexists; reflexivity.
    - destruct (load_default file); eexists; reflexivity. }
  destruct Hd as [d Hd].
  destruct Ha as [->|[->|[v [-> Hv]]]]; simpl; rewrite Hd.
  - unfold default_safe. rewrite Hd. auto.
  - unfold default_safe. rewrite Hd. auto.
  - rewrite Hv. simpl. unfold default_safe. rewrite Hd. auto.
Qed.

(** [UpdateSettings src dst] on a dict: [version] comes from [src]; every
    key of [src] ends up in the result; every other key [dst] has keeps its
    value, [homeEndsOp] apart; every key [dst] lacks, [endCodes] apart,
    takes its value from [src]. *)
Theorem update_settings_merge (src dst d' : Dict) :
  UpdateSettings src dst = Some d' ->
  dget d' "version" = dget src "version" /\
  (forall k, dmem src k = true -> dmem d' k = true) /\
  (forall k, k <> "version" -> k <> "homeEndsOp" -> dmem dst k = true -> dget d' k = dget dst k) /\
  (forall k, k <> "version" -> k <> "endCodes" -> dmem dst k = false -> dget d' k = dget src k).
Proof.
  intros H. split; [|split; [|split]].
  - rewrite (update_get _ _ _ "version" H). reflexivity.
  - intros k Hk. unfold dmem. rewrite (update_get _ _ _ k H).
    destruct (String.eqb "version" k) eqn:Ek.
    + apply String.eqb_eq in Ek. subst k. exact Hk.
    + destruct (dget _ k); [reflexivity|exact Hk].
  - intros k H1 H2 Hk. destruct (string_dec k "endCodes") as [->|H3].
    + rewrite (update_get _ _ _ "endCodes" H). simpl.
      rewrite Hk. simpl.
      destruct (dget dst "homeEndsOp").
      * rewrite dget_ddel_other by discriminate. rewrite andb_false_r.
        unfold dmem in Hk. destruct (dget dst "endCodes"); [reflexivity|discriminate].
      * unfold dmem in Hk. destruct (dget dst "endCodes"); [reflexivity|discriminate].
    + rewrite (update_other _ _ _ _ H H1 H2 H3).
      unfold dmem in Hk. destruct (dget dst k); [reflexivity|discriminate].
  - intros k H1 H3 Hk. destruct (string_dec k "homeEndsOp") as [->|H2].
    + rewrite (update_get _ _ _ "homeEndsOp" H). simpl.
      unfold dmem in Hk. destruct (dget dst "homeEndsOp") eqn:Eh; [discriminate|].
      rewrite Eh. reflexivity.
    + rewrite (update_other _ _ _ _ H H1 H2 H3).
      unfold dmem in Hk. destruct (dget dst k); [discriminate|reflexivity].
Qed.

(** The legacy [homeEndsOp] setting of a dict [dst]: it is dropped (the
    result holds [src]'s entry, if any), and when it is true and [dst] has
    no [endCodes], [endCodes] becomes ["M5 M9 M30 G28 G30"]. *)
Theorem update_settings_legacy (src dst d' : Dict) (h : JV) :
  NoDup (map fst dst) ->
  dget dst "homeEndsOp" = Some h ->
  UpdateSettings src dst = Some d' ->
  dget d' "homeEndsOp" = dget src "homeEndsOp" /\
  dget d' "endCodes" =
    match dget dst "endCodes" with
    | Some v => Some v
    | None => if truthy h then Some (JStr "M5 M9 M30 G28 G30") else dget src "endCodes"
    end.
Proof.
  intros Hn Hh H. split.
  - rewrite (update_get _ _ _ "homeEndsOp" H). simpl. rewrite Hh.
    rewrite dget_ddel_same; [reflexivity|].
    destruct (truthy h && negb (dmem dst "endCodes")); [apply nodup_dset|]; exact Hn.
  - rewrite (update_get _ _ _ "endCodes" H). simpl. rewrite Hh.
    rewrite dget_ddel_other by discriminate. unfold dmem.
    destruct (dget dst "endCodes") as [e|] eqn:Ee.
    + rewrite andb_false_r. rewrite Ee. reflexivity.
    + rewrite andb_true_r. destruct (truthy h).
      * rewrite dget_dset. reflexivity.
      * rewrite Ee. reflexivity.
Qed.

(** Round trip through the settings file: a new session reading the file
    [SaveDefault] wrote, for a document without settings, returns and keeps
    the very default the saving session kept in memory, provided the saved
    settings have the current version. *)
Theorem save_default_reload (sm : SM) (ds : Dict) (v : JV) :
  dget ds "version" = Some v -> eq_version v = true ->
  GetSettings sm_init None (Some (JObj (snd (SaveDefault sm ds)))) =
  (fst (SaveDefault sm ds), sm_default (fst (SaveDefault sm ds))).
Proof.
  intros Hv He.
  assert (Hl : load_default (Some (JObj ds)) =
               (dset (dset ds "delFiles" (JBool false)) "delFolder" (JBool false), false)).
  { unfold load_default. rewrite !dget_dset.
    replace (String.eqb "delFolder" "version") with false by reflexivity.
    replace (String.eqb "delFiles" "version") with false by reflexivity.
    rewrite Hv, He. reflexivity. }
  unfold GetSettings, SaveDefault. cbn [fst snd sm_default sm_init]. rewrite Hl. reflexivity.
Qed.

(** On the first call of a session, [GetSettings] raises exactly when the
    document's attribute parses to a non-empty value that is not a dict. *)
Theorem get_settings_first_raises (attr : option (option JV)) (file : option JV) :
  snd (GetSettings sm_init attr file) = None <->
  exists v, attr = Some (Some v) /\ truthy v = true /\ forall d, v <> JObj d.
Proof.
  destruct (load_default_version file) as [ver Hver].
  unfold GetSettings. cbn [sm_default sm_init].
  destruct (load_default file) as [def exc] eqn:El. cbn [fst] in Hver.
  cbv beta iota zeta. cbn [sm_default].
  assert (Hu : forall d, UpdateSettings def d <> None).
  { intros d Hn. apply update_settings_none in Hn. congruence. }
  destruct attr as [[v|]|];
    [|split; [intros H; discriminate H|intros [w [Hw _]]; discriminate Hw]
     |split; [intros H; discriminate H|intros [w [Hw _]]; discriminate Hw]].
  destruct v as [| | | | | |d].
  - cbn [snd truthy negb].
    split; [intros H; discriminate H|intros [w [Hw [Ht _]]]; injection Hw as <-; discriminate Ht].
  - destruct b; cbn [snd truthy negb].
    + split; [intros _; exists (JBool true); repeat split; discriminate|reflexivity].
    + split; [intros H; discriminate H|intros [w [Hw [Ht _]]]; injection Hw as <-; discriminate Ht].
  - cbn [truthy]. destruct (Z.eqb z 0) eqn:Ez; cbn [snd negb].
    + split; [intros H; discriminate H|intros [w [Hw [Ht _]]]; injection Hw as <-].
      cbn [truthy] in Ht. rewrite Ez in Ht. discriminate Ht.
    + split; [intros _; exists (JInt z); repeat split; [cbn [truthy]; rewrite Ez; reflexivity|discriminate]|reflexivity].
  - cbn [truthy]. destruct (Qeq_bool q 0) eqn:Eq; cbn [snd negb].
    + split; [intros H; discriminate H|intros [w [Hw [Ht _]]]; injection Hw as <-].
      cbn [truthy] in Ht. rewrite Eq in Ht. discriminate Ht.
    + split; [intros _; exists (JFloat q); repeat split; [cbn [truthy]; rewrite Eq; reflexivity|discriminate]|reflexivity].
  - cbn [truthy]. destruct (String.eqb s "") eqn:Es; cbn [snd negb].
    + split; [intros H; discriminate H|intros [w [Hw [Ht _]]]; injection Hw as <-].
      cbn [truthy] in Ht. rewrite Es in Ht. discriminate Ht.
    + split; [intros _; exists (JStr s); repeat split; [cbn [truthy]; rewrite Es; reflexivity|discriminate]|reflexivity].
  - destruct l as [|x l]; cbn [snd truthy negb].
    + split; [intros H; discriminate H|intros [w [Hw [Ht _]]]; injection Hw as <-; discriminate Ht].
    + split; [intros _; exists (JArr (x :: l)); repeat split; discriminate|reflexivity].
  - split; [|intros [w [Hw [_ Hn]]]; injection Hw as <-; exfalso; apply (Hn d); reflexivity].
    destruct (dget d "version") as [v|]; [destruct (eq_version v); [intros H; discriminate H|]|];
      (destruct d as [|x d]; cbn [snd truthy negb]; [intros H; discriminate H|intros H; exfalso; exact (Hu _ H)]).
Qed.

(** ** Sample runs of the properties above *)

Lemma compress_expand_file_name_witness :
  expanduser home_ann no_users "~" <> "/" /\
  CompressFileName home_ann no_users (ExpandFileName home_ann no_users ("~/" +++ "cnc")) =
    Some ("~/" +++ replace_bs "cnc").
Proof.
  split; [vm_compute; discriminate|].
  apply (compress_expand_file_name home_ann no_users "cnc"). vm_compute. discriminate.
Defined.

Lemma setup_loop_clear_once_witness :
  loop_acts cfg_del [setup_a] post_ok never_cancelled [setup_a] =
    [] ++ ADelFiles "/out" setup_a :: [APost "a" setup_a "/out" None] /\
  Forall (fun a => act_folder a <> "/out") [] /\
  (forall s', ~ In (ADelFiles "/out" s') [APost "a" setup_a "/out" None]).
Proof.
  split; [vm_compute; reflexivity|].
  apply (setup_loop_clear_once cfg_del [setup_a] post_ok never_cancelled [setup_a] []
           [APost "a" setup_a "/out" None] "/out" setup_a).
  vm_compute. reflexivity.
Defined.

Lemma perform_abort_witness :
  snd (PerformPostProcess home_ann no_users st_del (inp_of "/Users/ann/cnc" true [["a.txt"; "b.txt"]]))
    = PPAborted /\
  pp_cancelDialog (inp_of "/Users/ann/cnc" true [["a.txt"; "b.txt"]]) = true.
Proof.
  split; [vm_compute; reflexivity|].
  apply (perform_abort home_ann no_users st_del (inp_of "/Users/ann/cnc" true [["a.txt"; "b.txt"]])).
  vm_compute. reflexivity.
Defined.

Lemma perform_home_folder_fails_witness :
  PerformPostProcess home_ann no_users st_del (inp_of "/Users/ann" true []) =
    ([EMkdir "/Users/ann"], PPFailed).
Proof.
  apply (perform_home_folder_fails home_ann no_users st_del (inp_of "/Users/ann" true []));
    vm_compute; reflexivity.
Defined.

Lemma perform_output_remap_witness :
  normalize_output home_ann no_users false "/Users/bob/cnc" "~/cnc" =
    Some (ExpandFileName home_ann no_users ("~/" +++ "cnc")) /\
  exists rest, fst (PerformPostProcess home_ann no_users st_del (inp_of "/Users/bob/cnc" false [])) =
    EMkdir "/Users/bob/cnc" :: ESave ("~/" +++ replace_bs "cnc") :: rest.
Proof.
  apply (perform_output_remap home_ann no_users st_del (inp_of "/Users/bob/cnc" false []) "cnc");
    vm_compute; first [reflexivity | discriminate].
Defined.

Lemma settings_default_never_deletes_witness :
  dget file_dict "delFiles" = Some (JBool true) /\
  default_safe (fst (GetSettings sm_init None (Some (JObj file_dict)))).
Proof.
  split; [vm_compute; reflexivity|].
  apply (settings_default_never_deletes (fst (GetSettings sm_init None (Some (JObj file_dict))))).
  apply reach_get. apply reach_init.
Defined.

Lemma get_settings_new_document_witness :
  match snd (GetSettings sm_init (Some None) (Some (JObj file_dict))) with
  | Some d => dget d "delFiles" = Some (JBool false) /\ dget d "delFolder" = Some (JBool false)
  | None => False
  end.
Proof.
  apply (get_settings_new_document sm_init (Some None) (Some (JObj file_dict))).
  - apply reach_init.
  - right; left; reflexivity.
Defined.

Lemma update_settings_merge_witness :
  let d' := some_or [] (UpdateSettings defaultSettings old_doc) in
  dget d' "version" = dget defaultSettings "version" /\
  (forall k, dmem defaultSettings k = true -> dmem d' k = true) /\
  (forall k, k <> "version" -> k <> "homeEndsOp" -> dmem old_doc k = true -> dget d' k = dget old_doc k) /\
  (forall k, k <> "version" -> k <> "endCodes" -> dmem old_doc k = false -> dget d' k = dget defaultSettings k).
Proof.
  apply (update_settings_merge defaultSettings old_doc (some_or [] (UpdateSettings defaultSettings old_doc))).
  vm_compute. reflexivity.
Defined.

Lemma update_settings_legacy_witness :
  let d' := some_or [] (UpdateSettings defaultSettings old_doc) in
  dget d' "homeEndsOp" = dget defaultSettings "homeEndsOp" /\
  dget d' "endCodes" =
    match dget old_doc "endCodes" with
    | Some v => Some v
    | None => if truthy (JBool true) then Some (JStr "M5 M9 M30 G28 G30") else dget defaultSettings "endCodes"
    end.
Proof.
  apply (update_settings_legacy defaultSettings old_doc (some_or [] (UpdateSettings defaultSettings old_doc))
           (JBool true)).
  - simpl. repeat constructor; simpl; intuition discriminate.
  - vm_compute. reflexivity.
  - vm_compute. reflexivity.
Defined.

Lemma save_default_reload_witness :
  GetSettings sm_init None (Some (JObj (snd (SaveDefault sm_init file_dict)))) =
  (fst (SaveDefault sm_init file_dict), sm_default (fst (SaveDefault sm_init file_dict))).
Proof.
  apply (save_default_reload sm_init file_dict (JInt 10)); vm_compute; reflexivity.
Defined.
